(** * alice-shell / alice: voice-command interpretation, verified model

    Shallow embedding of the parts of [alice.py] (graphical front end) and
    [alice-shell.py] (line-oriented shell) that decide the specification's
    properties: the alias store, the fuzzy matcher, the confirmation state
    machine of both front ends, history windowing and command/explanation
    extraction.

    Modelling conventions.
    - Python [str] values are Rocq strings read as sequences of ASCII code
      points; bytes above 127 are kept but are neither whitespace, nor
      alphanumeric, nor changed by [lower]/[upper].
    - Every handler is a function on an explicit session record; the text
      written to the terminal, the text handed to the speech engine and the
      calls to external programs are appended to a log of effects.
    - One utterance or one typed line is handled to completion before the
      next one starts (the single-owner model of the design).
    - Answers read by [input()] inside a handler are an explicit list; an
      exhausted list is end of input ([EOFError]). *)

From Stdlib Require Import ZArith QArith Ascii String List Bool Lia Permutation.
From stdpp Require Import base tactics option list gmap strings sorting pretty.

Local Open Scope string_scope.
Local Open Scope list_scope.
Local Open Scope nat_scope.

(** ** Python string primitives *)

Module PyStr.

Definition code (c : ascii) : nat := nat_of_ascii c.

(** [str.isspace] on ASCII: TAB..CR, FS..US and SPACE. *)
Definition isspace (c : ascii) : bool :=
  let n := code c in
  ((9 <=? n) && (n <=? 13)) || ((28 <=? n) && (n <=? 32)).

Definition isdigit (c : ascii) : bool :=
  let n := code c in (48 <=? n) && (n <=? 57).

Definition isupper (c : ascii) : bool :=
  let n := code c in (65 <=? n) && (n <=? 90).

Definition islower (c : ascii) : bool :=
  let n := code c in (97 <=? n) && (n <=? 122).

Definition isalnum (c : ascii) : bool := isdigit c || isupper c || islower c.

Definition lower_char (c : ascii) : ascii :=
  if isupper c then ascii_of_nat (code c + 32) else c.

Definition upper_char (c : ascii) : ascii :=
  if islower c then ascii_of_nat (code c - 32) else c.

Definition chars (s : string) : list ascii := list_ascii_of_string s.
Definition str (l : list ascii) : string := string_of_list_ascii l.

Definition lower (s : string) : string := str (map lower_char (chars s)).
Definition upper (s : string) : string := str (map upper_char (chars s)).

Fixpoint drop_while {A} (p : A -> bool) (l : list A) : list A :=
  match l with
  | [] => []
  | x :: l' => if p x then drop_while p l' else l
  end.

(** [s.strip(chars)] with the characters to remove given by a predicate. *)
Definition strip_by (p : ascii -> bool) (s : string) : string :=
  str (rev (drop_while p (rev (drop_while p (chars s))))).

(** [s.strip()] *)
Definition strip (s : string) : string := strip_by isspace s.

(** [s.lstrip()] *)
Definition lstrip (s : string) : string := str (drop_while isspace (chars s)).

Definition mem_char (c : ascii) (l : list ascii) : bool :=
  existsb (Ascii.eqb c) l.

(** [s.strip(cs)] for an explicit character set. *)
Definition strip_chars (cs : list ascii) (s : string) : string :=
  strip_by (fun c => mem_char c cs) s.

(** [s.split()] : maximal runs of non-whitespace characters. *)
Fixpoint split_aux (cur : list ascii) (l : list ascii) : list string :=
  match l with
  | [] => match cur with [] => [] | _ => [str (rev cur)] end
  | c :: l' =>
      if isspace c
      then match cur with
           | [] => split_aux [] l'
           | _ => str (rev cur) :: split_aux [] l'
           end
      else split_aux (c :: cur) l'
  end.

Definition split (s : string) : list string := split_aux [] (chars s).

(** Line boundaries of [str.splitlines] in the ASCII range:
    LF, VT, FF, CR, FS, GS, RS; CR LF counts once. *)
Definition islinebreak (c : ascii) : bool :=
  let n := code c in
  ((10 <=? n) && (n <=? 13)) || ((28 <=? n) && (n <=? 30)).

Fixpoint splitlines_aux (cur : list ascii) (l : list ascii) : list string :=
  match l with
  | [] => match cur with [] => [] | _ => [str (rev cur)] end
  | c :: l' =>
      if islinebreak c
      then str (rev cur) ::
           splitlines_aux []
             (if (code c =? 13)%nat
              then match l' with
                   | d :: l'' => if (code d =? 10)%nat then l'' else l'
                   | [] => l'
                   end
              else l')
      else splitlines_aux (c :: cur) l'
  end.

Definition splitlines (s : string) : list string := splitlines_aux [] (chars s).

(** The line feed character as a string. *)
Definition nl : string := String "010"%char "".

(** [sep.join(l)] *)
Definition join (sep : string) (l : list string) : string := String.concat sep l.

(** [s.startswith(p)] *)
Definition startswith (p s : string) : bool := String.prefix p s.

(** [s[n:]] for [0 <= n] *)
Definition drop_str (n : nat) (s : string) : string := str (skipn n (chars s)).

(** [x in {...}] for a literal set of strings. *)
Definition mem (x : string) (l : list string) : bool := existsb (String.eqb x) l.

(** Truth value of a [str]. *)
Definition truthy (s : string) : bool := negb (String.eqb s "").

(** Truth value of an [Optional[str]]. *)
Definition truthy_opt (o : option string) : bool :=
  match o with Some s => truthy s | None => false end.

(** [a or b] on strings. *)
Definition or_str (a b : string) : string := if truthy a then a else b.

(** Order of [str] values: lexicographic on code points. *)
Definition str_le (a b : string) : Prop := String.leb a b = true.

#[global] Instance str_le_dec (a b : string) : Decision (str_le a b).
Proof. unfold str_le. apply _. Defined.

(** [sorted(set_of_str)] *)
Definition sorted (s : gset string) : list string :=
  merge_sort str_le (elements s).

End PyStr.

(** ** [difflib.SequenceMatcher(None, a, b).ratio()]

    The matcher of the Python standard library, as both front ends call it:
    no junk predicate, automatic junk heuristic left on. *)

Module Difflib.

Definition count_char (c : ascii) (b : list ascii) : nat :=
  length (List.filter (Ascii.eqb c) b).

(** [__chain_b]: with at least 200 elements in [b], an element occurring
    more than [n // 100 + 1] times is dropped from the index [b2j]. *)
Definition popular (b : list ascii) (c : ascii) : bool :=
  (200 <=? length b) && (length b / 100 + 1 <? count_char c b).

(** One pass of the outer loop of [find_longest_match]: the new [j2len]
    table, entry [j] being [j2len.get(j-1, 0) + 1] for the indexed positions
    [j] of [a[i]] in [blo, bhi), and 0 (absent) elsewhere. *)
Definition next_row (b : list ascii) (blo bhi : nat) (ai : ascii)
    (prev : list nat) : list nat :=
  imap (fun j bj =>
          if (blo <=? j) && (j <? bhi) && Ascii.eqb ai bj && negb (popular b bj)
          then S (match j with 0 => 0 | S j' => nth j' prev 0 end)
          else 0) b.

Definition block : Type := nat * nat * nat.

Definition size (m : block) : nat := snd m.

(** [if k > bestsize: besti, bestj, bestsize = i-k+1, j-k+1, k], for
    increasing [j]. *)
Definition scan_row (i : nat) (row : list nat) (best : block) : block :=
  fold_left (fun best jk =>
               let k := snd jk in
               if size best <? k then (i + 1 - k, fst jk + 1 - k, k) else best)
            (imap pair row) best.

Fixpoint rows (b : list ascii) (blo bhi : nat) (arest : list ascii) (i : nat)
    (prev : list nat) (best : block) : block :=
  match arest with
  | [] => best
  | ai :: arest' =>
      let row := next_row b blo bhi ai prev in
      rows b blo bhi arest' (S i) row (scan_row i row best)
  end.

Definition same_at (a b : list ascii) (i j : nat) : bool :=
  match a !! i, b !! j with
  | Some x, Some y => Ascii.eqb x y
  | _, _ => false
  end.

(** The first extension loop (the set of junk elements is empty). *)
Fixpoint extend_left (fuel : nat) (a b : list ascii) (alo blo : nat)
    (m : block) : block :=
  match fuel with
  | 0 => m
  | S fuel' =>
      match m with
      | (besti, bestj, bestsize) =>
          if (alo <? besti) && (blo <? bestj) && same_at a b (besti - 1) (bestj - 1)
          then extend_left fuel' a b alo blo (besti - 1, bestj - 1, bestsize + 1)
          else m
      end
  end.

(** The second extension loop. *)
Fixpoint extend_right (fuel : nat) (a b : list ascii) (ahi bhi : nat)
    (m : block) : block :=
  match fuel with
  | 0 => m
  | S fuel' =>
      match m with
      | (besti, bestj, bestsize) =>
          if (besti + bestsize <? ahi) && (bestj + bestsize <? bhi)
             && same_at a b (besti + bestsize) (bestj + bestsize)
          then extend_right fuel' a b ahi bhi (besti, bestj, bestsize + 1)
          else m
      end
  end.

Definition find_longest_match (a b : list ascii) (alo ahi blo bhi : nat) : block :=
  let m0 := rows b blo bhi (firstn (ahi - alo) (skipn alo a)) alo [] (alo, blo, 0) in
  let m1 := extend_left (fst (fst m0)) a b alo blo m0 in
  extend_right ahi a b ahi bhi m1.

(** Sum of the sizes of the blocks found by [get_matching_blocks]; the work
    list of the source is unfolded into two recursive calls, [fuel] bounds
    their nesting. *)
Fixpoint matched (fuel : nat) (a b : list ascii) (alo ahi blo bhi : nat) : nat :=
  match fuel with
  | 0 => 0
  | S fuel' =>
      match find_longest_match a b alo ahi blo bhi with
      | (i, j, k) =>
          if k =? 0 then 0
          else k
               + (if (alo <? i) && (blo <? j)
                  then matched fuel' a b alo i blo j else 0)
               + (if (i + k <? ahi) && (j + k <? bhi)
                  then matched fuel' a b (i + k) ahi (j + k) bhi else 0)
      end
  end.

Definition matches (a b : list ascii) : nat :=
  matched (S (length a)) a b 0 (length a) 0 (length b).

(** [_calculate_ratio(matches, length)] as an exact fraction. *)
Definition calculate_ratio (m len : nat) : Q :=
  if len =? 0 then 1%Q
  else Qmake (2 * Z.of_nat m) (Pos.of_nat len).

Definition ratio (a b : string) : Q :=
  let la := PyStr.chars a in
  let lb := PyStr.chars b in
  calculate_ratio (matches la lb) (length la + length lb).

(** A block inside the rectangle [alo, hi) x [blo, bhi). *)
Definition boxed (alo hi blo bhi : nat) (m : block) : Prop :=
  alo <= fst (fst m) /\ fst (fst m) + snd m <= hi
  /\ blo <= snd (fst m) /\ snd (fst m) + snd m <= bhi.

(** Entries of the table built for row [i]: a non-zero entry is the length
    of a run ending at [i], [j] that starts inside the rectangle. *)
Definition row_ok (alo blo bhi i : nat) (row : list nat) : Prop :=
  forall j k, row !! j = Some k -> k <> 0 ->
              alo + k <= S i /\ blo + k <= S j /\ j < bhi.

End Difflib.


(** ** Errors raised by the modelled code *)

Inductive exn : Type :=
| KeyError (key : string)
| EOFError
| IndexError.

(** ** [alice.py]: alias store, fuzzy matcher, clear confirmation *)

Module Gui.
Import PyStr.

(** One entry of [VoiceProfile.words]. [status] is whatever the profile file
    held: a string, or [None] for a JSON null. *)
Record meta : Type := mkMeta {
  aliases : gset string;
  last_calibrated : option string;
  status : option string
}.

Record VoiceProfile : Type := mkProfile {
  target_samples : Z;
  words : gmap string meta
}.

Definition fresh_meta : meta :=
  {| aliases := ∅; last_calibrated := None; status := Some "Uncalibrated" |}.

Definition set_words (w : gmap string meta) (p : VoiceProfile) : VoiceProfile :=
  {| target_samples := target_samples p; words := w |}.

Definition set_status (st : option string) (m : meta) : meta :=
  {| aliases := aliases m; last_calibrated := last_calibrated m; status := st |}.

(** [ensure_word] *)
Definition ensure_word (word : string) (p : VoiceProfile) : VoiceProfile :=
  let w := lower (strip word) in
  if negb (truthy w) then p
  else match words p !! w with
       | Some _ => p
       | None => set_words (<[w := fresh_meta]> (words p)) p
       end.

(** The status computed from one entry: the body of
    [_compute_status_for_word] after the lookup [self.words[word]]. *)
Definition compute_status (target : Z) (m : meta) : option string :=
  let n := Z.of_nat (size (aliases m)) in
  if (n =? 0)%Z then Some "Uncalibrated"
  else if (n <? target)%Z then Some "Partial"
  else if truthy_opt (status m) then status m else Some "Calibrated".

(** [_compute_status_for_word]; [inr] is the [KeyError] of an unknown word. *)
Definition _compute_status_for_word (word : string) (p : VoiceProfile)
    : option string + exn :=
  match words p !! word with
  | Some m => inl (compute_status (target_samples p) m)
  | None => inr (KeyError word)
  end.

(** [get_status]: stores the recomputed status and returns it. *)
Definition get_status (word : string) (p : VoiceProfile)
    : VoiceProfile * (option string + exn) :=
  match words p !! word with
  | Some m =>
      let st := compute_status (target_samples p) m in
      (set_words (<[word := set_status st m]> (words p)) p, inl st)
  | None => (p, inr (KeyError word))
  end.

(** [set_target_samples] *)
Definition set_target_samples (target : Z) (p : VoiceProfile) : VoiceProfile :=
  if (target <=? 0)%Z then p
  else {| target_samples := target;
          words := (fun m => set_status (compute_status target m) m) <$> words p |}.

(** [get_aliases] *)
Definition get_aliases (word : string) (p : VoiceProfile) : list string :=
  match words p !! lower word with
  | Some m => sorted (aliases m)
  | None => []
  end.

(** The loop of [set_aliases] building [aliases_clean]. *)
Definition clean_aliases (al : list string) : gset string :=
  fold_left (fun acc a =>
               let a := strip a in
               if negb (truthy a) then acc else acc ∪ {[ lower a ]})
            al ∅.

(** [set_aliases]; [now] is [datetime.utcnow().isoformat() + "Z"]. The
    second component is the [KeyError] raised by [self.words[word]] when
    [ensure_word] did not create that very key. *)
Definition set_aliases (word : string) (al : list string) (now : string)
    (p : VoiceProfile) : VoiceProfile * option exn :=
  let word := lower word in
  let p := ensure_word word p in
  let cleaned := clean_aliases al in
  match words p !! word with
  | None => (p, Some (KeyError word))
  | Some m =>
      let m1 := {| aliases := cleaned; last_calibrated := Some now;
                   status := status m |} in
      let m2 := set_status (compute_status (target_samples p) m1) m1 in
      (set_words (<[word := m2]> (words p)) p, None)
  end.

(** [add_alias] *)
Definition add_alias (word alias : string) (now : string) (p : VoiceProfile)
    : VoiceProfile * option exn :=
  let word := lower word in
  let alias := strip alias in
  if negb (truthy alias) then (p, None)
  else
    let p := ensure_word word p in
    match words p !! word with
    | None => (p, Some (KeyError word))
    | Some m =>
        let m1 := {| aliases := aliases m ∪ {[ lower alias ]};
                     last_calibrated := Some now; status := status m |} in
        let m2 := set_status (compute_status (target_samples p) m1) m1 in
        (set_words (<[word := m2]> (words p)) p, None)
    end.

(** [delete_aliases]; [which = None] stands for [None] or ["all"]. *)
Definition delete_aliases (word : string) (which : option (list string))
    (p : VoiceProfile) : VoiceProfile :=
  let word := lower word in
  match words p !! word with
  | None => p
  | Some m =>
      let al := match which with
                | None => ∅
                | Some l => fold_left (fun acc a => acc ∖ {[ lower a ]}) l (aliases m)
                end in
      let m1 := {| aliases := al; last_calibrated := last_calibrated m;
                   status := status m |} in
      let m2 := set_status (compute_status (target_samples p) m1) m1 in
      set_words (<[word := m2]> (words p)) p
  end.

(** The characters removed by the [strip] calls of the matcher: space,
    comma, full stop, exclamation mark, question mark, single and double
    quote. *)
Definition punct : list ascii :=
  [" "; ","; "."; "!"; "?"; "'"; "034"]%char.

Definition Qgt_bool (x y : Q) : bool := negb (Qle_bool x y).

(** [str(x).lower().strip(...)] with the characters of [punct] *)
Definition normal (x : string) : string := strip_chars punct (lower x).

(** The value of [best] after the loop over the targets. *)
Definition best_ratio (word_norm : string) (targets : list string) : Q :=
  fold_left (fun best t =>
               let t_norm := normal t in
               if negb (truthy t_norm) then best
               else
                 let ratio := Difflib.ratio word_norm t_norm in
                 if Qgt_bool ratio best then ratio else best)
            targets 0%Q.

(** [CodexVoiceGUI._fuzzy] *)
Definition _fuzzy (word : string) (targets : list string) (threshold : Q) : bool :=
  if negb (truthy word) then false
  else
    let word_norm := normal word in
    if negb (truthy word_norm) then false
    else Qle_bool threshold (best_ratio word_norm targets).

(** The part of the window state the voice handler reads and writes. The
    three text panes are strings; [spoken] collects the texts that
    [_guided_say] lets through its guided-mode test. *)
Record State : Type := mkState {
  voice_mode : string;
  mode_var : string;
  model_var : string;
  reasoning_var : string;
  wake_name_var : string;
  voice_profile : VoiceProfile;
  prompt_text : string;
  output_text : string;
  console_text : string;
  clear_confirm_window : bool;
  spoken : list string
}.

Definition set_voice_mode (v : string) (g : State) : State :=
  mkState v (mode_var g) (model_var g) (reasoning_var g) (wake_name_var g)
    (voice_profile g) (prompt_text g) (output_text g) (console_text g)
    (clear_confirm_window g) (spoken g).

Definition set_panes (p o c : string) (g : State) : State :=
  mkState (voice_mode g) (mode_var g) (model_var g) (reasoning_var g)
    (wake_name_var g) (voice_profile g) p o c (clear_confirm_window g) (spoken g).

Definition set_clear_confirm_window (w : bool) (g : State) : State :=
  mkState (voice_mode g) (mode_var g) (model_var g) (reasoning_var g)
    (wake_name_var g) (voice_profile g) (prompt_text g) (output_text g)
    (console_text g) w (spoken g).

Definition set_spoken (l : list string) (g : State) : State :=
  mkState (voice_mode g) (mode_var g) (model_var g) (reasoning_var g)
    (wake_name_var g) (voice_profile g) (prompt_text g) (output_text g)
    (console_text g) (clear_confirm_window g) l.

(** [_append_console] *)
Definition _append_console (text : string) (g : State) : State :=
  set_panes (prompt_text g) (output_text g) (console_text g ++ text) g.

(** [_is_guided] *)
Definition _is_guided (g : State) : bool :=
  startswith "guided" (lower (mode_var g)).

(** [_guided_say], up to the availability of the speech engine. *)
Definition _guided_say (text : string) (g : State) : State :=
  if negb (truthy text) || negb (_is_guided g) then g
  else set_spoken (spoken g ++ [text]) g.

(** [_do_clear] *)
Definition _do_clear (g : State) : State :=
  _append_console ("[VOICE] Cleared all panes." ++ nl)
    (set_panes "" "" "" g).

(** [_finish_clear] *)
Definition _finish_clear (confirmed : bool) (g : State) : State :=
  let g :=
    if confirmed then _guided_say "Cleared all panes." (_do_clear g)
    else _guided_say "Clear cancelled."
           (_append_console ("[VOICE] Clear cancelled." ++ nl) g) in
  let g := set_voice_mode "idle" g in
  if clear_confirm_window g then set_clear_confirm_window false g else g.

Definition FILLERS : list string :=
  ["huh"; "uh"; "um"; "erm"; "mm"; "mmm"; "uhh"; "uhm"].

Definition is_filler (t : string) : bool :=
  mem (strip_chars punct (lower t)) FILLERS.

(** [raw_tokens[start:end]] after the two filler-skipping loops. *)
Definition trim_fillers (tokens : list string) : list string :=
  rev (drop_while is_filler (rev (drop_while is_filler tokens))).

(** [" ".join(t.strip(...) for t in lower_tokens)] *)
Definition heard_lower (raw_tokens : list string) : string :=
  join " " (map (fun t => strip_chars punct (lower t)) raw_tokens).

(** The tokens the clear confirmation looks at. *)
Definition heard_tokens (text : string) : list string :=
  split (heard_lower (trim_fillers (split (strip text)))).

(** [any(self._fuzzy(t, targets, threshold) for t in tokens)] *)
Definition any_fuzzy (tokens targets : list string) (threshold : Q) : bool :=
  existsb (fun t => _fuzzy t targets threshold) tokens.

Definition yes_targets (g : State) : list string :=
  ["confirm"; "yes"; "yeah"; "yep"]
  ++ (if decide (is_Some (words (voice_profile g) !! "yes"))
      then get_aliases "yes" (voice_profile g) else []).

Definition no_targets (g : State) : list string :=
  ["cancel"; "no"; "nope"]
  ++ (if decide (is_Some (words (voice_profile g) !! "no"))
      then get_aliases "no" (voice_profile g) else []).

(** [_handle_voice_text]. [other_modes raw lower] stands for the rest of
    the method, reached when the mode is not the clear confirmation
    (calibration, prompt capture and idle dispatch). *)
Definition _handle_voice_text (other_modes : string -> string -> State -> State)
    (text : string) (g : State) : State :=
  let raw_orig := strip text in
  if negb (truthy raw_orig) then g
  else
    match trim_fillers (split raw_orig) with
    | [] => g
    | raw_tokens =>
        let raw := join " " raw_tokens in
        let lower := heard_lower raw_tokens in
        let g := _append_console ("[VOICE] Heard: " ++ raw ++ nl) g in
        if String.eqb (voice_mode g) "confirm_clear" then
          let tokens := split lower in
          if any_fuzzy tokens (yes_targets g) (75 # 100) then
            _finish_clear true
              (_append_console ("[VOICE] Clear confirmed by voice." ++ nl) g)
          else if any_fuzzy tokens (no_targets g) (75 # 100) then
            _finish_clear false
              (_append_console ("[VOICE] Clear cancelled by voice." ++ nl) g)
          else g
        else other_modes raw lower g
    end.

(** *** Model and reasoning selection *)

Definition MODEL_OPTIONS : list string :=
  ["gpt-5"; "gpt-5-codex"; "gpt-4.1"; "gpt-4o"].

Definition REASONING_OPTIONS : list string := ["none"; "low"; "medium"; "high"].

Definition set_model_var (v : string) (g : State) : State :=
  mkState (voice_mode g) (mode_var g) v (reasoning_var g) (wake_name_var g)
    (voice_profile g) (prompt_text g) (output_text g) (console_text g)
    (clear_confirm_window g) (spoken g).

Definition set_reasoning_var (v : string) (g : State) : State :=
  mkState (voice_mode g) (mode_var g) (model_var g) v (wake_name_var g)
    (voice_profile g) (prompt_text g) (output_text g) (console_text g)
    (clear_confirm_window g) (spoken g).

(** [l.index(x)]; [None] is the [ValueError] of a missing element. *)
Fixpoint index (l : list string) (x : string) : option nat :=
  match l with
  | [] => None
  | y :: l' => if String.eqb y x then Some 0 else S <$> index l' x
  end.

(** [(idx + direction) % len(options)], Python's remainder. *)
Definition cycle_index (idx : nat) (direction : Z) (options : list string) : nat :=
  Z.to_nat ((Z.of_nat idx + direction) mod Z.of_nat (length options)).

(** [_cycle_model] *)
Definition _cycle_model (direction : Z) (g : State) : State :=
  let idx := default 0 (index MODEL_OPTIONS (model_var g)) in
  let new_idx := cycle_index idx direction MODEL_OPTIONS in
  let g := set_model_var (nth new_idx MODEL_OPTIONS "") g in
  let g := _append_console ("[VOICE] Model set to: " +:+ model_var g +:+ nl) g in
  _guided_say ("Model set to " +:+ model_var g +:+ ".") g.

(** [_cycle_reasoning] *)
Definition _cycle_reasoning (direction : Z) (g : State) : State :=
  let idx := default 1 (index REASONING_OPTIONS (reasoning_var g)) in
  let new_idx := cycle_index idx direction REASONING_OPTIONS in
  let g := set_reasoning_var (nth new_idx REASONING_OPTIONS "") g in
  let g := _append_console ("[VOICE] Reasoning set to: " +:+ reasoning_var g +:+ nl) g in
  _guided_say ("Reasoning set to " +:+ reasoning_var g +:+ ".") g.

(** *** Text chunks for the speech engine *)

Definition is_sentence_end (c : ascii) : bool :=
  mem_char c ["."; "!"; "?"]%char.

(** [re.split(r"(?<=[.!?])\s+", text)]: the text is cut at every maximal
    run of white space that directly follows a full stop, an exclamation
    mark or a question mark. [skipping] is set inside such a run; [cur]
    holds the current piece, last character first. *)
Fixpoint sentences_aux (skipping : bool) (cur l : list ascii) : list string :=
  match l with
  | [] => [str (rev cur)]
  | c :: l' =>
      if isspace c then
        if skipping then sentences_aux true cur l'
        else
          match cur with
          | p :: _ =>
              if is_sentence_end p then str (rev cur) :: sentences_aux true [] l'
              else sentences_aux false (c :: cur) l'
          | [] => sentences_aux false (c :: cur) l'
          end
      else sentences_aux false (c :: cur) l'
  end.

Definition sentences (text : string) : list string :=
  sentences_aux false [] (chars text).

(** The loop of [_chunk_text_for_tts]: the chunks closed so far and the
    chunk being filled. *)
Definition chunk_step (max_chars : Z) (acc : list string * string) (s : string)
    : list string * string :=
  let '(chunks, current) := acc in
  if negb (truthy s) then (chunks, current)
  else if negb (truthy current) then (chunks, s)
  else if (Z.of_nat (String.length current) + 1 + Z.of_nat (String.length s)
           <=? max_chars)%Z
       then (chunks, current +:+ " " +:+ s)
       else (chunks ++ [current], s).

(** [_chunk_text_for_tts(text, max_chars)] *)
Definition _chunk_text_for_tts (text : string) (max_chars : Z) : list string :=
  let text := strip text in
  if negb (truthy text) then []
  else
    let '(chunks, current) :=
      fold_left (chunk_step max_chars) (sentences text) ([], "") in
    if truthy current then chunks ++ [current] else chunks.

End Gui.

(** ** [alice-shell.py]: the line-oriented voice shell *)

Module Shell.
Import PyStr.

(** Outcome of [subprocess.run] on the code-generation tool. *)
Inductive codex_result : Type :=
| CodexNotFound
| CodexFailed (e : string)
| CodexDone (returncode : Z) (stdout stderr : string).

(** Outcome of [subprocess.run(command, shell=True)]. *)
Inductive os_result : Type :=
| OsFailed (e : string)
| OsDone (stdout stderr : string).

(** What a handler does to the outside world, in order. [Dispatch] marks
    the point where the pending proposed command is handed over for
    execution. *)
Inductive effect : Type :=
| Out (text : string)
| Speak (text : string)
| CodexCall (args : list string)
| OsCall (command : string)
| ClearScreen
| WriteSettings
| WriteProfile
| SessionLog (msg : string)
| StartThreads
| Dispatch (cmd : string).

(** The collaborators and library calls the shell does not define itself.
    The first argument of [run_codex], [run_os] and [save_settings_error]
    is the number of effects so far, so that two calls need not agree. *)
Class World : Type := {
  float : Type;
  float_of_string : string -> option float;
  clamp_speed : float -> float;
  speed_faster : float -> float;
  speed_slower : float -> float;
  format_2f : float -> string;
  int_of_string : string -> option Z;
  colorama_available : bool;
  sd_available : bool;
  vosk_available : bool;
  tts_available : bool;
  tts_speakers : list string;
  vosk_model_path : string;
  vosk_model_exists : bool;
  vosk_load_error : option string;
  settings_path : string;
  save_settings_error : nat -> option string;
  shlex_quote : string -> string;
  run_codex : nat -> list string -> codex_result;
  run_os : nat -> string -> os_result
}.

Section Model.
Context {W : World}.

(** The values written by [_save_settings]. *)
Record Settings : Type := mkSettings {
  assistant_name : string;
  guided_mode : bool;
  current_model : string;
  current_reasoning : string;
  debug_enabled : bool;
  save_recordings : bool;
  save_prompts : bool;
  use_color : bool;
  tts_speed : float;
  buffer_mode : string;
  voice_index : Z
}.

(** The attributes of [CodexVoiceShell] the handlers read and write. *)
Record State : Type := mkShell {
  settings : Settings;
  buffer_anchor_index : Z;
  buffer_last_action_index : Z;
  logger_enable_debug : bool;
  logger_enable_session_log : bool;
  profile : gmap string (list string);
  terminal_buffer : list string;
  prompt_text : string;
  pending_shell_command : option string;
  pending_shell_explanation : option string;
  last_codex_prompt : option string;
  last_codex_response : option string;
  prompt_capture : bool;
  confirm_mode : option string;
  _exit_requested : bool;
  _listening : bool;
  vosk_loaded : bool;
  effects : list effect
}.

Definition with_assistant_name (v : string) (c : Settings) : Settings :=
  mkSettings v (guided_mode c) (current_model c) (current_reasoning c)
    (debug_enabled c) (save_recordings c) (save_prompts c) (use_color c)
    (tts_speed c) (buffer_mode c) (voice_index c).

Definition with_guided_mode (v : bool) (c : Settings) : Settings :=
  mkSettings (assistant_name c) v (current_model c) (current_reasoning c)
    (debug_enabled c) (save_recordings c) (save_prompts c) (use_color c)
    (tts_speed c) (buffer_mode c) (voice_index c).

Definition with_current_model (v : string) (c : Settings) : Settings :=
  mkSettings (assistant_name c) (guided_mode c) v (current_reasoning c)
    (debug_enabled c) (save_recordings c) (save_prompts c) (use_color c)
    (tts_speed c) (buffer_mode c) (voice_index c).

Definition with_current_reasoning (v : string) (c : Settings) : Settings :=
  mkSettings (assistant_name c) (guided_mode c) (current_model c) v
    (debug_enabled c) (save_recordings c) (save_prompts c) (use_color c)
    (tts_speed c) (buffer_mode c) (voice_index c).

Definition with_debug_enabled (v : bool) (c : Settings) : Settings :=
  mkSettings (assistant_name c) (guided_mode c) (current_model c)
    (current_reasoning c) v (save_recordings c) (save_prompts c) (use_color c)
    (tts_speed c) (buffer_mode c) (voice_index c).

Definition with_save_recordings (v : bool) (c : Settings) : Settings :=
  mkSettings (assistant_name c) (guided_mode c) (current_model c)
    (current_reasoning c) (debug_enabled c) v (save_prompts c) (use_color c)
    (tts_speed c) (buffer_mode c) (voice_index c).

Definition with_save_prompts (v : bool) (c : Settings) : Settings :=
  mkSettings (assistant_name c) (guided_mode c) (current_model c)
    (current_reasoning c) (debug_enabled c) (save_recordings c) v
    (use_color c) (tts_speed c) (buffer_mode c) (voice_index c).

Definition with_use_color (v : bool) (c : Settings) : Settings :=
  mkSettings (assistant_name c) (guided_mode c) (current_model c)
    (current_reasoning c) (debug_enabled c) (save_recordings c)
    (save_prompts c) v (tts_speed c) (buffer_mode c) (voice_index c).

Definition with_tts_speed (v : float) (c : Settings) : Settings :=
  mkSettings (assistant_name c) (guided_mode c) (current_model c)
    (current_reasoning c) (debug_enabled c) (save_recordings c)
    (save_prompts c) (use_color c) v (buffer_mode c) (voice_index c).

Definition with_buffer_mode (v : string) (c : Settings) : Settings :=
  mkSettings (assistant_name c) (guided_mode c) (current_model c)
    (current_reasoning c) (debug_enabled c) (save_recordings c)
    (save_prompts c) (use_color c) (tts_speed c) v (voice_index c).

Definition with_voice_index (v : Z) (c : Settings) : Settings :=
  mkSettings (assistant_name c) (guided_mode c) (current_model c)
    (current_reasoning c) (debug_enabled c) (save_recordings c)
    (save_prompts c) (use_color c) (tts_speed c) (buffer_mode c) v.

Definition set_settings (v : Settings) (s : State) : State :=
  mkShell v (buffer_anchor_index s) (buffer_last_action_index s)
    (logger_enable_debug s) (logger_enable_session_log s) (profile s)
    (terminal_buffer s) (prompt_text s) (pending_shell_command s)
    (pending_shell_explanation s) (last_codex_prompt s)
    (last_codex_response s) (prompt_capture s) (confirm_mode s)
    (_exit_requested s) (_listening s) (vosk_loaded s) (effects s).

Definition set_buffer_anchor_index (v : Z) (s : State) : State :=
  mkShell (settings s) v (buffer_last_action_index s) (logger_enable_debug s)
    (logger_enable_session_log s) (profile s) (terminal_buffer s)
    (prompt_text s) (pending_shell_command s) (pending_shell_explanation s)
    (last_codex_prompt s) (last_codex_response s) (prompt_capture s)
    (confirm_mode s) (_exit_requested s) (_listening s) (vosk_loaded s)
    (effects s).

Definition set_buffer_last_action_index (v : Z) (s : State) : State :=
  mkShell (settings s) (buffer_anchor_index s) v (logger_enable_debug s)
    (logger_enable_session_log s) (profile s) (terminal_buffer s)
    (prompt_text s) (pending_shell_command s) (pending_shell_explanation s)
    (last_codex_prompt s) (last_codex_response s) (prompt_capture s)
    (confirm_mode s) (_exit_requested s) (_listening s) (vosk_loaded s)
    (effects s).

Definition set_logger_enable_debug (v : bool) (s : State) : State :=
  mkShell (settings s) (buffer_anchor_index s) (buffer_last_action_index s) v
    (logger_enable_session_log s) (profile s) (terminal_buffer s)
    (prompt_text s) (pending_shell_command s) (pending_shell_explanation s)
    (last_codex_prompt s) (last_codex_response s) (prompt_capture s)
    (confirm_mode s) (_exit_requested s) (_listening s) (vosk_loaded s)
    (effects s).

Definition set_logger_enable_session_log (v : bool) (s : State) : State :=
  mkShell (settings s) (buffer_anchor_index s) (buffer_last_action_index s)
    (logger_enable_debug s) v (profile s) (terminal_buffer s) (prompt_text s)
    (pending_shell_command s) (pending_shell_explanation s)
    (last_codex_prompt s) (last_codex_response s) (prompt_capture s)
    (confirm_mode s) (_exit_requested s) (_listening s) (vosk_loaded s)
    (effects s).

Definition set_profile (v : gmap string (list string)) (s : State) : State :=
  mkShell (settings s) (buffer_anchor_index s) (buffer_last_action_index s)
    (logger_enable_debug s) (logger_enable_session_log s) v
    (terminal_buffer s) (prompt_text s) (pending_shell_command s)
    (pending_shell_explanation s) (last_codex_prompt s)
    (last_codex_response s) (prompt_capture s) (confirm_mode s)
    (_exit_requested s) (_listening s) (vosk_loaded s) (effects s).

Definition set_terminal_buffer (v : list string) (s : State) : State :=
  mkShell (settings s) (buffer_anchor_index s) (buffer_last_action_index s)
    (logger_enable_debug s) (logger_enable_session_log s) (profile s) v
    (prompt_text s) (pending_shell_command s) (pending_shell_explanation s)
    (last_codex_prompt s) (last_codex_response s) (prompt_capture s)
    (confirm_mode s) (_exit_requested s) (_listening s) (vosk_loaded s)
    (effects s).

Definition set_prompt_text (v : string) (s : State) : State :=
  mkShell (settings s) (buffer_anchor_index s) (buffer_last_action_index s)
    (logger_enable_debug s) (logger_enable_session_log s) (profile s)
    (terminal_buffer s) v (pending_shell_command s)
    (pending_shell_explanation s) (last_codex_prompt s)
    (last_codex_response s) (prompt_capture s) (confirm_mode s)
    (_exit_requested s) (_listening s) (vosk_loaded s) (effects s).

Definition set_pending_shell_command (v : option string) (s : State) : State :=
  mkShell (settings s) (buffer_anchor_index s) (buffer_last_action_index s)
    (logger_enable_debug s) (logger_enable_session_log s) (profile s)
    (terminal_buffer s) (prompt_text s) v (pending_shell_explanation s)
    (last_codex_prompt s) (last_codex_response s) (prompt_capture s)
    (confirm_mode s) (_exit_requested s) (_listening s) (vosk_loaded s)
    (effects s).

Definition set_pending_shell_explanation (v : option string) (s : State) : State :=
  mkShell (settings s) (buffer_anchor_index s) (buffer_last_action_index s)
    (logger_enable_debug s) (logger_enable_session_log s) (profile s)
    (terminal_buffer s) (prompt_text s) (pending_shell_command s) v
    (last_codex_prompt s) (last_codex_response s) (prompt_capture s)
    (confirm_mode s) (_exit_requested s) (_listening s) (vosk_loaded s)
    (effects s).

Definition set_last_codex_prompt (v : option string) (s : State) : State :=
  mkShell (settings s) (buffer_anchor_index s) (buffer_last_action_index s)
    (logger_enable_debug s) (logger_enable_session_log s) (profile s)
    (terminal_buffer s) (prompt_text s) (pending_shell_command s)
    (pending_shell_explanation s) v (last_codex_response s) (prompt_capture s)
    (confirm_mode s) (_exit_requested s) (_listening s) (vosk_loaded s)
    (effects s).

Definition set_last_codex_response (v : option string) (s : State) : State :=
  mkShell (settings s) (buffer_anchor_index s) (buffer_last_action_index s)
    (logger_enable_debug s) (logger_enable_session_log s) (profile s)
    (terminal_buffer s) (prompt_text s) (pending_shell_command s)
    (pending_shell_explanation s) (last_codex_prompt s) v (prompt_capture s)
    (confirm_mode s) (_exit_requested s) (_listening s) (vosk_loaded s)
    (effects s).

Definition set_prompt_capture (v : bool) (s : State) : State :=
  mkShell (settings s) (buffer_anchor_index s) (buffer_last_action_index s)
    (logger_enable_debug s) (logger_enable_session_log s) (profile s)
    (terminal_buffer s) (prompt_text s) (pending_shell_command s)
    (pending_shell_explanation s) (last_codex_prompt s)
    (last_codex_response s) v (confirm_mode s) (_exit_requested s)
    (_listening s) (vosk_loaded s) (effects s).

Definition set_confirm_mode (v : option string) (s : State) : State :=
  mkShell (settings s) (buffer_anchor_index s) (buffer_last_action_index s)
    (logger_enable_debug s) (logger_enable_session_log s) (profile s)
    (terminal_buffer s) (prompt_text s) (pending_shell_command s)
    (pending_shell_explanation s) (last_codex_prompt s)
    (last_codex_response s) (prompt_capture s) v (_exit_requested s)
    (_listening s) (vosk_loaded s) (effects s).

Definition set_exit_requested (v : bool) (s : State) : State :=
  mkShell (settings s) (buffer_anchor_index s) (buffer_last_action_index s)
    (logger_enable_debug s) (logger_enable_session_log s) (profile s)
    (terminal_buffer s) (prompt_text s) (pending_shell_command s)
    (pending_shell_explanation s) (last_codex_prompt s)
    (last_codex_response s) (prompt_capture s) (confirm_mode s) v
    (_listening s) (vosk_loaded s) (effects s).

Definition set_listening (v : bool) (s : State) : State :=
  mkShell (settings s) (buffer_anchor_index s) (buffer_last_action_index s)
    (logger_enable_debug s) (logger_enable_session_log s) (profile s)
    (terminal_buffer s) (prompt_text s) (pending_shell_command s)
    (pending_shell_explanation s) (last_codex_prompt s)
    (last_codex_response s) (prompt_capture s) (confirm_mode s)
    (_exit_requested s) v (vosk_loaded s) (effects s).

Definition set_vosk_loaded (v : bool) (s : State) : State :=
  mkShell (settings s) (buffer_anchor_index s) (buffer_last_action_index s)
    (logger_enable_debug s) (logger_enable_session_log s) (profile s)
    (terminal_buffer s) (prompt_text s) (pending_shell_command s)
    (pending_shell_explanation s) (last_codex_prompt s)
    (last_codex_response s) (prompt_capture s) (confirm_mode s)
    (_exit_requested s) (_listening s) v (effects s).

Definition set_effects (v : list effect) (s : State) : State :=
  mkShell (settings s) (buffer_anchor_index s) (buffer_last_action_index s)
    (logger_enable_debug s) (logger_enable_session_log s) (profile s)
    (terminal_buffer s) (prompt_text s) (pending_shell_command s)
    (pending_shell_explanation s) (last_codex_prompt s)
    (last_codex_response s) (prompt_capture s) (confirm_mode s)
    (_exit_requested s) (_listening s) (vosk_loaded s) v.

Definition set_assistant_name (v : string) (s : State) : State :=
  set_settings (with_assistant_name v (settings s)) s.

Definition set_guided_mode (v : bool) (s : State) : State :=
  set_settings (with_guided_mode v (settings s)) s.

Definition set_current_model (v : string) (s : State) : State :=
  set_settings (with_current_model v (settings s)) s.

Definition set_current_reasoning (v : string) (s : State) : State :=
  set_settings (with_current_reasoning v (settings s)) s.

Definition set_debug_enabled (v : bool) (s : State) : State :=
  set_settings (with_debug_enabled v (settings s)) s.

Definition set_save_recordings (v : bool) (s : State) : State :=
  set_settings (with_save_recordings v (settings s)) s.

Definition set_save_prompts (v : bool) (s : State) : State :=
  set_settings (with_save_prompts v (settings s)) s.

Definition set_use_color (v : bool) (s : State) : State :=
  set_settings (with_use_color v (settings s)) s.

Definition set_tts_speed (v : float) (s : State) : State :=
  set_settings (with_tts_speed v (settings s)) s.

Definition set_buffer_mode (v : string) (s : State) : State :=
  set_settings (with_buffer_mode v (settings s)) s.

Definition set_voice_index (v : Z) (s : State) : State :=
  set_settings (with_voice_index v (settings s)) s.

(** *** Primitive actions *)

Definition guided (s : State) : bool := guided_mode (settings s).

Definition clock (s : State) : nat := length (effects s).

Definition emit (e : effect) (s : State) : State :=
  set_effects (effects s ++ [e]) s.

(** [_print(text, buffer=...)]: the text goes to the terminal, and to the
    terminal buffer when [buffer] is set and the text is not empty. *)
Definition _print (text : string) (buffer : bool) (s : State) : State :=
  let s := emit (Out text) s in
  if buffer && truthy text
  then set_terminal_buffer (terminal_buffer s ++ [text]) s
  else s.

Definition print_all (lines : list string) (s : State) : State :=
  fold_left (fun s l => _print l true s) lines s.

(** [_speak(text)]: a request to the speech engine; nothing happens for an
    empty text. Synthesis, playback and the optional recording are the
    engine's business and do not touch the session. *)
Definition _speak (text : string) (s : State) : State :=
  if truthy text then emit (Speak text) s else s.

Definition speak_if_guided (text : string) (s : State) : State :=
  if guided s then _speak text s else s.

Definition on_off (b : bool) : string := if b then "ON" else "OFF".

(** [_status_text] *)
Definition _status_text (s : State) : string :=
  join " | "
    [ "guided=" +:+ on_off (guided s);
      "model=" +:+ current_model (settings s);
      "reason=" +:+ current_reasoning (settings s);
      "speed=" +:+ format_2f (tts_speed (settings s)) +:+ "x";
      "buffer=" +:+ buffer_mode (settings s);
      "prompt=" +:+ on_off (prompt_capture s);
      "listen=" +:+ on_off (_listening s) ].

(** [_print_status] *)
Definition _print_status (s : State) : State :=
  _print ("[STATUS] " +:+ _status_text s) false s.

(** [self.buffer_anchor_index = len(self.terminal_buffer)] *)
Definition mark_anchor (s : State) : State :=
  set_buffer_anchor_index (Z.of_nat (length (terminal_buffer s))) s.

(** [self.buffer_last_action_index = len(self.terminal_buffer)] *)
Definition mark_last_action (s : State) : State :=
  set_buffer_last_action_index (Z.of_nat (length (terminal_buffer s))) s.

(** [self.terminal_buffer.clear()] *)
Definition clear_buffer (s : State) : State := set_terminal_buffer [] s.

(** Two sessions that differ at most in the log of effects. *)
Definition silent (s s' : State) : Prop := set_effects [] s = set_effects [] s'.

(** Two sessions that differ at most in the log of effects and in the
    terminal buffer. *)
Definition quiet (s s' : State) : Prop :=
  set_terminal_buffer [] (set_effects [] s)
  = set_terminal_buffer [] (set_effects [] s').

(** *** The shell's own alias profile *)

Definition dedup_keep_first (l : list string) : list string :=
  fold_left (fun out wl => if truthy wl && negb (mem wl out) then out ++ [wl] else out)
            l [].

(** [VoiceProfile.get_aliases(key, default)] *)
Definition get_aliases (data : gmap string (list string)) (key : string)
    (default : list string) : list string :=
  match data !! lower key with
  | None | Some [] => default
  | Some vals => dedup_keep_first (map (fun w => strip (lower w)) vals)
  end.

(** [VoiceProfile.add_aliases(key, words)] *)
Definition add_aliases (key : string) (words : list string)
    (data : gmap string (list string)) : gmap string (list string) :=
  let key := lower key in
  let base := map lower (default [] (data !! key)) in
  let base :=
    fold_left (fun base w =>
                 let wl := strip (lower w) in
                 if truthy wl && negb (mem wl base) then base ++ [wl] else base)
              words base in
  <[key := base]> data.

(** *** Tokens and fuzzy matching *)

(** [_norm] *)
Definition _norm (s : string) : string :=
  str (List.filter (fun ch => isalnum ch || isspace ch) (chars (strip (lower s)))).

(** [_tokenize] *)
Definition _tokenize (s : string) : list string :=
  List.filter truthy (split (_norm s)).

Definition Qgt_bool (x y : Q) : bool := negb (Qle_bool x y).

(** [_fuzzy_in(word, candidates, threshold)] *)
Definition _fuzzy_in (word : string) (candidates : list string) (threshold : Q)
    : bool :=
  let word := strip (lower word) in
  if negb (truthy word) || match candidates with [] => true | _ => false end
  then false
  else
    let best :=
      fold_left (fun best c =>
                   let r := Difflib.ratio word (strip (lower c)) in
                   if Qgt_bool r best then r else best)
                candidates 0%Q in
    Qle_bool threshold best.

(** The default [threshold=0.78]. *)
Definition fuzzy (word : string) (candidates : list string) : bool :=
  _fuzzy_in word candidates (78 # 100).

(** [_get_wake_variants]: a sorted set. *)
Definition _get_wake_variants (s : State) : list string :=
  let base := strip (lower (assistant_name (settings s))) in
  sorted ({[ base ]} ∪ list_to_set (map lower (get_aliases (profile s) "wake" []))).

Definition _get_yes_variants (s : State) : list string :=
  get_aliases (profile s) "yes"
    ["yes"; "yeah"; "yep"; "confirm"; "sure"; "ok"; "okay"].

Definition _get_no_variants (s : State) : list string :=
  get_aliases (profile s) "no" ["no"; "nope"; "cancel"; "stop"; "never"].

Definition _get_guided_variants (s : State) : list string :=
  get_aliases (profile s) "guided" ["guided"; "talkative"; "explain"; "helpful"].

Definition _get_unguided_variants (s : State) : list string :=
  get_aliases (profile s) "unguided" ["unguided"; "quiet"; "minimal"].

(** *** Speech recognition start-up *)

(** [_init_stt] *)
Definition _init_stt (s : State) : State :=
  if negb sd_available || negb vosk_available then
    _print "[VOICE] Vosk / sounddevice not available; voice disabled." true s
  else if negb vosk_model_exists then
    _print ("[VOICE] Vosk model folder not found: " +:+ vosk_model_path) true s
  else
    let loaded :=
      if vosk_loaded s then inl s
      else
        let s := _print ("[VOICE] Loading Vosk model from: " +:+ vosk_model_path) true s in
        match vosk_load_error with
        | None => inl (set_vosk_loaded true s)
        | Some e =>
            inr (set_vosk_loaded false
                   (_print ("[VOICE] Failed to load Vosk model: " +:+ e) true s))
        end in
    match loaded with
    | inr s => s
    | inl s =>
        if _listening s then _print "[VOICE] Already listening." true s
        else
          let s := set_listening true s in
          let s := emit StartThreads s in
          let s := _print "[VOICE] Listening started." true s in
          _print_status s
    end.

(** *** Code-generation tool *)

(** [_build_codex_command] *)
Definition _build_codex_command (prompt : string) (s : State) : list string :=
  [ "codex"; "exec"; "--skip-git-repo-check"; "--model";
    current_model (settings s); "--config";
    "model_reasoning_effort=" +:+ String "034" (current_reasoning (settings s))
      +:+ String "034" "";
    prompt ].

Definition codex_not_found_msg : string :=
  "Error: 'codex' CLI not found. "
  +:+ "Install with 'npm install -g @openai/codex' and run 'codex login'.".

(** [logger.session(msg)] *)
Definition log_session (msg : string) (s : State) : State :=
  if logger_enable_session_log s then emit (SessionLog msg) s else s.

(** [_run_codex_prompt] *)
Definition _run_codex_prompt (prompt : string) (s : State) : State :=
  let s := set_last_codex_prompt (Some prompt) s in
  let cmd := _build_codex_command prompt s in
  let s := log_session ("PROMPT: " +:+ prompt) s in
  let s := _print "" true s in
  let s := _print (String.concat "" (repeat "=" 80)) true s in
  let s := _print "New Codex run:" true s in
  let s := _print ("Model: " +:+ current_model (settings s) +:+ ", Reasoning: "
                   +:+ current_reasoning (settings s)) true s in
  let s := _print ("Prompt:" +:+ nl +:+ prompt) true s in
  let s := _print "Command:" true s in
  let s := _print (join " " (map shlex_quote cmd)) true s in
  let s := _print "┌────────────────────────────────────────┐" true s in
  let s := _print "│  Running Codex, please wait...        │" true s in
  let s := _print "└────────────────────────────────────────┘" true s in
  let result := run_codex (clock s) cmd in
  let s := emit (CodexCall cmd) s in
  match result with
  | CodexNotFound =>
      let s := _print codex_not_found_msg true s in
      set_last_codex_response (Some codex_not_found_msg) s
  | CodexFailed e =>
      let msg := "Error running codex: " +:+ e in
      let s := _print msg true s in
      set_last_codex_response (Some msg) s
  | CodexDone returncode stdout stderr =>
      let out :=
        if (returncode =? 0)%Z then or_str stdout "(no output)"
        else "Error (exit code " +:+ pretty returncode +:+ "):" +:+ nl
             +:+ or_str stderr "(no stderr)" in
      let s := _print "Output:" true s in
      let s := _print out true s in
      let s := set_last_codex_response (Some out) s in
      let s := log_session ("RESPONSE: " +:+ out) s in
      let s := mark_last_action s in
      let s := speak_if_guided "Response ready." s in
      _print_status s
  end.

(** *** History window *)

(** [l[start:]] with Python's reading of negative and oversized indices. *)
Definition slice_from {A : Type} (start : Z) (l : list A) : list A :=
  let n := Z.of_nat (length l) in
  let i := if (start <? 0)%Z then Z.max 0 (start + n) else Z.min start n in
  skipn (Z.to_nat i) l.

(** The start index chosen by [buffer_mode]. *)
Definition policy_start (s : State) : Z :=
  let m := buffer_mode (settings s) in
  if String.eqb m "session" then 0%Z
  else if String.eqb m "anchor" then buffer_anchor_index s
  else if String.eqb m "last" then buffer_last_action_index s
  else 0%Z.

(** The start index after the range test of [_get_history_for_shell]. *)
Definition window_start (s : State) : Z :=
  let start := policy_start s in
  if (start <? 0)%Z || (Z.of_nat (length (terminal_buffer s)) <? start)%Z
  then 0%Z else start.

(** The buffer entries of the window: [terminal_buffer[start:][-400:]]. *)
Definition window_lines (s : State) : list string :=
  slice_from (-400) (slice_from (window_start s) (terminal_buffer s)).

(** [_get_history_for_shell] *)
Definition _get_history_for_shell (s : State) : string :=
  match terminal_buffer s with
  | [] => ""
  | _ => join nl (window_lines s)
  end.

(** [f"{num:4d}"] *)
Definition format_4d (n : nat) : string :=
  let d := pretty n in
  String.concat "" (repeat " " (4 - String.length d)) +:+ d.

(** The numbered lines shown by [_print_history_preview]. *)
Definition preview_lines (max_lines : nat) (history : string) : list string :=
  let lines := splitlines history in
  let start_idx := length lines - max_lines in
  imap (fun k l => "[H] " +:+ format_4d (start_idx + k + 1) +:+ ": " +:+ l)
       (skipn start_idx lines).

(** [_print_history_preview(max_lines)] *)
Definition _print_history_preview (max_lines : nat) (s : State) : State :=
  let history := _get_history_for_shell s in
  if negb (truthy (strip history)) then
    _print "[HISTORY] No buffered history for shell command (slice is empty)."
           false s
  else
    let s := _print "[HISTORY] Preview of buffer slice used for shell commands:"
                    false s in
    fold_left (fun s l => _print l false s) (preview_lines max_lines history) s.

(** The default [max_lines=40] of [_print_history_preview]. *)
Definition default_max_lines : nat := 40.

(** *** Command / explanation extraction *)

(** [l.upper().startswith("CMD:")] and [l.upper().startswith("EXPL:")] *)
Definition is_cmd_line (l : string) : bool := startswith "CMD:" (upper l).
Definition is_expl_line (l : string) : bool := startswith "EXPL:" (upper l).

(** [l[4:].strip()] and [l[5:].strip()] *)
Definition cmd_payload (l : string) : string := strip (drop_str 4 l).
Definition expl_payload (l : string) : string := strip (drop_str 5 l).

(** The loop over the lines: a later [CMD:] or [EXPL:] line replaces an
    earlier one. *)
Definition scan_markers (lines : list string) : option string * option string :=
  fold_left (fun acc l =>
               if is_cmd_line l then (Some (cmd_payload l), snd acc)
               else if is_expl_line l then (fst acc, Some (expl_payload l))
               else acc)
            lines (None, None).

(** [g] of the last line satisfying [p], or [dflt] when there is none:
    what a variable assigned in a loop holds after the loop. *)
Definition or_last (p : string -> bool) (g : string -> string)
    (lines : list string) (dflt : option string) : option string :=
  match last (List.filter p lines) with
  | Some l => Some (g l)
  | None => dflt
  end.

(** [[l.strip() for l in raw.splitlines() if l.strip()]] *)
Definition nonblank_lines (raw : string) : list string :=
  map strip (List.filter (fun l => truthy (strip l)) (splitlines raw)).

(** [_extract_cmd_expl_from_response], as a function of the response text
    [self.last_codex_response or ""]. *)
Definition extract_cmd_expl (raw : string) : option string * option string :=
  let lines := nonblank_lines raw in
  let '(cmd_line, expl_line) := scan_markers lines in
  let cmd_line :=
    match cmd_line, lines with
    | None, l0 :: _ => Some l0
    | _, _ => cmd_line
    end in
  let expl_line :=
    match expl_line, lines with
    | None, _ :: l1 :: _ => Some l1
    | _, _ => expl_line
    end in
  (cmd_line, expl_line).

Definition _extract_cmd_expl_from_response (s : State)
    : option string * option string :=
  extract_cmd_expl (default "" (last_codex_response s)).

(** [f"{a}\n" f"{b}\n" ...] *)
Definition unlines (l : list string) : string :=
  String.concat "" (map (fun x => x +:+ nl) l).

Definition shell_request_prompt (user_req history : string) (s : State) : string :=
  unlines
    [ "You are an expert Linux shell assistant.";
      "You will receive:";
      " - The user's high-level request (may be empty).";
      " - Recent terminal history (commands and outputs).";
      "";
      "Your job:";
      " - Decide the single best next shell command to run.";
      " - Explain briefly what it does.";
      "";
      "IMPORTANT OUTPUT FORMAT:";
      "Return EXACTLY TWO non-empty lines, and nothing else:";
      "  LINE 1: CMD: <the exact shell command to run>";
      "  LINE 2: EXPL: <a short natural language explanation, <= 25 words>";
      "No backticks, no extra commentary, no bullet points.";
      "";
      "USER HIGH-LEVEL REQUEST:";
      user_req;
      "";
      "BUFFER MODE: " +:+ buffer_mode (settings s);
      "=== TERMINAL HISTORY START ===";
      history;
      "=== TERMINAL HISTORY END ===" ].

Definition shell_extract_notice : string :=
  "[SHELL] Could not extract a single command from Codex response.".

Definition app_extract_notice : string :=
  "[SHELL] Could not extract an internal command from Codex response.".

(** [_voice_shell_request] *)
Definition _voice_shell_request (s : State) : State :=
  let history := _get_history_for_shell s in
  if negb (truthy history) && negb (truthy (strip (prompt_text s))) then
    let s := _print "[SHELL] No history or prompt to analyze." true s in
    speak_if_guided "There is no buffer or prompt yet." s
  else
    let user_req := or_str (strip (prompt_text s)) "(none)" in
    let prompt := shell_request_prompt user_req history s in
    let s := set_pending_shell_explanation None s in
    let s := _run_codex_prompt prompt s in
    let '(cmd_line, expl_line) := _extract_cmd_expl_from_response s in
    let s :=
      if truthy_opt cmd_line then
        let s := set_pending_shell_command cmd_line s in
        let expl := default "" expl_line in
        let s := set_pending_shell_explanation (Some expl) s in
        let s := _print ("[SHELL] Proposed shell command: " +:+ default "" cmd_line)
                        true s in
        let s := if truthy expl
                 then _print ("[SHELL] Explanation: " +:+ expl) true s else s in
        if guided s then
          if truthy expl then
            _speak (expl +:+ ". "
                    +:+ "You can say execute to run it, or respond to hear this again.") s
          else
            _speak ("I have proposed a shell command. "
                    +:+ "Say execute to run it, or respond to hear the response.") s
        else s
      else
        let s := set_pending_shell_command None s in
        let s := set_pending_shell_explanation None s in
        let s := _print shell_extract_notice true s in
        speak_if_guided "I could not extract a single command from the response." s in
    _print_status s.

Definition app_request_prompt (user_req history : string) : string :=
  unlines
    [ "You are the control logic for a voice-enabled shell application called Alice Shell.";
      "The app supports two kinds of internal commands:";
      "  1) Typed commands starting with 'v-' such as:";
      "     v-help, v-settings, v-prompt, v-command, v-voicecmd, v-history, v-buffer clear,";
      "     v-guided-on, v-guided-off, v-speed 1.2, v-respond, v-repeat, v-recordings, v-logprompts,";
      "     v-debug, v-save, v-exec, v-exit, v-listen.";
      "  2) Voice commands starting with the assistant name, for example:";
      "     Alice prompt, Alice done, Alice run, Alice shell command,";
      "     Alice voice command, Alice execute, Alice respond, Alice repeat,";
      "     Alice history, Alice buffer last, Alice mode guided, Alice speed increase,";
      "     Alice test voice, Alice test shell, Alice test both.";
      "";
      "Your job:";
      "  - Look at the user's high-level request and the recent shell history.";
      "  - Choose the single most helpful internal control command to invoke next.";
      "  - Prefer 'v-' commands when it is something the user might type, or";
      "    an 'Alice ...' voice command when the user is working by voice.";
      "  - Do NOT return plain shell commands like 'ls', 'git status', etc.";
      "";
      "IMPORTANT OUTPUT FORMAT:";
      "Return EXACTLY TWO non-empty lines, and nothing else:";
      "  LINE 1: CMD: <the internal command: either v-... or 'Alice ...'>";
      "  LINE 2: EXPL: <a short natural language explanation, <= 25 words>";
      "No backticks, no extra commentary.";
      "";
      "USER HIGH-LEVEL REQUEST:";
      user_req;
      "";
      "=== RECENT SHELL HISTORY (may be empty) ===";
      history;
      "=== END HISTORY ===" ].

(** [_voice_app_command_request] *)
Definition _voice_app_command_request (s : State) : State :=
  let history := _get_history_for_shell s in
  let user_req := or_str (strip (prompt_text s)) "(none)" in
  let prompt := app_request_prompt user_req history in
  let s := set_pending_shell_explanation None s in
  let s := _run_codex_prompt prompt s in
  let '(cmd_line, expl_line) := _extract_cmd_expl_from_response s in
  let s :=
    if truthy_opt cmd_line then
      let s := set_pending_shell_command cmd_line s in
      let expl := default "" expl_line in
      let s := set_pending_shell_explanation (Some expl) s in
      let s := _print ("[SHELL] Proposed voice command: " +:+ default "" cmd_line)
                      true s in
      let s := if truthy expl
               then _print ("[SHELL] Explanation: " +:+ expl) true s else s in
      if guided s then
        if truthy expl then
          _speak (expl +:+ ". "
                  +:+ "You can say execute to run this command, or respond to hear this again.") s
        else
          _speak ("I have proposed an internal command. "
                  +:+ "Say execute to run it, or respond to hear the response.") s
      else s
    else
      let s := set_pending_shell_command None s in
      let s := set_pending_shell_explanation None s in
      let s := _print app_extract_notice true s in
      speak_if_guided "I could not extract an internal command from the response." s in
  _print_status s.

(** *** Settings display, model selection, help *)

(** [_print_settings] *)
Definition _print_settings (s : State) : State :=
  let c := settings s in
  let s := _print "=== Settings ===" true s in
  let s := _print ("Assistant name: " +:+ assistant_name c) true s in
  let s := _print ("Guided mode: " +:+ on_off (guided_mode c)) true s in
  let s := _print ("Model: " +:+ current_model c) true s in
  let s := _print ("Reasoning: " +:+ current_reasoning c) true s in
  let s := _print ("Debug logging: " +:+ on_off (debug_enabled c)) true s in
  let s := _print ("Save recordings: " +:+ on_off (save_recordings c)) true s in
  let s := _print ("Log prompts/responses: " +:+ on_off (save_prompts c)) true s in
  let s := _print ("Fancy output: " +:+ on_off (use_color c)) true s in
  let s := _print ("TTS speed: " +:+ format_2f (tts_speed c) +:+ "x") true s in
  let s := _print ("Buffer mode: " +:+ buffer_mode c +:+ " (anchor="
                   +:+ pretty (buffer_anchor_index s) +:+ ", last_action="
                   +:+ pretty (buffer_last_action_index s) +:+ ")") true s in
  let s :=
    match tts_speakers with
    | [] => _print "Voice: default / single-speaker" true s
    | _ =>
        let current :=
          if (0 <=? voice_index c)%Z
             && (voice_index c <? Z.of_nat (length tts_speakers))%Z
          then nth (Z.to_nat (voice_index c)) tts_speakers "default"
          else "default" in
        _print ("Voice index: " +:+ pretty (voice_index c + 1)%Z +:+ " / "
                +:+ pretty (length tts_speakers) +:+ " (" +:+ current +:+ ")")
               true s
    end in
  _print_status s.

Definition models : list string := ["gpt-5"; "gpt-5-codex"; "gpt-4.1"; "gpt-4o"].

(** [l.index(x)] for an element known to be in [l], else 0. *)
Fixpoint index_of (x : string) (l : list string) : nat :=
  match l with
  | [] => 0
  | y :: l' => if String.eqb x y then 0 else S (index_of x l')
  end.

Definition model_set (name : string) (s : State) : State :=
  let s := set_current_model name s in
  let s := _print ("[VOICE] Model set to: " +:+ name) true s in
  speak_if_guided ("Model set to " +:+ name +:+ ".") s.

(** [_handle_model_voice] *)
Definition _handle_model_voice (tail : string) (s : State) : State :=
  let idx := if mem (current_model (settings s)) models
             then index_of (current_model (settings s)) models else 0 in
  let head := hd "" (split tail) in
  if mem head ["next"; "forward"] then
    model_set (nth ((idx + 1) mod length models) models "") s
  else if mem head ["previous"; "prev"; "back"] then
    model_set (nth ((idx + length models - 1) mod length models) models "") s
  else
    let name := strip tail in
    if mem name models then model_set name s
    else _print ("[VOICE] Unknown model: " +:+ name) true s.

(** [_speak_help] *)
Definition _speak_help (s : State) : State :=
  let n := assistant_name (settings s) in
  let msg :=
    String.concat ""
      [ n; " voice help. ";
        "Say '"; n; " prompt' to dictate or edit a prompt, then speak your text. ";
        "Say '"; n; " done' to stop editing, or press Enter on an empty line. ";
        "Say '"; n; " run' to submit the prompt. ";
        "Say '"; n; " shell command' to analyze recent shell history and your prompt ";
        "and propose a single shell command plus explanation. ";
        "Say '"; n; " voice command' to get an internal control command like a v- command or voice command. ";
        "Say '"; n; " execute' to run the proposed command, after you say yes at the confirmation prompt. ";
        "Say '"; n; " respond' to hear the explanation or last response. ";
        "Say '"; n; " repeat' to hear and print your current prompt. ";
        "Say '"; n; " history' to preview the buffer slice I will send. ";
        "Say '"; n; " buffer clear', 'buffer session', or 'buffer last' to control ";
        "which part of history I use. ";
        "Say '"; n; " mode guided' or 'mode unguided' to control how talkative I am. ";
        "Say '"; n; " speed increase' or 'speed 1 point 2' to adjust my speaking rate. ";
        "Say '"; n; " save recordings' or '"; n; " log' to configure ";
        "saving and logging with confirmation. ";
        "Say '"; n; " save' to save all settings to disk, and '"; n; " exit' ";
        "to exit this voice shell. ";
        "You can also say '"; n; " test voice', '"; n; " test shell', ";
        "or '"; n; " test both' to run a self-test." ] in
  _speak msg s.

(** *** Voice-command dispatcher *)

Definition has_second (tokens : list string) : bool :=
  match tokens with _ :: _ :: _ => true | _ => false end.

Definition second (tokens : list string) : string := nth 1 tokens "".

(** Branch [head == "mode"]. *)
Definition wake_mode (mode_word : string) (s : State) : State :=
  let guided_words := _get_guided_variants s in
  let unguided_words := _get_unguided_variants s in
  if fuzzy mode_word guided_words then
    let s := set_guided_mode true s in
    let s := _print "[VOICE] Mode set to Guided." true s in
    speak_if_guided "Guided mode enabled." s
  else if fuzzy mode_word unguided_words then
    let s := set_guided_mode false s in
    let s := _print "[VOICE] Mode set to Unguided." true s in
    _speak "Unguided mode enabled." s
  else
    let s := _print "[VOICE] Could not understand mode setting. Say 'mode guided' or 'mode unguided'."
                    true s in
    speak_if_guided "I did not catch guided or unguided." s.

(** Branch [head == "reasoning"]. *)
Definition wake_reasoning (level : string) (s : State) : State :=
  match List.find (fun lv => fuzzy level [lv]) ["none"; "low"; "medium"; "high"] with
  | Some matched =>
      let s := set_current_reasoning matched s in
      let s := _print ("[VOICE] Reasoning set to: " +:+ matched) true s in
      speak_if_guided ("Reasoning set to " +:+ matched +:+ ".") s
  | None =>
      let s := _print "[VOICE] Could not match reasoning level." true s in
      speak_if_guided "I could not match that reasoning level." s
  end.

(** Branch [head == "buffer"]. *)
Definition wake_buffer (tokens : list string) (s : State) : State :=
  if negb (has_second tokens) then
    _print ("[VOICE] Buffer mode: " +:+ buffer_mode (settings s) +:+ " (anchor="
            +:+ pretty (buffer_anchor_index s) +:+ ", last_action="
            +:+ pretty (buffer_last_action_index s) +:+ ")") true s
  else
    let sub := second tokens in
    if String.eqb sub "clear" then
      let s := set_buffer_mode "anchor" s in
      let s := mark_anchor s in
      let s := _print "[VOICE] Buffer anchor set; future shell commands will use history after this point."
                      true s in
      speak_if_guided "Buffer cleared for shell commands. I will use only new history." s
    else if String.eqb sub "session" then
      let s := set_buffer_mode "session" s in
      let s := _print "[VOICE] Buffer mode set to session (full history for this run)."
                      true s in
      speak_if_guided "Using the full session history for shell commands." s
    else if String.eqb sub "last" then
      let s := set_buffer_mode "last" s in
      let s := _print "[VOICE] Buffer mode set to last (since last Codex output or executed command)."
                      true s in
      speak_if_guided "Using only history since the last response or executed command." s
    else
      let s := _print "[VOICE] Unknown buffer setting. Say 'buffer clear', 'buffer session', or 'buffer last'."
                      true s in
      speak_if_guided "Say buffer clear, buffer session, or buffer last." s.

(** Branch [head in {"execute", "exec"}]: opens the confirmation. *)
Definition wake_execute (s : State) : State :=
  if negb (truthy_opt (pending_shell_command s)) then
    let s := _print "[VOICE] No pending command to execute." true s in
    speak_if_guided "There is no pending command." s
  else
    let s := set_confirm_mode (Some "exec") s in
    let s := _print ("[CONFIRM] Execute: " +:+ default "" (pending_shell_command s))
                    true s in
    if guided s then
      if truthy_opt (pending_shell_explanation s) then
        _speak (default "" (pending_shell_explanation s) +:+ ". "
                +:+ "Do you want me to run this command? Say yes or no.") s
      else _speak "Do you want me to run this command? Say yes or no." s
    else s.

(** Branch [head == "speed"]. *)
Definition wake_speed (tokens : list string) (s : State) : State :=
  if negb (has_second tokens) then
    let s := _print ("[VOICE] Current TTS speed: "
                     +:+ format_2f (tts_speed (settings s)) +:+ "x") true s in
    speak_if_guided ("My speaking speed is " +:+ format_2f (tts_speed (settings s))
                     +:+ " times normal.") s
  else
    let arg := second tokens in
    let changed :=
      if mem arg ["increase"; "up"; "faster"] then
        Some (set_tts_speed (speed_faster (tts_speed (settings s))) s)
      else if mem arg ["decrease"; "down"; "slower"] then
        Some (set_tts_speed (speed_slower (tts_speed (settings s))) s)
      else
        match float_of_string arg with
        | Some val => Some (set_tts_speed (clamp_speed val) s)
        | None => None
        end in
    match changed with
    | None =>
        let s := _print "[VOICE] Could not parse speed; use a number like 1.0, 1.2 or say 'speed increase'."
                        true s in
        speak_if_guided "I did not understand that speed value." s
    | Some s =>
        let s := _print ("[VOICE] TTS speed set to "
                         +:+ format_2f (tts_speed (settings s)) +:+ "x") true s in
        speak_if_guided ("Speaking speed set to " +:+ format_2f (tts_speed (settings s))
                         +:+ " times normal.") s
    end.

(** Branch [head in {"color", "style", "ui"}]. *)
Definition wake_color (word : string) (s : State) : State :=
  if mem word ["on"; "enable"; "enabled"; "fancy"] then
    if colorama_available then
      let s := set_use_color true s in
      let s := _print "[VOICE] Fancy colored output enabled." true s in
      speak_if_guided "Fancy colored output enabled." s
    else _print "[VOICE] Colorama not available; cannot enable fancy mode." true s
  else if mem word ["off"; "disable"; "disabled"; "plain"] then
    let s := set_use_color false s in
    let s := _print "[VOICE] Fancy colored output disabled." true s in
    speak_if_guided "Fancy colored output disabled." s
  else s.

(** Branch [head == "debug"]. *)
Definition wake_debug (word : string) (s : State) : State :=
  if mem word ["on"; "enable"] then
    let s := set_debug_enabled true s in
    let s := set_logger_enable_debug true s in
    let s := _print "[VOICE] Debug logging enabled." true s in
    speak_if_guided "Debug logging is on." s
  else if mem word ["off"; "disable"] then
    let s := set_debug_enabled false s in
    let s := set_logger_enable_debug false s in
    let s := _print "[VOICE] Debug logging disabled." true s in
    speak_if_guided "Debug logging is off." s
  else s.

(** The body of the [try] block of [_handle_wake_command]. [self_test]
    stands for [_run_self_test], which calls the dispatcher back. *)
Definition wake_body (self_test : string -> State -> State)
    (tokens : list string) (s : State) : State :=
  match tokens with
  | [] => s
  | head :: rest =>
      let cmd := join " " tokens in
      let two := has_second tokens in
      let snd_tok := second tokens in
      if String.eqb head "mode" && two then wake_mode snd_tok s
      else if String.eqb head "settings" then
        speak_if_guided "Here are your current settings." (_print_settings s)
      else if String.eqb head "prompt" then
        let s := set_prompt_capture true s in
        let s := _print "[VOICE] Prompt editing enabled. Speak to add text; say 'done' when finished."
                        true s in
        speak_if_guided
          "Prompt editing enabled. Begin speaking your prompt, and say done when finished." s
      else if mem head ["done"; "enter"] then
        if prompt_capture s then
          let s := set_prompt_capture false s in
          let s := _print "[VOICE] Prompt editing finished." true s in
          speak_if_guided "Prompt editing finished." s
        else _print "[VOICE] No prompt is currently being edited." true s
      else if String.eqb head "reasoning" && two then wake_reasoning snd_tok s
      else if String.eqb head "model" then
        if two then _handle_model_voice (join " " rest) s else s
      else if String.eqb head "buffer" then wake_buffer tokens s
      else if String.eqb head "history" then
        speak_if_guided "Showing a preview of the buffer I will send for shell commands."
          (_print_history_preview default_max_lines s)
      else if String.eqb head "shell" && two && String.eqb snd_tok "command" then
        let s := _print "[VOICE] Shell command: sending buffer and prompt to Codex for next shell command."
                        true s in
        let s := speak_if_guided
                   "Analyzing your shell history and prompt to suggest the next shell command." s in
        _voice_shell_request s
      else if String.eqb head "voice" && two && String.eqb snd_tok "command" then
        let s := _print "[VOICE] Voice command: asking Codex for an internal v- or voice command."
                        true s in
        let s := speak_if_guided
                   "Analyzing your context to suggest an internal voice command." s in
        _voice_app_command_request s
      else if String.eqb head "voice" && two && String.eqb snd_tok "shell" then
        let s := _print "[VOICE] (Alias) Shell command: sending buffer and prompt to Codex."
                        true s in
        let s := speak_if_guided
                   "Analyzing your shell history and prompt to suggest the next shell command." s in
        _voice_shell_request s
      else if mem head ["execute"; "exec"] then wake_execute s
      else if String.eqb head "repeat" then
        if negb (truthy (prompt_text s)) then
          let s := _print "[VOICE] No prompt to repeat." true s in
          speak_if_guided "There is no current prompt." s
        else
          let s := _print ("[PROMPT] " +:+ prompt_text s) true s in
          _speak (prompt_text s) s
      else if fuzzy head ["respond"; "response"; "reply"] then
        let expl :=
          if truthy_opt (pending_shell_explanation s)
          then pending_shell_explanation s else last_codex_response s in
        if negb (truthy_opt expl) then
          let s := _print "[VOICE] No response available to read." true s in
          speak_if_guided "There is no response yet." s
        else
          let s := _print ("[RESP] " +:+ default "" expl) true s in
          _speak (default "" expl) s
      else if String.eqb head "help" then _speak_help s
      else if String.eqb head "exit" then
        let s := set_confirm_mode (Some "exit") s in
        let s := _print "[CONFIRM] Exit voice shell? Say yes or no." true s in
        _speak "Do you want to exit the voice shell? Say yes or no." s
      else if String.eqb head "stop" && two && String.eqb snd_tok "listening" then
        let s := set_listening false s in
        let s := _print "[VOICE] Stop listening requested." true s in
        speak_if_guided "Stopping listening." s
      else if String.eqb head "listen"
              || (String.eqb head "start" && two && String.eqb snd_tok "listening") then
        speak_if_guided "Listening enabled." (_init_stt s)
      else if String.eqb head "speed" then wake_speed tokens s
      else if mem head ["color"; "style"; "ui"] && two then wake_color snd_tok s
      else if String.eqb head "debug" && two then wake_debug snd_tok s
      else if String.eqb head "save" && two && String.eqb snd_tok "recordings" then
        let state := if save_recordings (settings s)
                     then "currently saving" else "currently not saving" in
        let s := set_confirm_mode (Some "save_recordings") s in
        let msg := "Save recordings is " +:+ state
                   +:+ ". Would you like to enable saving recordings? Say yes or no." in
        let s := _print ("[CONFIRM] " +:+ msg) true s in
        speak_if_guided msg s
      else if String.eqb head "log" then
        let state := if save_prompts (settings s)
                     then "currently logging prompts and responses"
                     else "currently not logging prompts and responses" in
        let s := set_confirm_mode (Some "save_prompts") s in
        let msg := "Logging is " +:+ state +:+ ". "
                   +:+ "Would you like to enable logging prompts and responses? Say yes or no." in
        let s := _print ("[CONFIRM] " +:+ msg) true s in
        speak_if_guided msg s
      else if String.eqb head "save" && negb two then
        let s := set_confirm_mode (Some "save_settings") s in
        let msg := "Save current settings so they load automatically next time? Say yes or no." in
        let s := _print ("[CONFIRM] " +:+ msg) true s in
        speak_if_guided msg s
      else if String.eqb head "rename" && two then
        let new_name := strip (join " " rest) in
        if negb (truthy new_name) then
          _print "[VOICE] Please provide a name to rename to." true s
        else
          let s := set_assistant_name new_name s in
          let s := set_profile (add_aliases "wake" [new_name] (profile s)) s in
          let s := emit WriteProfile s in
          let s := _print ("[VOICE] Assistant renamed to: " +:+ new_name) true s in
          speak_if_guided ("You can now call me " +:+ new_name +:+ ".") s
      else if String.eqb head "run" then
        if negb (truthy (prompt_text s)) then
          let s := _print "[VOICE] No prompt to run." true s in
          speak_if_guided "There is no prompt to run." s
        else
          let s := _print "[VOICE] Running prompt via Codex." true s in
          let s := speak_if_guided "Running your prompt." s in
          let s := set_pending_shell_explanation None s in
          _run_codex_prompt (prompt_text s) s
      else if String.eqb head "test" && two && mem snd_tok ["voice"; "shell"; "both"] then
        self_test snd_tok s
      else if String.eqb head "self" && two && mem snd_tok ["directed"; "direct"] then
        self_test "both" s
      else
        let s := _print ("[VOICE] Unknown '" +:+ lower (assistant_name (settings s))
                         +:+ "' command: " +:+ cmd) true s in
        speak_if_guided "I did not recognize that command." s
  end.

(** [_handle_wake_command] with the self-test left open: the [try] body,
    then the [finally] clause. *)
Definition wake_with (self_test : string -> State -> State)
    (tokens : list string) (s : State) : State :=
  _print_status (wake_body self_test tokens s).

(** [record(msg)] of [_run_self_test] *)
Definition record (msg : string) (s : State) : State :=
  _print ("[TEST] " +:+ msg) false s.

Definition yes_no (b : bool) : string := if b then "YES" else "NO".

(** [_run_self_test]. Its calls to the dispatcher only use the commands
    settings, prompt, done, mode and speed, none of which starts another
    self-test. *)
Definition _run_self_test (mode : string) (s : State) : State :=
  let wake := wake_with (fun _ s => s) in
  let mode := lower mode in
  let s := _print ("[TEST] Starting self-test mode (" +:+ mode +:+ ").") false s in
  let s := speak_if_guided
             ("Starting self test for " +:+ mode +:+ " systems. "
              +:+ "I will not run any operating system commands without your confirmation.") s in
  let s :=
    if mem mode ["voice"; "both"] then
      let s := record "Testing voice command logic (internal handlers only)." s in
      let s := wake ["settings"] s in
      let s := record "Voice 'settings' handled without exception." s in
      let s := wake ["prompt"] s in
      let s := record "Voice 'prompt' handler executed (prompt editing started)." s in
      let s := set_prompt_text (prompt_text s +:+ " self-test prompt fragment") s in
      let s := wake ["done"] s in
      let s := record "Voice 'done' handler executed (prompt editing stopped)." s in
      let s := wake ["mode"; "guided"] s in
      let s := wake ["mode"; "unguided"] s in
      let s := record "Voice 'mode guided/unguided' handlers executed." s in
      let s := wake ["speed"; "1"] s in
      let s := wake ["speed"; "increase"] s in
      record "Voice 'speed' handlers executed." s
    else s in
  let s :=
    if mem mode ["shell"; "both"] then
      let s := record "Testing shell-command suggestion logic (no OS execution)." s in
      let s := set_terminal_buffer
                 (terminal_buffer s ++ ["echo 'hello from self-test'"; "ls -la"]) s in
      let old_prompt := prompt_text s in
      let s := set_prompt_text "Summarize and suggest next maintenance command." s in
      let s := _voice_shell_request s in
      let s := record "Shell command suggestion completed." s in
      set_prompt_text old_prompt s
    else s in
  let stt_ok := sd_available && vosk_loaded s in
  let tts_ok := tts_available && sd_available in
  let log_ok := logger_enable_debug s || logger_enable_session_log s in
  let s := record ("STT available: " +:+ yes_no stt_ok) s in
  let s := record ("TTS available: " +:+ yes_no tts_ok) s in
  let s := record ("Logging enabled: " +:+ yes_no log_ok) s in
  if guided s then
    _speak (join " "
              (["Self test finished."]
               ++ (if stt_ok then [] else ["Speech recognition is not fully available."])
               ++ (if tts_ok then [] else ["Speech output is not fully available."])
               ++ (if log_ok then [] else ["Logging is currently limited."])
               ++ (if stt_ok && tts_ok then ["Core voice pipeline appears healthy."] else [])))
           s
  else s.

(** [_handle_wake_command] *)
Definition _handle_wake_command (tokens : list string) (s : State) : State :=
  wake_with _run_self_test tokens s.

(** *** Banner, shell commands, settings file *)

Definition banner_help : list string :=
  [
    "Type normal shell commands to run them.";
    "Prefix with 'v-' to send commands to the voice assistant (e.g., v-help).";
    "Examples:";
    "  v-help              # show voice shell help";
    "  v-settings          # show current settings";
    "  v-prompt            # edit the Codex prompt via keyboard";
    "  v-command           # ask Codex for next shell command based on buffer";
    "  v-voicecmd          # ask Codex for next internal voice/v- command";
    "  v-history           # show the buffer slice that will be sent";
    "  v-guided-on/off     # toggle guided mode";
    "  v-fancy-on/off      # toggle colored output";
    "  v-speed 1.2         # set TTS speed";
    "  v-buffer clear|session|last   # choose buffer slice for shell command";
    "  v-respond           # read last explanation/response";
    "  v-repeat            # read & print current prompt";
    "  v-recordings        # toggle saving speech recordings";
    "  v-logprompts        # toggle logging prompts/responses";
    "  v-debug             # toggle debug logging";
    "  v-save              # save current settings to disk";
    "  v-exec              # execute last proposed command (v- or shell)";
    "  v-exit              # exit this voice shell";
    "  v-listen            # (re)start microphone listening";
    "Voice commands (with assistant name):";
    "  Alice settings         # read current settings";
    "  Alice save recordings  # enable saving speech recordings (with confirmation)";
    "  Alice log              # enable prompt/response logging (with confirmation)";
    "  Alice debug on/off     # toggle debug logging";
    "  Alice rename <name>    # change assistant name";
    "  Alice prompt           # start prompt editing (voice dictation)";
    "  Alice done             # stop prompt editing (or press Enter on empty line)";
    "  Alice run              # submit the prompt";
    "  Alice shell command    # suggest next OS shell command";
    "  Alice voice command    # suggest next internal v- / Alice command";
    "  Alice execute          # confirm running the suggested command";
    "  Alice respond          # speak explanation / last response";
    "  Alice repeat           # speak & print current prompt";
    "  Alice history          # show buffer slice preview";
    "  Alice buffer clear / session / last";
    "  Alice mode guided / unguided";
    "  Alice speed / speed increase / speed 1.2";
    "  Alice save             # save settings (with confirmation)";
    "  Alice exit             # exit this voice shell (with confirmation)";
    "  Alice listen / stop listening";
    "  Alice test voice / test shell / test both";
    "  Alice self directed    # run both self-tests (voice + shell)" ].

(** [_print_banner] *)
Definition _print_banner (s : State) : State :=
  let c := settings s in
  let s := _print "╔═══════════════════════════════════╗" true s in
  let s := _print "║    Codex Voice Shell (alice-shell)    ║" true s in
  let s := _print "╚═══════════════════════════════════╝" true s in
  let s := _print ("Assistant name: " +:+ assistant_name c) true s in
  let s := _print ("Model: " +:+ current_model c +:+ ", Reasoning: "
                   +:+ current_reasoning c) true s in
  let s := _print ("Guided mode: " +:+ on_off (guided_mode c)) true s in
  let s := _print ("TTS speed: " +:+ format_2f (tts_speed c) +:+ "x") true s in
  let s := print_all banner_help s in
  let s := _print "" true s in
  _print_status s.

(** [_run_shell_command] *)
Definition _run_shell_command (command : string) (s : State) : State :=
  if negb (truthy (strip command)) then s
  else
    let s := _print ("$ " +:+ command) true s in
    let result := run_os (clock s) command in
    let s := emit (OsCall command) s in
    match result with
    | OsFailed e => _print ("[SHELL] Error running command: " +:+ e) true s
    | OsDone stdout stderr =>
        let s := print_all (splitlines stdout) s in
        let s := print_all (splitlines stderr) s in
        let s := mark_last_action s in
        _print_status s
    end.

(** [_save_settings] *)
Definition _save_settings (s : State) : State :=
  let failure := save_settings_error (clock s) in
  let s := emit WriteSettings s in
  match failure with
  | None => _print ("[SHELL] Settings saved to " +:+ settings_path) false s
  | Some e => _print ("[SHELL] Failed to save settings: " +:+ e) false s
  end.

(** *** Typed [v-] commands *)

(** A handler that may read lines and may raise: the session as the
    handler left it, the lines not read, and the exception if one escaped. *)
Record result : Type := mkResult {
  st : State;
  unread : list string;
  raised : option exn
}.

Definition ret (s : State) (inp : list string) : result :=
  {| st := s; unread := inp; raised := None |}.

Definition throw (e : exn) (s : State) (inp : list string) : result :=
  {| st := s; unread := inp; raised := Some e |}.

(** [ans in {"y", "yes", "confirm"}] for [ans = input().strip().lower()] *)
Definition accepts (answer : string) : bool :=
  mem (lower (strip answer)) ["y"; "yes"; "confirm"].

(** Branch [key == "buffer"]. *)
Definition typed_buffer (parts : list string) (s : State) : State :=
  if negb (has_second parts) then
    _print ("[CMD] Buffer mode: " +:+ buffer_mode (settings s) +:+ " (anchor="
            +:+ pretty (buffer_anchor_index s) +:+ ", last_action="
            +:+ pretty (buffer_last_action_index s) +:+ ")") true s
  else
    let sub := second parts in
    let s :=
      if String.eqb sub "clear" then
        let s := set_buffer_mode "anchor" s in
        let s := mark_anchor s in
        _print "[CMD] Buffer anchor set; future shell commands will use history after this point."
               true s
      else if String.eqb sub "session" then
        let s := set_buffer_mode "session" s in
        _print "[CMD] Buffer mode set to session (full history for this run)." true s
      else if String.eqb sub "last" then
        let s := set_buffer_mode "last" s in
        _print "[CMD] Buffer mode set to last (since last Codex output or executed command)."
               true s
      else _print "[CMD] Usage: v-buffer clear|session|last" true s in
    _print_status s.

(** Branch [key == "prompt"]: one line is read; end of input counts as an
    empty line. *)
Definition typed_prompt (inp : list string) (s : State) : result :=
  let s := set_prompt_capture true s in
  let s := _print "[CMD] Prompt editing enabled. Current prompt is:" true s in
  let s := _print (or_str (prompt_text s) "<empty>") true s in
  let typed := hd "" inp in
  let s :=
    if truthy (strip typed) then
      let s := set_prompt_text typed s in
      _print ("[CMD] Prompt set to: " +:+ typed) true s
    else s in
  ret (_print_status s) (tl inp).

(** Branch [key == "save"]. *)
Definition typed_save (inp : list string) (s : State) : result :=
  let s := _print "[CONFIRM] Save current settings to disk so they load next time? (y/N)? "
                  true s in
  match inp with
  | [] => throw EOFError s []
  | answer :: inp' =>
      if accepts answer then ret (_save_settings s) inp'
      else ret (_print "[CONFIRM] Settings save cancelled." true s) inp'
  end.

(** Branch [key == "exit"]. *)
Definition typed_exit (inp : list string) (s : State) : result :=
  let s := _print "[CONFIRM] Exit voice shell? (y/N)? " true s in
  match inp with
  | [] => throw EOFError s []
  | answer :: inp' =>
      if accepts answer then
        let s := set_exit_requested true s in
        let s := set_listening false s in
        ret (_print "[SHELL] Exit requested." true s) inp'
      else ret (_print "[CONFIRM] Exit cancelled." true s) inp'
  end.

(** [_handle_typed_voice_command]. The only recursive call is the one that
    runs a pending [v-] command, after one answer has been read. *)
Fixpoint _handle_typed_voice_command (inp : list string) (line : string)
    (s : State) {struct inp} : result :=
  let cmd := strip (drop_str 2 line) in
  if negb (truthy cmd) then ret s inp
  else
  match split cmd with
  | [] => throw IndexError s inp
  | key :: _ =>
  let parts := split cmd in
  let two := has_second parts in
  let arg := second parts in
  if String.eqb key "help" then ret (_print_banner s) inp
  else if String.eqb key "settings" then ret (_print_settings s) inp
  else if String.eqb key "guided-on" then
    ret (_print_status (_print "[CMD] Guided mode enabled." true (set_guided_mode true s))) inp
  else if String.eqb key "guided-off" then
    ret (_print_status (_print "[CMD] Guided mode disabled." true (set_guided_mode false s))) inp
  else if String.eqb key "debug" then
    let v := negb (debug_enabled (settings s)) in
    let s := set_logger_enable_debug v (set_debug_enabled v s) in
    ret (_print ("[CMD] Debug logging " +:+ (if v then "enabled" else "disabled") +:+ ".")
                true s) inp
  else if String.eqb key "saveprompts-on" then
    let s := set_logger_enable_session_log true (set_save_prompts true s) in
    ret (_print "[CMD] Prompt/response logging enabled." true s) inp
  else if String.eqb key "saveprompts-off" then
    let s := set_logger_enable_session_log false (set_save_prompts false s) in
    ret (_print "[CMD] Prompt/response logging disabled." true s) inp
  else if String.eqb key "recordspeech-on" then
    ret (_print "[CMD] Recording of speech responses enabled." true
           (set_save_recordings true s)) inp
  else if String.eqb key "recordspeech-off" then
    ret (_print "[CMD] Recording of speech responses disabled." true
           (set_save_recordings false s)) inp
  else if String.eqb key "recordings" then
    let v := negb (save_recordings (settings s)) in
    ret (_print ("[CMD] Save recordings: " +:+ on_off v +:+ ".") true
           (set_save_recordings v s)) inp
  else if String.eqb key "logprompts" then
    let v := negb (save_prompts (settings s)) in
    let s := set_logger_enable_session_log v (set_save_prompts v s) in
    ret (_print ("[CMD] Log prompts/responses: " +:+ on_off v +:+ ".") true s) inp
  else if String.eqb key "voice" && two then
    match int_of_string arg with
    | Some n =>
        if (n - 1 <? 0)%Z then ret (_print "[CMD] Usage: v-voice N (1-based index)" true s) inp
        else ret (_print ("[CMD] Voice index set to " +:+ pretty (n - 1 + 1)%Z +:+ ".")
                         true (set_voice_index (n - 1)%Z s)) inp
    | None => ret (_print "[CMD] Usage: v-voice N (1-based index)" true s) inp
    end
  else if String.eqb key "rename" && two then
    let new_name := strip_chars ["034"%char] (strip (join " " (tl parts))) in
    if negb (truthy new_name) then ret (_print "[CMD] Usage: v-rename <name>" true s) inp
    else
      let s := set_assistant_name new_name s in
      let s := set_profile (add_aliases "wake" [new_name] (profile s)) s in
      let s := emit WriteProfile s in
      ret (_print ("[CMD] Assistant renamed to: " +:+ new_name) true s) inp
  else if String.eqb key "model" && two then
    ret (_print_status (_print ("[CMD] Model set to: " +:+ arg) true
                          (set_current_model arg s))) inp
  else if String.eqb key "reasoning" && two then
    ret (_print_status (_print ("[CMD] Reasoning set to: " +:+ arg) true
                          (set_current_reasoning arg s))) inp
  else if mem key ["shell"; "command"] then ret (_voice_shell_request s) inp
  else if mem key ["voicecmd"; "voice-command"; "voicecommand"] then
    ret (_voice_app_command_request s) inp
  else if String.eqb key "prompt" then typed_prompt inp s
  else if String.eqb key "exec" then
    if negb (truthy_opt (pending_shell_command s)) then
      ret (_print "[CMD] No pending command." true s) inp
    else
      let pending := default "" (pending_shell_command s) in
      let s := _print ("[CONFIRM] Execute: " +:+ pending +:+ " (y/N)? ") true s in
      match inp with
      | [] => throw EOFError s []
      | answer :: inp' =>
          if accepts answer then
            let cmd_to_run := strip pending in
            let s := _print ("[EXEC] Running: " +:+ cmd_to_run) true s in
            let s := emit (Dispatch cmd_to_run) s in
            let r :=
              if startswith "v-" cmd_to_run then
                _handle_typed_voice_command inp' cmd_to_run s
              else
                match split cmd_to_run with
                | t0 :: ts =>
                    if String.eqb (lower t0) (lower (assistant_name (settings s))) then
                      ret (_handle_wake_command (_tokenize (join " " ts)) s) inp'
                    else ret (_run_shell_command cmd_to_run s) inp'
                | [] => ret (_run_shell_command cmd_to_run s) inp'
                end in
            match raised r with
            | Some _ => r
            | None =>
                ret (set_pending_shell_explanation None
                       (set_pending_shell_command None (st r))) (unread r)
            end
          else ret (_print "[CONFIRM] Cancelled." true s) inp'
      end
  else if String.eqb key "clear" then
    let s := clear_buffer s in
    let s := _print "[CMD] Buffer cleared." true s in
    let s := mark_anchor s in
    let s := mark_last_action s in
    ret (_print_status s) inp
  else if String.eqb key "repeat" then
    if negb (truthy (prompt_text s)) then ret (_print "[CMD] No prompt to repeat." true s) inp
    else ret (_speak (prompt_text s) (_print ("[PROMPT] " +:+ prompt_text s) true s)) inp
  else if String.eqb key "respond" then
    let expl :=
      if truthy_opt (pending_shell_explanation s)
      then pending_shell_explanation s else last_codex_response s in
    if negb (truthy_opt expl) then ret (_print "[CMD] No response available." true s) inp
    else ret (_speak (default "" expl) (_print ("[RESP] " +:+ default "" expl) true s)) inp
  else if String.eqb key "fancy-on" then
    if colorama_available then
      ret (_print "[CMD] Fancy colored output enabled." true (set_use_color true s)) inp
    else ret (_print "[CMD] Colorama not available; cannot enable fancy mode." true s) inp
  else if String.eqb key "fancy-off" then
    ret (_print "[CMD] Fancy colored output disabled." true (set_use_color false s)) inp
  else if String.eqb key "speed" && two then
    match float_of_string arg with
    | Some val =>
        let s := set_tts_speed (clamp_speed val) s in
        let s := _print ("[CMD] TTS speed set to "
                         +:+ format_2f (tts_speed (settings s)) +:+ "x") true s in
        ret (_print_status s) inp
    | None => ret (_print "[CMD] Usage: v-speed 1.0 (range 0.5 - 2.0)" true s) inp
    end
  else if String.eqb key "buffer" then ret (typed_buffer parts s) inp
  else if String.eqb key "history" then
    ret (_print_history_preview default_max_lines s) inp
  else if String.eqb key "listen" then ret (_init_stt s) inp
  else if String.eqb key "save" then typed_save inp s
  else if String.eqb key "exit" then typed_exit inp s
  else ret (_print ("[CMD] Unknown v- command: " +:+ cmd) true s) inp
  end.

(** *** Confirmation subsystem and voice entry points *)

(** [_apply_confirm_decision] *)
Definition _apply_confirm_decision (accepted : bool) (inp : list string)
    (s : State) : result :=
  let mode := confirm_mode s in
  let s := set_confirm_mode None s in
  if negb (truthy_opt mode) then ret s inp
  else if negb accepted then
    let s := _print "[CONFIRM] Cancelled." true s in
    let s := speak_if_guided "Cancelled." s in
    ret (_print_status s) inp
  else
    let m := default "" mode in
    if String.eqb m "exec" && truthy_opt (pending_shell_command s) then
      let cmd := strip (default "" (pending_shell_command s)) in
      let s := _print ("[EXEC] Running: " +:+ cmd) true s in
      let s := emit (Dispatch cmd) s in
      let r :=
        if startswith "v-" cmd then _handle_typed_voice_command inp cmd s
        else
          match split cmd with
          | t0 :: ts =>
              if String.eqb (lower t0) (lower (assistant_name (settings s))) then
                ret (_handle_wake_command (_tokenize (join " " ts)) s) inp
              else ret (_run_shell_command cmd s) inp
          | [] => ret (_run_shell_command cmd s) inp
          end in
      match raised r with
      | Some _ => r
      | None =>
          let s := set_pending_shell_command None (st r) in
          let s := set_pending_shell_explanation None s in
          let s := speak_if_guided "Executed the recommended command." s in
          ret (_print_status s) (unread r)
      end
    else if String.eqb m "clear" then
      let s := clear_buffer s in
      let s := _print "[SHELL] Buffer cleared." true s in
      let s := speak_if_guided "Cleared the buffer." s in
      ret (_print_status s) inp
    else if String.eqb m "exit" then
      let s := set_exit_requested true s in
      let s := set_listening false s in
      let s := _print "[SHELL] Exit confirmed." true s in
      let s := speak_if_guided "Exiting voice shell." s in
      ret (_print_status s) inp
    else if String.eqb m "save_settings" then
      let s := _save_settings s in
      let s := speak_if_guided "Settings saved." s in
      ret (_print_status s) inp
    else if String.eqb m "save_recordings" then
      let s := set_save_recordings true s in
      let s := _print "[VOICE] Saving recordings enabled." true s in
      let s := speak_if_guided "I will save future speech recordings." s in
      ret (_print_status s) inp
    else if String.eqb m "save_prompts" then
      let s := set_save_prompts true s in
      let s := set_logger_enable_session_log true s in
      let s := _print "[VOICE] Prompt and response logging enabled." true s in
      let s := speak_if_guided "I will log prompts and responses." s in
      ret (_print_status s) inp
    else ret (_print_status s) inp.

(** [_handle_confirm_voice]; [tokens] is not empty at the only call site. *)
Definition _handle_confirm_voice (tokens : list string) (inp : list string)
    (s : State) : result :=
  let yes_words := _get_yes_variants s in
  let no_words := _get_no_variants s in
  let head := hd "" tokens in
  if fuzzy head yes_words then _apply_confirm_decision true inp s
  else if fuzzy head no_words then _apply_confirm_decision false inp s
  else ret (speak_if_guided "Please say yes or no." s) inp.

(** [_handle_voice_text] *)
Definition _handle_voice_text (text : string) (inp : list string) (s : State)
    : result :=
  match _tokenize text with
  | [] => ret s inp
  | first :: rest =>
      let tokens := first :: rest in
      if truthy_opt (confirm_mode s) then _handle_confirm_voice tokens inp s
      else
        let wake_variants := _get_wake_variants s in
        if prompt_capture s && negb (fuzzy first wake_variants) then
          if match rest with [] => true | _ => false end && mem first ["done"; "enter"]
          then
            let s := set_prompt_capture false s in
            let s := _print "[VOICE] Prompt editing finished." true s in
            let s := speak_if_guided "Prompt editing finished." s in
            ret (_print_status s) inp
          else
            let fragment := join " " tokens in
            let s := if truthy (prompt_text s)
                     then set_prompt_text (prompt_text s +:+ " ") s else s in
            let s := set_prompt_text (prompt_text s +:+ fragment) s in
            let s := _print ("[PROMPT+] " +:+ fragment) true s in
            ret (_print_status s) inp
        else if fuzzy first wake_variants then
          match rest with
          | [] =>
              let s := speak_if_guided
                         ("Yes? I'm " +:+ assistant_name (settings s) +:+ ".") s in
              ret (_print_status s) inp
          | _ => ret (_handle_wake_command rest s) inp
          end
        else ret s inp
  end.

(** [_handle_vosk_result], from the recognised text on. *)
Definition _handle_vosk_result (text : string) (inp : list string) (s : State)
    : result :=
  let text := strip text in
  if negb (truthy text) then ret s inp
  else if mem (lower text) ["huh"; "uh"; "um"] then ret s inp
  else _handle_voice_text text inp s.

(** *** Main loop *)

Inductive control : Type :=
| Continue
| Break
| Crash (e : exn).

(** One pass of the [while True] loop of [run]. [inp] is what standard
    input still holds; the empty list is end of input. *)
Definition run_iteration (inp : list string) (s : State) : control * result :=
  if _exit_requested s then
    (Break, ret (_print "[SHELL] Exiting voice shell." true s) inp)
  else
    match inp with
    | [] =>
        let s := _print "" true s in
        (Break, ret (_print "[SHELL] EOF received, exiting." true s) [])
    | line :: inp =>
        let stripped := strip line in
        if truthy_opt (confirm_mode s)
           && mem (lower stripped) ["yes"; "y"; "confirm"; "no"; "n"; "cancel"]
        then
          let accepted := mem (lower stripped) ["yes"; "y"; "confirm"] in
          let r := _apply_confirm_decision accepted inp s in
          (match raised r with Some e => Crash e | None => Continue end, r)
        else if _exit_requested s then
          (Break, ret (_print "[SHELL] Exiting voice shell." true s) inp)
        else if negb (truthy stripped) then
          if prompt_capture s then
            let s := set_prompt_capture false s in
            let s := _print "[SHELL] Prompt editing finished (Enter)." true s in
            let s := speak_if_guided "Prompt editing finished." s in
            (Continue, ret (_print_status s) inp)
          else (Continue, ret s inp)
        else if startswith "v-" stripped then
          let r := _handle_typed_voice_command inp stripped s in
          (match raised r with Some e => Crash e | None => Continue end, r)
        else if mem stripped ["exit"; "quit"] then
          let s := _print "[CONFIRM] Exit voice shell? (y/N)? " true s in
          match inp with
          | [] => (Crash EOFError, throw EOFError s [])
          | answer :: inp' =>
              if accepts answer then
                (Break, ret (_print "[SHELL] Goodbye." true s) inp')
              else (Continue, ret (_print "[CONFIRM] Exit cancelled." true s) inp')
          end
        else if String.eqb stripped "clear" then
          let s := emit ClearScreen s in
          let s := clear_buffer s in
          let s := _print "[SHELL] Screen and buffer cleared." true s in
          let s := mark_anchor s in
          let s := mark_last_action s in
          (Continue, ret (_print_status s) inp)
        else (Continue, ret (_run_shell_command stripped s) inp)
    end.

(** The [while True] loop of [run], with a bound on the number of passes:
    a pass that ends in [continue] starts the next one on the lines left. *)
Fixpoint run_loop (fuel : nat) (inp : list string) (s : State) : option result :=
  match fuel with
  | 0 => None
  | S fuel =>
      match run_iteration inp s with
      | (Continue, r) => run_loop fuel (unread r) (st r)
      | (_, r) => Some r
      end
  end.

(** [run]: banner, announcement, loop, and [self._listening = False] once
    the loop has ended without an exception. *)
Definition run (fuel : nat) (inp : list string) (s : State) : option result :=
  let s := _print_banner s in
  let announce := lower (assistant_name (settings s)) +:+ "-shell listening" in
  let s := _print ("[VOICE] " +:+ announce) true s in
  let s := _speak announce s in
  match run_loop fuel inp s with
  | None => None
  | Some r =>
      Some (match raised r with
            | Some _ => r
            | None => ret (set_listening false (st r)) (unread r)
            end)
  end.

(** The session as [__init__] leaves it: whatever the settings file, the
    command line and the start-up messages made of the settings and the
    buffer, with no pending proposal or confirmation, an empty prompt and
    both indices 0. *)
Definition initial (s : State) : Prop :=
  buffer_anchor_index s = 0%Z
  /\ buffer_last_action_index s = 0%Z
  /\ pending_shell_command s = None
  /\ pending_shell_explanation s = None
  /\ last_codex_prompt s = None
  /\ last_codex_response s = None
  /\ prompt_capture s = false
  /\ confirm_mode s = None
  /\ _exit_requested s = false
  /\ prompt_text s = "".

(** One operation: a recognised utterance, or one pass of the main loop.
    A handler may read any lines. *)
Inductive step : State -> State -> Prop :=
| step_voice (text : string) (inp : list string) (s : State) :
    step s (st (_handle_vosk_result text inp s))
| step_typed (inp : list string) (s : State) :
    step s (st (snd (run_iteration inp s))).

Inductive reachable : State -> Prop :=
| reach_init (s : State) : initial s -> reachable s
| reach_step (s s' : State) : reachable s -> step s s' -> reachable s'.

End Model.
End Shell.

(** ** A concrete world and session for examples *)

Module Demo.
Import Shell.

Definition qmax (x y : Q) : Q := if Qle_bool x y then y else x.
Definition qmin (x y : Q) : Q := if Qle_bool x y then x else y.

(** Speeds are fractions; the tool answers with a two-line proposal, except
    for the model gpt-4o, where it answers with an empty line; shell
    commands print one line. *)
#[global] Instance world : World := {|
  float := Q;
  float_of_string := fun _ => None;
  clamp_speed := fun v => qmax (1 # 2) (qmin 2 v);
  speed_faster := fun v => qmin 2 (v + (1 # 4));
  speed_slower := fun v => qmax (1 # 2) (v - (1 # 4));
  format_2f := fun _ => "1.20";
  int_of_string := fun _ => None;
  colorama_available := false;
  sd_available := false;
  vosk_available := false;
  tts_available := false;
  tts_speakers := [];
  vosk_model_path := "vosk-model-small-en-us-0.15";
  vosk_model_exists := false;
  vosk_load_error := None;
  settings_path := "codex_shell_settings.json";
  save_settings_error := fun _ => None;
  shlex_quote := fun x => x;
  run_codex := fun _ args =>
    if String.eqb (nth 4 args "") "gpt-4o" then CodexDone 0 PyStr.nl ""
    else CodexDone 0 ("CMD: ls -la" +:+ PyStr.nl +:+ "EXPL: list files") "";
  run_os := fun _ _ => OsDone "ok" ""
|}.

Definition default_settings : Settings :=
  {| assistant_name := "Alice"; guided_mode := true; current_model := "gpt-5";
     current_reasoning := "medium"; debug_enabled := true;
     save_recordings := true; save_prompts := true; use_color := true;
     tts_speed := (12 # 10)%Q; buffer_mode := "session"; voice_index := 1 |}.

(** The session right after start-up, with an empty buffer. *)
Definition start : State :=
  {| settings := default_settings;
     buffer_anchor_index := 0; buffer_last_action_index := 0;
     logger_enable_debug := true; logger_enable_session_log := true;
     profile := ∅; terminal_buffer := []; prompt_text := "";
     pending_shell_command := None; pending_shell_explanation := None;
     last_codex_prompt := None; last_codex_response := None;
     prompt_capture := false; confirm_mode := None;
     _exit_requested := false; _listening := false; vosk_loaded := false;
     effects := [] |}.

(** A word of a fresh profile with target 3 after three [add_alias] calls. *)
Definition three_samples : Gui.VoiceProfile :=
  let p0 := {| Gui.target_samples := 3;
               Gui.words := {[ "guided" := Gui.fresh_meta ]} |} in
  let p1 := fst (Gui.add_alias "guided" "guy did" "t1" p0) in
  let p2 := fst (Gui.add_alias "guided" "guidance" "t2" p1) in
  fst (Gui.add_alias "guided" "guide it" "t3" p2).

(** A session whose confirmation reason is "clear", holding five buffer
    lines with the anchor set after the fifth. *)
Definition before_clear : State :=
  set_confirm_mode (Some "clear")
    (set_buffer_mode "anchor"
       (set_buffer_anchor_index 5
          (set_terminal_buffer ["a"; "b"; "c"; "d"; "e"] start))).

(** The same session once the clear has been accepted. *)
Definition after_clear : State :=
  st (_apply_confirm_decision true [] before_clear).

(** Ten buffer lines. *)
Definition ten_lines : State :=
  set_terminal_buffer ["l1"; "l2"; "l3"; "l4"; "l5"; "l6"; "l7"; "l8"; "l9"; "l10"]
    start.

(** A session with a pending proposal and a prompt, set to the model for
    which the tool returns nothing usable. *)
Definition stale_proposal : State :=
  set_current_model "gpt-4o"
    (set_prompt_text "list files"
       (set_pending_shell_command (Some "rm -rf build")
          (set_pending_shell_explanation (Some "remove the build tree") start))).

(** The graphical front end in guided mode with the clear confirmation
    open. *)
Definition confirming_gui : Gui.State :=
  {| Gui.voice_mode := "confirm_clear"; Gui.mode_var := "Guided";
     Gui.model_var := "gpt-5"; Gui.reasoning_var := "medium";
     Gui.wake_name_var := "Codex";
     Gui.voice_profile := {| Gui.target_samples := 3; Gui.words := ∅ |};
     Gui.prompt_text := "draft"; Gui.output_text := "answer";
     Gui.console_text := ""; Gui.clear_confirm_window := true;
     Gui.spoken := [] |}.

(** A machine on which the code-generation tool is not installed. *)
Definition no_tool : World := {|
  float := Q;
  float_of_string := fun _ => None;
  clamp_speed := fun v => qmax (1 # 2) (qmin 2 v);
  speed_faster := fun v => qmin 2 (v + (1 # 4));
  speed_slower := fun v => qmax (1 # 2) (v - (1 # 4));
  format_2f := fun _ => "1.20";
  int_of_string := fun _ => None;
  colorama_available := false;
  sd_available := false;
  vosk_available := false;
  tts_available := false;
  tts_speakers := [];
  vosk_model_path := "vosk-model-small-en-us-0.15";
  vosk_model_exists := false;
  vosk_load_error := None;
  settings_path := "codex_shell_settings.json";
  save_settings_error := fun _ => None;
  shlex_quote := fun x => x;
  run_codex := fun _ _ => CodexNotFound;
  run_os := fun _ _ => OsDone "ok" ""
|}.

(** A start-up session on that machine, with a prompt typed in. *)
Definition no_tool_session : @State no_tool :=
  @mkShell no_tool
    (@mkSettings no_tool "Alice" true "gpt-5" "medium" true true true true
       (12 # 10)%Q "session" 1)
    0 0 true true ∅ [] "list files" None None None None false None
    false false false [].

(** The shell with the exit confirmation pending. *)
Definition confirming_exit : State := set_confirm_mode (Some "exit") start.

(** The start-up session with recording switched off. *)
Definition recording_off : State := set_save_recordings false start.

(** Ten buffer lines with the anchor after the fourth, in anchor mode. *)
Definition anchored_ten_lines : State :=
  set_buffer_mode "anchor" (set_buffer_anchor_index 4 ten_lines).

(** Three operations from start-up: the typed command [v-prompt] answered
    with a prompt, the typed command [v-shell], which leaves a proposal
    with its explanation, and the utterance that runs the prompt. *)
Definition with_prompt : State :=
  st (snd (run_iteration ["v-prompt"; "list files"] start)).

Definition with_proposal : State :=
  st (snd (run_iteration ["v-shell"] with_prompt)).

Definition after_voice_run : State :=
  st (_handle_vosk_result "alice run" [] with_proposal).

End Demo.

(** ** Vocabulary of the statements *)

Section Vocabulary.
Context {W : Shell.World}.
Import Shell PyStr.

(** What both request handlers do once the tool has answered: [s1] is the
    session after [_run_codex_prompt]. *)
Definition settled (notice : string) (s1 s' : State) : Prop :=
  last_codex_response s' = last_codex_response s1
  /\ match _extract_cmd_expl_from_response s1 with
     | (c, e) =>
         if truthy_opt c
         then pending_shell_command s' = c
              /\ pending_shell_explanation s' = Some (default "" e)
         else pending_shell_command s' = None
              /\ pending_shell_explanation s' = None
              /\ last (terminal_buffer s') = Some notice
              /\ Out notice ∈ effects s'
     end.




(** The effects that run something or write something of consequence. *)
Definition consequential (e : effect) : bool :=
  match e with
  | WriteSettings | OsCall _ | ClearScreen | Dispatch _ => true
  | _ => false
  end.

(** Among them, the ones every input path puts behind a question. *)
Definition gated (e : effect) : bool :=
  match e with
  | WriteSettings | Dispatch _ => true
  | _ => false
  end.

(** The part of the session the properties below talk about. *)
Definition view (s : State) :=
  (terminal_buffer s, buffer_anchor_index s, buffer_last_action_index s,
   pending_shell_command s, pending_shell_explanation s, confirm_mode s,
   _exit_requested s, save_recordings (settings s), save_prompts (settings s),
   logger_enable_session_log s, List.filter consequential (effects s)).

(** The reasons a voice command can open a confirmation with. *)
Definition voice_reasons : list string :=
  ["exec"; "exit"; "save_recordings"; "save_prompts"; "save_settings"].

(** A property of sessions kept by every action the voice dispatcher is
    made of, and by closing a confirmation. *)
Record Stable (Q : State -> Prop) : Prop := {
  stable_view : forall s s', view s = view s' -> Q s -> Q s';
  stable_append : forall l s,
    Q s -> Q (set_terminal_buffer (terminal_buffer s ++ l) s);
  stable_mark_anchor : forall s, Q s -> Q (mark_anchor s);
  stable_mark_last : forall s, Q s -> Q (mark_last_action s);
  stable_confirm : forall m s,
    m ∈ voice_reasons -> Q s -> Q (set_confirm_mode (Some m) s);
  stable_drop_explanation : forall s,
    Q s -> Q (set_pending_shell_explanation None s);
  stable_pair : forall c e s,
    truthy_opt c = true ->
    Q s -> Q (set_pending_shell_explanation (Some e) (set_pending_shell_command c s));
  stable_unpair : forall s,
    Q s -> Q (set_pending_shell_explanation None (set_pending_shell_command None s));
  stable_close_confirm : forall s, Q s -> Q (set_confirm_mode None s)
}.

(** ... and by the actions typed commands add: the direct toggles, the
    buffer clear followed by the reset of both indices, and
    operating-system commands. *)
Record Typed (Q : State -> Prop) : Prop := {
  typed_stable : Stable Q;
  typed_save_recordings : forall v s, Q s -> Q (set_save_recordings v s);
  typed_save_prompts : forall v s, Q s -> Q (set_save_prompts v s);
  typed_session_log : forall v s, Q s -> Q (set_logger_enable_session_log v s);
  typed_os_call : forall c s, Q s -> Q (emit (OsCall c) s);
  typed_clear_screen : forall s, Q s -> Q (emit ClearScreen s);
  typed_clear : forall t s,
    truthy t = true ->
    Q s -> Q (mark_last_action (mark_anchor (_print t true (clear_buffer s))))
}.

(** ... and by what happens only after an explicit accept. *)
Record Gated (Q : State -> Prop) : Prop := {
  gated_write_settings : forall s, Q s -> Q (emit WriteSettings s);
  gated_dispatch : forall c s, Q s -> Q (emit (Dispatch c) s);
  gated_exit : forall s, Q s -> Q (set_exit_requested true s);
  gated_clear : forall t s,
    Q s -> confirm_mode s = Some "clear" ->
    Q (_print t true (clear_buffer (set_confirm_mode None s)))
}.

(** Pairing, in the form the code keeps: no explanation without a command. *)
Definition explained_only_with_command (s : State) : Prop :=
  pending_shell_explanation s <> None -> pending_shell_command s <> None.

(** Both indices lie inside the buffer. *)
Definition indices_in_buffer (s : State) : Prop :=
  (0 <= buffer_anchor_index s <= Z.of_nat (length (terminal_buffer s)))%Z
  /\ (0 <= buffer_last_action_index s <= Z.of_nat (length (terminal_buffer s)))%Z.

(** ... and the pending reason, if any, is not "clear", which no command
    of the shell sets. *)
Definition indices_ok (s : State) : Prop :=
  indices_in_buffer s /\ confirm_mode s <> Some "clear".

(** Nothing consequential happened between [s0] and [s]: the buffer only
    grew, exit is as requested as before, recording and logging are as they
    were, and no command was run or dispatched and no settings written. *)
Definition untouched (s0 s : State) : Prop :=
  terminal_buffer s0 `prefix_of` terminal_buffer s
  /\ _exit_requested s = _exit_requested s0
  /\ save_recordings (settings s) = save_recordings (settings s0)
  /\ save_prompts (settings s) = save_prompts (settings s0)
  /\ logger_enable_session_log s = logger_enable_session_log s0
  /\ List.filter consequential (effects s) = List.filter consequential (effects s0).

(** No gated action happened between [s0] and [s]. *)
Definition ungated (s0 s : State) : Prop :=
  _exit_requested s = _exit_requested s0
  /\ List.filter gated (effects s) = List.filter gated (effects s0).

(** A handler that reads answers takes them from the front of the input,
    and the only exception it lets escape is the [EOFError] of an [input()]
    that found the input exhausted. *)
Definition reads_from (inp : list string) (r : result) : Prop :=
  unread r `suffix_of` inp
  /\ (raised r = None \/ (raised r = Some EOFError /\ unread r = [])).

(** One pass of the main loop: it goes on only after reading at least one
    line, and the control it returns says whether an exception escaped. *)
Definition pass_ok (inp : list string) (p : control * result) : Prop :=
  reads_from inp (snd p)
  /\ match fst p with
     | Continue => raised (snd p) = None /\ length (unread (snd p)) < length inp
     | Break => raised (snd p) = None
     | Crash e => raised (snd p) = Some e
     end.

(** What the loop of [_chunk_text_for_tts] keeps, [ps] being the sentences
    taken so far that are not empty and [ss] all of them: no chunk is
    empty, the chunks spell the sentences taken, and a chunk longer than
    the bound is a single sentence. *)
Definition chunk_inv (max_chars : Z) (ss : list string)
    (acc : list string * string) (ps : list string) : Prop :=
  let cs := fst acc ++ (if truthy (snd acc) then [snd acc] else []) in
  Forall (fun c => c <> "") cs
  /\ join " " cs = join " " ps
  /\ Forall (fun c => (Z.of_nat (String.length c) <= max_chars)%Z \/ c ∈ ss) cs
  /\ (snd acc = "" -> fst acc = [] /\ ps = [])
  /\ (snd acc <> "" -> ps <> []).

(** The calls of the code-generation tool among the effects. *)
Definition is_tool_call (e : effect) : bool :=
  match e with CodexCall _ => true | _ => false end.

(** A token as [_tokenize] produces them: not empty, made of digits and
    lower-case letters. *)
Definition clean_token (t : string) : Prop :=
  t <> "" /\ Forall (fun c => isalnum c = true /\ isupper c = false) (chars t).

(** [str.isascii]: every code point is below 128. *)
Definition isascii (s : string) : bool :=
  forallb (fun c => code c <? 128) (chars s).

(** A digit or a lower-case letter of ASCII, by code point. *)
Definition plain_char (c : ascii) : Prop :=
  48 <= code c <= 57 \/ 97 <= code c <= 122.

End Vocabulary.

(** * Properties *)

(** ** Alias store: calibration status *)

Section StatusFacts.
Import Gui PyStr Demo.

Lemma compute_status_uncalibrated (target : Z) (m : meta) :
  size (aliases m) = 0 -> compute_status target m = Some "Uncalibrated".
Proof. intros H. unfold compute_status. rewrite H. reflexivity. Qed.

Lemma compute_status_partial (target : Z) (m : meta) :
  0 < size (aliases m) -> (Z.of_nat (size (aliases m)) < target)%Z ->
  compute_status target m = Some "Partial".
Proof.
  intros Hpos Hlt. unfold compute_status.
  destruct (Z.eqb_spec (Z.of_nat (size (aliases m))) 0); [lia|].
  destruct (Z.ltb_spec (Z.of_nat (size (aliases m))) target); [reflexivity|lia].
Qed.

(** At or above the target the stored status wins whenever it is a
    non-empty string; only an absent or empty one gives "Calibrated". *)
Lemma compute_status_at_target (target : Z) (m : meta) :
  0 < size (aliases m) -> (target <= Z.of_nat (size (aliases m)))%Z ->
  compute_status target m
  = if truthy_opt (status m) then status m else Some "Calibrated".
Proof.
  intros Hpos Hge. unfold compute_status.
  destruct (Z.eqb_spec (Z.of_nat (size (aliases m))) 0); [lia|].
  destruct (Z.ltb_spec (Z.of_nat (size (aliases m))) target); [lia|reflexivity].
Qed.

(** Changing the target leaves every alias set as it was. *)
Lemma set_target_samples_aliases (target : Z) (p : VoiceProfile) (w : string) :
  aliases <$> (words (set_target_samples target p) !! w)
  = aliases <$> (words p !! w).
Proof.
  unfold set_target_samples. destruct (target <=? 0)%Z; [reflexivity|].
  simpl. rewrite lookup_fmap. destruct (words p !! w); reflexivity.
Qed.

(** C4. A word of a fresh profile (target 3) that receives three aliases
    through [add_alias] holds three aliases, yet [get_status] answers
    "Partial": with the count at the target, [_compute_status_for_word]
    returns the status stored by the previous call instead of "Calibrated". *)
Lemma status_stale_at_target :
  get_aliases "guided" three_samples = ["guidance"; "guide it"; "guy did"]
  /\ target_samples three_samples = 3%Z
  /\ snd (get_status "guided" three_samples) = inl (Some "Partial").
Proof. repeat split; vm_compute; reflexivity. Qed.

End StatusFacts.

(** ** Strings: [lower] and [strip] *)

Section StringFacts.
Import PyStr.

Lemma chars_str (l : list ascii) : chars (str l) = l.
Proof. apply list_ascii_of_string_of_list_ascii. Qed.

Lemma str_chars (s : string) : str (chars s) = s.
Proof. apply string_of_list_ascii_of_string. Qed.

Lemma str_inj (l1 l2 : list ascii) : str l1 = str l2 -> l1 = l2.
Proof. intros H. rewrite <- (chars_str l1), <- (chars_str l2). by rewrite H. Qed.

Lemma truthy_true (s : string) : truthy s = true <-> s <> "".
Proof.
  unfold truthy. destruct (String.eqb_spec s ""); simpl; split; intros; congruence.
Qed.

Lemma truthy_false (s : string) : truthy s = false <-> s = "".
Proof.
  unfold truthy. destruct (String.eqb_spec s ""); simpl; split; intros; congruence.
Qed.

Lemma isspace_lower_char (c : ascii) : isspace (lower_char c) = isspace c.
Proof. destruct c as [[] [] [] [] [] [] [] []]; reflexivity. Qed.

Lemma lower_char_idemp (c : ascii) : lower_char (lower_char c) = lower_char c.
Proof. destruct c as [[] [] [] [] [] [] [] []]; reflexivity. Qed.

Lemma drop_while_map {A} (p : A -> bool) (f : A -> A) (l : list A) :
  (forall x, p (f x) = p x) ->
  drop_while p (map f l) = map f (drop_while p l).
Proof.
  intros Hp. induction l as [|x l IH]; simpl; [reflexivity|].
  rewrite Hp. destruct (p x); [exact IH|reflexivity].
Qed.

Lemma lower_lower (s : string) : lower (lower s) = lower s.
Proof.
  unfold lower. rewrite chars_str, List.map_map. f_equal.
  apply List.map_ext. intros c. apply lower_char_idemp.
Qed.

Lemma strip_lower (s : string) : strip (lower s) = lower (strip s).
Proof.
  unfold strip, strip_by, lower. rewrite !chars_str. f_equal.
  rewrite (drop_while_map _ _ _ isspace_lower_char).
  rewrite <- List.map_rev, (drop_while_map _ _ _ isspace_lower_char).
  by rewrite List.map_rev.
Qed.

Lemma lower_empty (s : string) : lower s = "" <-> s = "".
Proof.
  unfold lower. split.
  - intros H. apply (str_inj _ []) in H. rewrite <- (str_chars s).
    destruct (chars s); [reflexivity|discriminate].
  - intros ->. reflexivity.
Qed.

End StringFacts.

(** ** Alias store: round trip *)

Section AliasFacts.
Import Gui PyStr.

Lemma elem_of_sorted (s : gset string) (x : string) : x ∈ sorted s <-> x ∈ s.
Proof. unfold sorted. by rewrite merge_sort_Permutation, elem_of_elements. Qed.

Lemma NoDup_sorted (s : gset string) : NoDup (sorted s).
Proof. unfold sorted. rewrite merge_sort_Permutation. apply NoDup_elements. Qed.

#[local] Instance str_le_total : Total str_le.
Proof. intros a b. unfold str_le. apply String.leb_total. Qed.

Lemma Sorted_sorted (s : gset string) : Sorted str_le (sorted s).
Proof. apply (Sorted_merge_sort str_le). Qed.

Lemma elem_of_clean_fold (al : list string) (acc : gset string) (x : string) :
  x ∈ fold_left (fun acc a =>
                   let a := strip a in
                   if negb (truthy a) then acc else acc ∪ {[ lower a ]}) al acc
  <-> x ∈ acc \/ exists a, a ∈ al /\ strip a <> "" /\ x = lower (strip a).
Proof.
  revert acc. induction al as [|a al IH]; intros acc; simpl.
  - split; [auto|]. intros [H|(a & Ha & _)]; [done|]. by apply elem_of_nil in Ha.
  - rewrite IH. destruct (truthy (strip a)) eqn:Ht; simpl.
    + apply truthy_true in Ht. rewrite elem_of_union, elem_of_singleton. split.
      * intros [[H| ->]|(b & Hb & Hne & ->)]; [by left|right..].
        -- exists a. split; [apply list_elem_of_here|done].
        -- exists b. split; [by apply list_elem_of_further|done].
      * intros [H|(b & Hb & Hne & ->)]; [by left; left|].
        apply elem_of_cons in Hb as [->|Hb]; [left; by right|].
        right. by exists b.
    + apply truthy_false in Ht. split.
      * intros [H|(b & Hb & Hne & ->)]; [by left|right].
        exists b. split; [by apply list_elem_of_further|done].
      * intros [H|(b & Hb & Hne & ->)]; [by left|].
        apply elem_of_cons in Hb as [->|Hb]; [done|]. right. by exists b.
Qed.

Lemma elem_of_clean_aliases (al : list string) (x : string) :
  x ∈ clean_aliases al <-> exists a, a ∈ al /\ strip a <> "" /\ x = lower (strip a).
Proof.
  unfold clean_aliases. rewrite elem_of_clean_fold. split; [|by right].
  intros [H|H]; [|done]. by apply not_elem_of_empty in H.
Qed.

(** [ensure_word] makes the lower-cased word a key when the word is not
    blank and has no surrounding whitespace, and keeps every existing key. *)
Lemma ensure_word_lookup (w : string) (p : VoiceProfile) :
  (strip w = w /\ w <> "") \/ is_Some (words p !! lower w) ->
  is_Some (words (ensure_word (lower w) p) !! lower w).
Proof.
  intros H. unfold ensure_word.
  destruct (truthy (lower (strip (lower w)))) eqn:Ht; simpl.
  - destruct (words p !! lower (strip (lower w))) eqn:Hl; simpl.
    + destruct H as [[Hs Hne]|H]; [|done].
      rewrite strip_lower, Hs, lower_lower in Hl. by rewrite Hl.
    + destruct (decide (lower (strip (lower w)) = lower w)) as [->|Hne].
      * rewrite lookup_insert_eq. by eexists.
      * rewrite lookup_insert_ne by done.
        destruct H as [[Hs Hn]|H]; [|done].
        rewrite strip_lower, Hs, lower_lower in Hne. done.
  - apply truthy_false in Ht. destruct H as [[Hs Hne]|H]; [|done].
    rewrite strip_lower, Hs, lower_lower in Ht.
    apply (proj1 (lower_empty w)) in Ht. contradiction.
Qed.

End AliasFacts.

Section AliasRoundTrip.
Import Gui PyStr.

(** C9, as amended. For a word that is not blank and has no surrounding
    whitespace (or that the store already knows), [set_aliases] succeeds and
    [get_aliases] then returns, sorted and without duplicates, exactly the
    lower-cased trimmed forms of the entries of [A] that are not blank. *)
Theorem set_then_get_aliases (w : string) (A : list string) (now : string)
    (p : VoiceProfile) :
  (strip w = w /\ w <> "") \/ is_Some (words p !! lower w) ->
  let r := set_aliases w A now p in
  snd r = None
  /\ NoDup (get_aliases w (fst r))
  /\ Sorted str_le (get_aliases w (fst r))
  /\ (forall x, x ∈ get_aliases w (fst r)
                <-> exists a, a ∈ A /\ strip a <> "" /\ x = lower (strip a)).
Proof.
  intros H. apply ensure_word_lookup in H. destruct H as [m Hm].
  cbv zeta. unfold set_aliases. rewrite Hm. cbn [fst snd].
  unfold get_aliases, set_words. cbn [words]. rewrite lookup_insert_eq.
  cbn [aliases set_status].
  split; [reflexivity|]. split; [apply NoDup_sorted|].
  split; [apply Sorted_sorted|].
  intros x. rewrite elem_of_sorted. apply elem_of_clean_aliases.
Qed.

Lemma set_then_get_aliases_witness :
  let r := set_aliases "Guided" ["Guy did"; " guidance "; "guy DID"] "t"
             Demo.three_samples in
  snd r = None
  /\ NoDup (get_aliases "Guided" (fst r))
  /\ Sorted str_le (get_aliases "Guided" (fst r))
  /\ (forall x, x ∈ get_aliases "Guided" (fst r)
                <-> exists a, a ∈ ["Guy did"; " guidance "; "guy DID"]
                              /\ strip a <> "" /\ x = lower (strip a)).
Proof.
  apply (set_then_get_aliases "Guided" ["Guy did"; " guidance "; "guy DID"] "t"
           Demo.three_samples).
  left. split; [reflexivity|discriminate].
Defined.

(** C9 as stated fails twice. A non-empty alias made of white space only
    is skipped by the test after [strip], not kept as the trimmed string.
    And for a new word with surrounding white space [set_aliases] raises
    [KeyError]: [ensure_word] files a fresh entry under the trimmed key, the
    indexing uses the untrimmed one, and no alias is stored. *)
Lemma set_then_get_aliases_counterexample :
  let p0 := {| target_samples := 3; words := ∅ |} in
  (" " <> ""
   /\ lower (strip " ") = ""
   /\ snd (set_aliases "guided" ["guy did"; " "] "t" p0) = None
   /\ get_aliases "guided" (fst (set_aliases "guided" ["guy did"; " "] "t" p0))
      = ["guy did"])
  /\ (let r := set_aliases " guided" ["guy did"] "t" p0 in
      snd r = Some (KeyError " guided")
      /\ get_aliases " guided" (fst r) = []
      /\ words (fst r) = {[ "guided" := fresh_meta ]}).
Proof. repeat split; try discriminate; vm_compute; reflexivity. Qed.

End AliasRoundTrip.

(** ** History window *)

Section WindowFacts.
Context {W : Shell.World}.
Import Shell PyStr.

Lemma slice_from_in_range {A} (start : Z) (l : list A) :
  (0 <= start <= Z.of_nat (length l))%Z ->
  slice_from start l = skipn (Z.to_nat start) l.
Proof.
  intros H. unfold slice_from.
  destruct (Z.ltb_spec start 0); [lia|]. f_equal. lia.
Qed.

Lemma slice_from_last {A} (n : nat) (k : list A) :
  0 < n -> slice_from (- Z.of_nat n) k = skipn (length k - n) k.
Proof.
  intros H. unfold slice_from.
  destruct (Z.ltb_spec (- Z.of_nat n) 0); [|lia]. f_equal. lia.
Qed.

Lemma slice_from_suffix {A} (start : Z) (l : list A) :
  exists k, k <= length l /\ slice_from start l = skipn k l.
Proof.
  unfold slice_from.
  exists (Z.to_nat (if (start <? 0)%Z then Z.max 0 (start + Z.of_nat (length l))
                    else Z.min start (Z.of_nat (length l)))).
  split; [|reflexivity]. destruct (Z.ltb_spec start 0); lia.
Qed.

Lemma window_lines_suffix (s : State) :
  exists k, k <= length (terminal_buffer s)
            /\ window_lines s = skipn k (terminal_buffer s).
Proof.
  unfold window_lines.
  destruct (slice_from_suffix (window_start s) (terminal_buffer s)) as (k1 & H1 & E1).
  rewrite E1.
  destruct (slice_from_suffix (-400) (skipn k1 (terminal_buffer s))) as (k2 & H2 & E2).
  rewrite E2, skipn_skipn. rewrite length_skipn in H2.
  exists (k2 + k1). split; [lia|reflexivity].
Qed.

End WindowFacts.

(** ** Primitive actions: what they leave alone *)

Section PrimitiveFacts.
Context {W : Shell.World}.
Import Shell PyStr.

Lemma silent_refl (s : State) : silent s s.
Proof. reflexivity. Qed.

Lemma silent_trans (s1 s2 s3 : State) : silent s1 s2 -> silent s2 s3 -> silent s1 s3.
Proof. unfold silent. congruence. Qed.

Lemma quiet_refl (s : State) : quiet s s.
Proof. reflexivity. Qed.

Lemma quiet_trans (s1 s2 s3 : State) : quiet s1 s2 -> quiet s2 s3 -> quiet s1 s3.
Proof. unfold quiet. congruence. Qed.

Lemma silent_quiet (s s' : State) : silent s s' -> quiet s s'.
Proof. unfold silent, quiet. intros H. by rewrite H. Qed.

Lemma silent_emit (e : effect) (s : State) : silent s (emit e s).
Proof. reflexivity. Qed.

Lemma silent_speak (t : string) (s : State) : silent s (_speak t s).
Proof. unfold _speak. destruct (truthy t); reflexivity. Qed.

Lemma silent_speak_if_guided (t : string) (s : State) :
  silent s (speak_if_guided t s).
Proof. unfold speak_if_guided. destruct (guided s); [apply silent_speak|reflexivity]. Qed.

Lemma silent_print_unbuffered (t : string) (s : State) : silent s (_print t false s).
Proof. reflexivity. Qed.

Lemma silent_print_status (s : State) : silent s (_print_status s).
Proof. reflexivity. Qed.

Lemma silent_log_session (m : string) (s : State) : silent s (log_session m s).
Proof. unfold log_session. destruct (logger_enable_session_log s); reflexivity. Qed.

Lemma quiet_print (t : string) (b : bool) (s : State) : quiet s (_print t b s).
Proof. unfold _print. destruct (b && truthy t); reflexivity. Qed.

Lemma buffer_print (t : string) (s : State) :
  truthy t = true ->
  terminal_buffer (_print t true s) = terminal_buffer s ++ [t].
Proof. intros H. unfold _print. simpl. rewrite H. reflexivity. Qed.

Lemma effects_print (t : string) (b : bool) (s : State) :
  effects (_print t b s) = effects s ++ [Out t].
Proof. unfold _print. destruct (b && truthy t); reflexivity. Qed.

(** Field equalities carried by [silent] and [quiet]. *)
Lemma silent_buffer (s s' : State) :
  silent s s' -> terminal_buffer s' = terminal_buffer s.
Proof. intros H. symmetry. exact (f_equal terminal_buffer H). Qed.

Lemma quiet_settings (s s' : State) : quiet s s' -> settings s' = settings s.
Proof. intros H. symmetry. exact (f_equal settings H). Qed.

Lemma quiet_confirm_mode (s s' : State) :
  quiet s s' -> confirm_mode s' = confirm_mode s.
Proof. intros H. symmetry. exact (f_equal confirm_mode H). Qed.

Lemma quiet_pending_command (s s' : State) :
  quiet s s' -> pending_shell_command s' = pending_shell_command s.
Proof. intros H. symmetry. exact (f_equal pending_shell_command H). Qed.

Lemma quiet_pending_explanation (s s' : State) :
  quiet s s' -> pending_shell_explanation s' = pending_shell_explanation s.
Proof. intros H. symmetry. exact (f_equal pending_shell_explanation H). Qed.

Lemma quiet_last_response (s s' : State) :
  quiet s s' -> last_codex_response s' = last_codex_response s.
Proof. intros H. symmetry. exact (f_equal last_codex_response H). Qed.

End PrimitiveFacts.

(** ** Command / explanation extraction *)

Section ExtractionFacts.
Context {W : Shell.World}.
Import Shell PyStr.

(** A line cannot carry both markers. *)
Lemma cmd_line_not_expl (l : string) : is_cmd_line l = true -> is_expl_line l = false.
Proof.
  unfold is_cmd_line, is_expl_line, startswith.
  destruct (upper l) as [|c u]; cbn [String.prefix]; [discriminate|].
  destruct (ascii_dec "C" c) as [<-|]; intros H; [|discriminate].
  destruct (ascii_dec "E" "C"); [discriminate|reflexivity].
Qed.

Lemma or_last_cons (p : string -> bool) (g : string -> string) (l : string)
    (lines : list string) (dflt : option string) :
  or_last p g (l :: lines) dflt
  = or_last p g lines (if p l then Some (g l) else dflt).
Proof.
  unfold or_last. simpl. destruct (p l); [|reflexivity].
  rewrite last_cons. destruct (last (List.filter p lines)); reflexivity.
Qed.

Lemma scan_markers_from (lines : list string) (c0 e0 : option string) :
  fold_left (fun acc l =>
               if is_cmd_line l then (Some (cmd_payload l), snd acc)
               else if is_expl_line l then (fst acc, Some (expl_payload l))
               else acc)
            lines (c0, e0)
  = (or_last is_cmd_line cmd_payload lines c0,
     or_last is_expl_line expl_payload lines e0).
Proof.
  revert c0 e0. induction lines as [|l lines IH]; intros c0 e0; [reflexivity|].
  simpl fold_left. rewrite !or_last_cons.
  destruct (is_cmd_line l) eqn:Hc.
  - rewrite (cmd_line_not_expl l Hc). apply IH.
  - destruct (is_expl_line l); apply IH.
Qed.

Lemma scan_markers_last (lines : list string) :
  scan_markers lines
  = (or_last is_cmd_line cmd_payload lines None,
     or_last is_expl_line expl_payload lines None).
Proof. apply scan_markers_from. Qed.

End ExtractionFacts.

Section FrameFacts.
Context {W : Shell.World}.
Import Shell PyStr.

Lemma print_pending_command t b s :
  pending_shell_command (_print t b s) = pending_shell_command s.
Proof. apply quiet_pending_command, quiet_print. Qed.

Lemma print_pending_explanation t b s :
  pending_shell_explanation (_print t b s) = pending_shell_explanation s.
Proof. apply quiet_pending_explanation, quiet_print. Qed.

Lemma print_last_response t b s :
  last_codex_response (_print t b s) = last_codex_response s.
Proof. apply quiet_last_response, quiet_print. Qed.

Lemma print_settings_same t b s : settings (_print t b s) = settings s.
Proof. apply quiet_settings, quiet_print. Qed.

Lemma print_confirm_mode t b s : confirm_mode (_print t b s) = confirm_mode s.
Proof. apply quiet_confirm_mode, quiet_print. Qed.

Lemma speak_pending_command t s :
  pending_shell_command (speak_if_guided t s) = pending_shell_command s.
Proof. apply quiet_pending_command, silent_quiet, silent_speak_if_guided. Qed.

Lemma speak_pending_explanation t s :
  pending_shell_explanation (speak_if_guided t s) = pending_shell_explanation s.
Proof. apply quiet_pending_explanation, silent_quiet, silent_speak_if_guided. Qed.

Lemma speak_last_response t s :
  last_codex_response (speak_if_guided t s) = last_codex_response s.
Proof. apply quiet_last_response, silent_quiet, silent_speak_if_guided. Qed.

Lemma speak_buffer t s : terminal_buffer (speak_if_guided t s) = terminal_buffer s.
Proof. apply silent_buffer, silent_speak_if_guided. Qed.

Lemma say_pending_command t s :
  pending_shell_command (_speak t s) = pending_shell_command s.
Proof. apply quiet_pending_command, silent_quiet, silent_speak. Qed.

Lemma say_pending_explanation t s :
  pending_shell_explanation (_speak t s) = pending_shell_explanation s.
Proof. apply quiet_pending_explanation, silent_quiet, silent_speak. Qed.

Lemma say_last_response t s :
  last_codex_response (_speak t s) = last_codex_response s.
Proof. apply quiet_last_response, silent_quiet, silent_speak. Qed.

Lemma say_buffer t s : terminal_buffer (_speak t s) = terminal_buffer s.
Proof. apply silent_buffer, silent_speak. Qed.

Lemma status_pending_command s :
  pending_shell_command (_print_status s) = pending_shell_command s.
Proof. reflexivity. Qed.

Lemma status_pending_explanation s :
  pending_shell_explanation (_print_status s) = pending_shell_explanation s.
Proof. reflexivity. Qed.

Lemma status_last_response s :
  last_codex_response (_print_status s) = last_codex_response s.
Proof. reflexivity. Qed.

Lemma status_buffer s : terminal_buffer (_print_status s) = terminal_buffer s.
Proof. reflexivity. Qed.

End FrameFacts.

Create Rewrite HintDb frame.

#[global] Hint Rewrite @print_pending_command @print_pending_explanation
  @print_last_response @print_settings_same @print_confirm_mode
  @speak_pending_command @speak_pending_explanation @speak_last_response
  @speak_buffer @say_pending_command @say_pending_explanation
  @say_last_response @say_buffer @status_pending_command
  @status_pending_explanation @status_last_response @status_buffer : frame.

Section ExtractionTheorem.
Context {W : Shell.World}.
Import Shell PyStr.

Lemma or_last_default (p : string -> bool) (g : string -> string)
    (lines : list string) (d : option string) :
  or_last p g lines d
  = match or_last p g lines None with Some x => Some x | None => d end.
Proof. unfold or_last. destruct (last (List.filter p lines)); reflexivity. Qed.

Lemma extract_cmd_expl_spec (raw : string) :
  extract_cmd_expl raw
  = (or_last is_cmd_line cmd_payload (nonblank_lines raw) (head (nonblank_lines raw)),
     or_last is_expl_line expl_payload (nonblank_lines raw) (nonblank_lines raw !! 1)).
Proof.
  unfold extract_cmd_expl. rewrite scan_markers_last.
  rewrite (or_last_default _ _ _ (head _)), (or_last_default _ _ _ (_ !! 1)).
  destruct (or_last is_cmd_line cmd_payload (nonblank_lines raw) None),
    (or_last is_expl_line expl_payload (nonblank_lines raw) None),
    (nonblank_lines raw) as [|l0 [|l1 ls]]; reflexivity.
Qed.

Lemma effects_speak_if_guided_grow (x : effect) (t : string) (s : State) :
  x ∈ effects s -> x ∈ effects (speak_if_guided t s).
Proof.
  unfold speak_if_guided, _speak. intros H.
  destruct (guided s); [|exact H]. destruct (truthy t); [|exact H].
  simpl. apply elem_of_app. by left.
Qed.

End ExtractionTheorem.

Section RequestFacts.
Context {W : Shell.World}.
Import Shell PyStr.

Ltac settle :=
  unfold settled;
  let c := fresh "c" in
  let e := fresh "e" in
  match goal with
  | |- context [_extract_cmd_expl_from_response ?s1] =>
      destruct (_extract_cmd_expl_from_response s1) as [c e]
  end;
  destruct (truthy_opt c) eqn:?; cbv zeta;
  [ repeat match goal with
           | |- context [if ?b then _ else _] => destruct b
           end; autorewrite with frame; simpl; auto
  | autorewrite with frame; simpl; split; [reflexivity|];
    do 2 (split; [reflexivity|]); split;
    [ apply last_snoc
    | apply elem_of_app; left; apply effects_speak_if_guided_grow;
      rewrite effects_print; apply elem_of_app; right; apply list_elem_of_here ] ].

Lemma settle_shell_request (s : State) :
  truthy (_get_history_for_shell s) || truthy (strip (prompt_text s)) = true ->
  settled shell_extract_notice
    (_run_codex_prompt
       (shell_request_prompt (or_str (strip (prompt_text s)) "(none)")
          (_get_history_for_shell s) s)
       (set_pending_shell_explanation None s))
    (_voice_shell_request s).
Proof.
  intros H. unfold _voice_shell_request.
  replace (negb (truthy (_get_history_for_shell s))
           && negb (truthy (strip (prompt_text s)))) with false
    by (destruct (truthy (_get_history_for_shell s)),
          (truthy (strip (prompt_text s))); (reflexivity || discriminate)).
  cbv zeta.
  set (s1 := _run_codex_prompt _ _). settle.
Qed.

Lemma settle_app_request (s : State) :
  settled app_extract_notice
    (_run_codex_prompt
       (app_request_prompt (or_str (strip (prompt_text s)) "(none)")
          (_get_history_for_shell s))
       (set_pending_shell_explanation None s))
    (_voice_app_command_request s).
Proof.
  unfold _voice_app_command_request. cbv zeta.
  set (s1 := _run_codex_prompt _ _). settle.
Qed.

Lemma substring_whole (s : string) : String.substring 0 (String.length s) s = s.
Proof. induction s as [|c s IH]; simpl; [reflexivity|]. by rewrite IH. Qed.

Lemma substring_from (n : nat) (s : string) :
  String.substring n (String.length s - n) s = drop_str n s.
Proof.
  unfold drop_str, str, chars. revert n.
  induction s as [|c s IH]; intros [|n]; try reflexivity.
  - change (String.length (String c s) - 0) with (String.length (String c s)).
    rewrite substring_whole. simpl.
    by rewrite string_of_list_ascii_of_string.
  - simpl. apply IH.
Qed.

Lemma no_usable_line (raw : string) :
  (forall l, l ∈ splitlines raw -> strip l = "") -> nonblank_lines raw = [].
Proof.
  unfold nonblank_lines. induction (splitlines raw) as [|l ls IH]; intros H;
    [reflexivity|].
  simpl. rewrite (H l) by apply list_elem_of_here. simpl.
  apply IH. intros x Hx. by apply H, list_elem_of_further.
Qed.

(** C6. Extraction reads the lines of the response that are not blank,
    trimmed. The command is what follows the first four characters of the
    last line that starts with "CMD:" in any case, trimmed, or the first
    line when no line starts so; the explanation is what follows the first
    five characters of the last line that starts with "EXPL:", trimmed, or
    the second line when no line starts so. A response whose lines are all
    blank gives no command and no explanation. Both request handlers, once
    the tool has answered, install the extracted pair when the command is
    usable and otherwise clear the pending command and explanation and
    print the notice, which is then the last line of the buffer. The shell
    request asks the tool whenever there is history or a prompt. *)
Theorem extraction_fallback_and_clearing :
  (forall raw : string,
      let lines :=
        map strip
          (List.filter (fun l => negb (String.eqb (strip l) "")) (splitlines raw)) in
      let after n l := strip (String.substring n (String.length l - n) l) in
      extract_cmd_expl raw
      = (match last (List.filter (fun l => String.prefix "CMD:" (upper l)) lines) with
         | Some l => Some (after 4 l)
         | None => head lines
         end,
         match last (List.filter (fun l => String.prefix "EXPL:" (upper l)) lines) with
         | Some l => Some (after 5 l)
         | None => lines !! 1
         end))
  /\ (forall raw : string,
         (forall l, l ∈ splitlines raw -> strip l = "") ->
         extract_cmd_expl raw = (None, None))
  /\ (forall s : State,
         truthy (_get_history_for_shell s) || truthy (strip (prompt_text s)) = true ->
         settled shell_extract_notice
           (_run_codex_prompt
              (shell_request_prompt (or_str (strip (prompt_text s)) "(none)")
                 (_get_history_for_shell s) s)
              (set_pending_shell_explanation None s))
           (_voice_shell_request s))
  /\ (forall s : State,
         settled app_extract_notice
           (_run_codex_prompt
              (app_request_prompt (or_str (strip (prompt_text s)) "(none)")
                 (_get_history_for_shell s))
              (set_pending_shell_explanation None s))
           (_voice_app_command_request s)).
Proof.
  split; [|split; [|split]].
  - intros raw. cbv zeta. rewrite extract_cmd_expl_spec.
    unfold or_last, cmd_payload, expl_payload.
    change (nonblank_lines raw)
      with (map strip
              (List.filter (fun l => negb (String.eqb (strip l) "")) (splitlines raw))).
    change is_cmd_line with (fun l => String.prefix "CMD:" (upper l)).
    change is_expl_line with (fun l => String.prefix "EXPL:" (upper l)).
    destruct (last (List.filter (fun l => String.prefix "CMD:" (upper l)) _)),
      (last (List.filter (fun l => String.prefix "EXPL:" (upper l)) _));
      by rewrite ?substring_from.
  - intros raw H. rewrite extract_cmd_expl_spec, (no_usable_line raw H). reflexivity.
  - exact settle_shell_request.
  - exact settle_app_request.
Qed.

End RequestFacts.

(** A reply with a preamble and both markers in mixed case; a reply without
    markers; a blank reply; a tool answer that is installed as the proposal;
    an unusable answer, after which the stale proposal is gone. *)
Lemma extraction_fallback_and_clearing_witness :
  Shell.extract_cmd_expl
    ("Sure." +:+ PyStr.nl +:+ "cmd:  ls -la " +:+ PyStr.nl +:+ PyStr.nl
     +:+ "Expl: list files")
  = (Some "ls -la", Some "list files")
  /\ Shell.extract_cmd_expl ("echo hi" +:+ PyStr.nl +:+ "  prints hi")
     = (Some "echo hi", Some "prints hi")
  /\ Shell.extract_cmd_expl "CMD: first" = (Some "first", None)
  /\ Shell.extract_cmd_expl ("  " +:+ PyStr.nl) = (None, None)
  /\ Shell.pending_shell_command (Shell._voice_shell_request Demo.with_prompt)
     = Some "ls -la"
  /\ Shell.pending_shell_explanation (Shell._voice_shell_request Demo.with_prompt)
     = Some "list files"
  /\ Shell.pending_shell_command (Shell._voice_shell_request Demo.stale_proposal) = None
  /\ Shell.pending_shell_explanation (Shell._voice_shell_request Demo.stale_proposal)
     = None.
Proof.
  destruct (@extraction_fallback_and_clearing Demo.world) as (Hlines & Hnone & Hreq & _).
  split; [exact (Hlines _)|]. split; [exact (Hlines _)|]. split; [exact (Hlines _)|].
  split.
  { apply Hnone. intros l Hl. vm_compute in Hl.
    apply list_elem_of_singleton in Hl as ->. reflexivity. }
  assert (Hp := Hreq Demo.with_prompt eq_refl). destruct Hp as [_ Hp].
  split; [exact (proj1 Hp)|]. split; [exact (proj2 Hp)|].
  assert (Hs := Hreq Demo.stale_proposal eq_refl). destruct Hs as [_ Hs].
  split; [exact (proj1 Hs)|exact (proj1 (proj2 Hs))].
Defined.

(** ** The similarity ratio lies between 0 and 1 *)

Section DifflibFacts.
Import Difflib.

Variables (a b : list ascii).

Lemma next_row_ok (alo blo bhi i : nat) (ai : ascii) (prev : list nat) :
  alo <= i ->
  (forall j k, prev !! j = Some k -> k <> 0 -> alo + k <= i /\ blo + k <= S j) ->
  row_ok alo blo bhi i (next_row b blo bhi ai prev).
Proof.
  intros Hi Hprev j k Hj Hk. unfold next_row in Hj.
  rewrite list_lookup_imap in Hj.
  destruct (b !! j) as [bj|]; simpl in Hj; [|discriminate].
  destruct ((blo <=? j) && (j <? bhi) && Ascii.eqb ai bj && negb (popular b bj))
    eqn:Hc; [|congruence].
  apply andb_prop in Hc as [Hc _]. apply andb_prop in Hc as [Hc _].
  apply andb_prop in Hc as [H1 H2].
  apply Nat.leb_le in H1. apply Nat.ltb_lt in H2.
  injection Hj as <-.
  destruct j as [|j']; [lia|].
  rewrite nth_lookup. destruct (prev !! j') as [k'|] eqn:Hp; simpl; [|lia].
  destruct (decide (k' = 0)) as [->|Hne]; [lia|].
  destruct (Hprev j' k' Hp Hne). lia.
Qed.

Lemma scan_row_boxed (alo blo bhi i : nat) (row : list nat) (best : block) :
  row_ok alo blo bhi i row ->
  boxed alo (S i) blo bhi best ->
  boxed alo (S i) blo bhi (scan_row i row best).
Proof.
  intros Hrow. unfold scan_row.
  assert (Hall : forall jk, jk ∈ imap pair row ->
                            snd jk <> 0 ->
                            alo + snd jk <= S i /\ blo + snd jk <= S (fst jk)
                            /\ fst jk < bhi).
  { intros [j k] Hin Hk. apply list_elem_of_lookup in Hin as [n Hn].
    rewrite list_lookup_imap in Hn.
    destruct (row !! n) as [k'|] eqn:Hr; simpl in Hn; [|discriminate].
    injection Hn as <- <-. exact (Hrow n k' Hr Hk). }
  revert best Hall. induction (imap pair row) as [|[j k] l IH]; intros best Hall Hb;
    [exact Hb|].
  simpl. apply IH.
  - intros jk Hin. apply Hall. by apply list_elem_of_further.
  - destruct (Nat.ltb_spec (size best) k) as [Hlt|]; [|exact Hb].
    destruct (Hall (j, k) (list_elem_of_here _ _)) as (H1 & H2 & H3); simpl in *; [lia|].
    unfold boxed. simpl. lia.
Qed.

Lemma boxed_widen (alo hi hi' blo bhi : nat) (m : block) :
  hi <= hi' -> boxed alo hi blo bhi m -> boxed alo hi' blo bhi m.
Proof. unfold boxed. lia. Qed.

Lemma rows_boxed (alo blo bhi : nat) (arest : list ascii) (i : nat)
    (prev : list nat) (best : block) :
  alo <= i ->
  (forall j k, prev !! j = Some k -> k <> 0 -> alo + k <= i /\ blo + k <= S j) ->
  boxed alo i blo bhi best ->
  boxed alo (i + length arest) blo bhi (rows b blo bhi arest i prev best).
Proof.
  revert i prev best. induction arest as [|ai arest IH]; intros i prev best Hi Hp Hb.
  - simpl. rewrite Nat.add_0_r. exact Hb.
  - simpl. replace (i + S (length arest)) with (S i + length arest) by lia.
    pose proof (next_row_ok alo blo bhi i ai prev Hi Hp) as Hrow.
    apply IH; [lia| |].
    + intros j k Hj Hk. destruct (Hrow j k Hj Hk) as (H1 & H2 & _). lia.
    + apply scan_row_boxed; [exact Hrow|]. apply (boxed_widen alo i); [lia|exact Hb].
Qed.

Lemma extend_left_boxed (fuel alo hi blo bhi : nat) (m : block) :
  boxed alo hi blo bhi m -> boxed alo hi blo bhi (extend_left fuel a b alo blo m).
Proof.
  revert m. induction fuel as [|fuel IH]; intros [[i j] k] Hb; [exact Hb|].
  simpl. destruct ((alo <? i) && (blo <? j) && same_at a b (i - 1) (j - 1)) eqn:Hc;
    [|exact Hb].
  apply andb_prop in Hc as [Hc _]. apply andb_prop in Hc as [H1 H2].
  apply Nat.ltb_lt in H1. apply Nat.ltb_lt in H2.
  apply IH. unfold boxed in *. simpl in *. lia.
Qed.

Lemma extend_right_boxed (fuel alo ahi blo bhi : nat) (m : block) :
  boxed alo ahi blo bhi m -> boxed alo ahi blo bhi (extend_right fuel a b ahi bhi m).
Proof.
  revert m. induction fuel as [|fuel IH]; intros [[i j] k] Hb; [exact Hb|].
  simpl. destruct ((i + k <? ahi) && (j + k <? bhi) && same_at a b (i + k) (j + k))
    eqn:Hc; [|exact Hb].
  apply andb_prop in Hc as [Hc _]. apply andb_prop in Hc as [H1 H2].
  apply Nat.ltb_lt in H1. apply Nat.ltb_lt in H2.
  apply IH. unfold boxed in *. simpl in *. lia.
Qed.

(** The block returned by [find_longest_match] lies in the rectangle it
    was asked to search. *)
Lemma find_longest_match_boxed (alo ahi blo bhi : nat) :
  alo <= ahi -> blo <= bhi ->
  boxed alo ahi blo bhi (find_longest_match a b alo ahi blo bhi).
Proof.
  intros Ha Hb. unfold find_longest_match.
  apply extend_right_boxed, extend_left_boxed.
  apply (boxed_widen alo (alo + length (firstn (ahi - alo) (skipn alo a)))).
  - rewrite length_firstn. lia.
  - apply rows_boxed; [lia| |].
    + intros j k Hj. by rewrite lookup_nil in Hj.
    + unfold boxed. simpl. lia.
Qed.

Lemma matched_bound (fuel alo ahi blo bhi : nat) :
  alo <= ahi -> blo <= bhi ->
  matched fuel a b alo ahi blo bhi <= ahi - alo
  /\ matched fuel a b alo ahi blo bhi <= bhi - blo.
Proof.
  revert alo ahi blo bhi. induction fuel as [|fuel IH]; intros alo ahi blo bhi Ha Hb;
    [simpl; lia|].
  simpl. pose proof (find_longest_match_boxed alo ahi blo bhi Ha Hb) as Hbox.
  destruct (find_longest_match a b alo ahi blo bhi) as [[i j] k].
  unfold boxed in Hbox. simpl in Hbox. destruct Hbox as (H1 & H2 & H3 & H4).
  destruct (k =? 0); [lia|].
  assert (Hl := IH alo i blo j H1 H3).
  assert (Hr := IH (i + k) ahi (j + k) bhi H2 H4).
  destruct ((alo <? i) && (blo <? j)), ((i + k <? ahi) && (j + k <? bhi)); lia.
Qed.

(** More fuel than the length of the searched range of [a] changes
    nothing: the recursion of [matched] has then run to its end. *)
Lemma matched_fuel_enough (f1 f2 alo ahi blo bhi : nat) :
  alo <= ahi -> blo <= bhi -> ahi - alo < f1 -> ahi - alo < f2 ->
  matched f1 a b alo ahi blo bhi = matched f2 a b alo ahi blo bhi.
Proof.
  revert f2 alo ahi blo bhi. induction f1 as [|f1 IH];
    intros f2 alo ahi blo bhi Ha Hb H1 H2; [lia|].
  destruct f2 as [|f2]; [lia|]. simpl.
  pose proof (find_longest_match_boxed alo ahi blo bhi Ha Hb) as Hbox.
  destruct (find_longest_match a b alo ahi blo bhi) as [[i j] k].
  unfold boxed in Hbox. simpl in Hbox. destruct Hbox as (B1 & B2 & B3 & B4).
  destruct (Nat.eqb_spec k 0); [reflexivity|].
  rewrite (IH f2 alo i blo j) by lia.
  rewrite (IH f2 (i + k) ahi (j + k) bhi) by lia.
  reflexivity.
Qed.

Lemma matches_bound :
  matches a b <= length a /\ matches a b <= length b.
Proof.
  unfold matches.
  destruct (matched_bound (S (length a)) 0 (length a) 0 (length b)); lia.
Qed.

Lemma matches_fuel (fuel : nat) :
  length a < fuel ->
  matched fuel a b 0 (length a) 0 (length b) = matches a b.
Proof. intros H. apply matched_fuel_enough; lia. Qed.

End DifflibFacts.

Lemma calculate_ratio_range (m len : nat) :
  2 * m <= len ->
  (0 <= Difflib.calculate_ratio m len)%Q /\ (Difflib.calculate_ratio m len <= 1)%Q.
Proof.
  intros H. unfold Difflib.calculate_ratio.
  destruct (Nat.eqb_spec len 0) as [->|Hne].
  - split; unfold Qle; simpl; lia.
  - assert (Hp : Z.pos (Pos.of_nat len) = Z.of_nat len).
    { rewrite <- positive_nat_Z, Nat2Pos.id by exact Hne. reflexivity. }
    split; unfold Qle; simpl; rewrite ?Hp; lia.
Qed.

Lemma ratio_range (x y : string) :
  (0 <= Difflib.ratio x y)%Q /\ (Difflib.ratio x y <= 1)%Q.
Proof.
  unfold Difflib.ratio. apply calculate_ratio_range.
  destruct (matches_bound (PyStr.chars x) (PyStr.chars y)). lia.
Qed.

(** ** Fuzzy matcher *)

Section FuzzyFacts.
Import Gui PyStr.

Lemma Qgt_bool_true (x y : Q) : Qgt_bool x y = true <-> (y < x)%Q.
Proof.
  unfold Qgt_bool. rewrite negb_true_iff. split.
  - intros H. apply Qnot_le_lt. intros Hle. apply Qle_bool_iff in Hle. congruence.
  - intros H. destruct (Qle_bool x y) eqn:E; [|reflexivity].
    apply Qle_bool_iff in E. exfalso. exact (Qlt_not_le _ _ H E).
Qed.

Lemma Qgt_bool_false (x y : Q) : Qgt_bool x y = false <-> (x <= y)%Q.
Proof.
  unfold Qgt_bool. rewrite negb_false_iff. apply Qle_bool_iff.
Qed.

(** The loop of [_fuzzy] started from any value [b0]: the result bounds
    [b0] and the ratio of every counted target, and is one of them. *)
Lemma best_fold_max (w : string) (targets : list string) (b0 : Q) :
  let step := fun best t =>
                let t_norm := normal t in
                if negb (truthy t_norm) then best
                else
                  let ratio := Difflib.ratio w t_norm in
                  if Qgt_bool ratio best then ratio else best in
  let best := fold_left step targets b0 in
  (b0 <= best)%Q
  /\ (forall t, t ∈ targets -> normal t <> "" -> (Difflib.ratio w (normal t) <= best)%Q)
  /\ (best = b0
      \/ exists t, t ∈ targets /\ normal t <> "" /\ best = Difflib.ratio w (normal t)).
Proof.
  cbv zeta. revert b0. induction targets as [|t ts IH]; intros b0.
  - simpl. split; [apply Qle_refl|]. split; [|by left].
    intros t Ht. by apply elem_of_nil in Ht.
  - simpl fold_left.
    destruct (truthy (normal t)) eqn:Ht; simpl negb; cbv iota.
    + apply truthy_true in Ht.
      destruct (Qgt_bool (Difflib.ratio w (normal t)) b0) eqn:Hg.
      * apply Qgt_bool_true in Hg.
        destruct (IH (Difflib.ratio w (normal t))) as (H1 & H2 & H3).
        split; [eapply Qle_trans; [apply Qlt_le_weak, Hg|exact H1]|]. split.
        -- intros u Hu Hn. apply elem_of_cons in Hu as [->|Hu]; [exact H1|by apply H2].
        -- right. destruct H3 as [H3|(u & Hu & Hn & H3)].
           ++ exists t. split; [apply list_elem_of_here|done].
           ++ exists u. split; [by apply list_elem_of_further|done].
      * apply Qgt_bool_false in Hg.
        destruct (IH b0) as (H1 & H2 & H3). split; [exact H1|]. split.
        -- intros u Hu Hn. apply elem_of_cons in Hu as [->|Hu]; [|by apply H2].
           eapply Qle_trans; [exact Hg|exact H1].
        -- destruct H3 as [H3|(u & Hu & Hn & H3)]; [by left|right].
           exists u. split; [by apply list_elem_of_further|done].
    + apply truthy_false in Ht.
      destruct (IH b0) as (H1 & H2 & H3). split; [exact H1|]. split.
      * intros u Hu Hn. apply elem_of_cons in Hu as [->|Hu]; [done|by apply H2].
      * destruct H3 as [H3|(u & Hu & Hn & H3)]; [by left|right].
        exists u. split; [by apply list_elem_of_further|done].
Qed.

Lemma best_ratio_max (w : string) (targets : list string) :
  (0 <= best_ratio w targets)%Q
  /\ (best_ratio w targets <= 1)%Q
  /\ (forall t, t ∈ targets -> normal t <> "" ->
                (Difflib.ratio w (normal t) <= best_ratio w targets)%Q)
  /\ (best_ratio w targets = 0%Q
      \/ exists t, t ∈ targets /\ normal t <> ""
                   /\ best_ratio w targets = Difflib.ratio w (normal t)).
Proof.
  pose proof (best_fold_max w targets 0) as H.
  unfold best_ratio. cbv zeta in H |- *. destruct H as (H1 & H2 & H3).
  split; [exact H1|]. split; [|split; [exact H2|exact H3]].
  destruct H3 as [->|(t & _ & _ & ->)]; [discriminate|apply ratio_range].
Qed.

Lemma fuzzy_unfold (word : string) (targets : list string) (threshold : Q) :
  _fuzzy word targets threshold = true
  <-> normal word <> "" /\ (threshold <= best_ratio (normal word) targets)%Q.
Proof.
  unfold _fuzzy. destruct (truthy word) eqn:Hw; simpl.
  - destruct (truthy (normal word)) eqn:Hn; simpl.
    + apply truthy_true in Hn. rewrite Qle_bool_iff. tauto.
    + apply truthy_false in Hn. split; [discriminate|]. intros [H _]. contradiction.
  - apply truthy_false in Hw. subst word. split; [discriminate|].
    intros [H _]. exfalso. apply H. reflexivity.
Qed.

(** The loop of the shell's [_fuzzy_in], which counts every candidate. *)
Lemma shell_fold_max (w : string) (cands : list string) (b0 : Q) :
  let step := fun best c =>
                let r := Difflib.ratio w (strip (lower c)) in
                if Shell.Qgt_bool r best then r else best in
  let best := fold_left step cands b0 in
  (b0 <= best)%Q
  /\ (forall c, c ∈ cands -> (Difflib.ratio w (strip (lower c)) <= best)%Q)
  /\ (best = b0
      \/ exists c, c ∈ cands /\ best = Difflib.ratio w (strip (lower c))).
Proof.
  cbv zeta. revert b0. induction cands as [|c cs IH]; intros b0.
  - simpl. split; [apply Qle_refl|]. split; [|by left].
    intros c Hc. by apply elem_of_nil in Hc.
  - simpl fold_left.
    change (Shell.Qgt_bool (Difflib.ratio w (strip (lower c))) b0)
      with (Qgt_bool (Difflib.ratio w (strip (lower c))) b0).
    destruct (Qgt_bool (Difflib.ratio w (strip (lower c))) b0) eqn:Hg.
    + apply Qgt_bool_true in Hg.
      destruct (IH (Difflib.ratio w (strip (lower c)))) as (H1 & H2 & H3).
      split; [eapply Qle_trans; [apply Qlt_le_weak, Hg|exact H1]|]. split.
      * intros u Hu. apply elem_of_cons in Hu as [->|Hu]; [exact H1|by apply H2].
      * right. destruct H3 as [H3|(u & Hu & H3)].
        -- exists c. split; [apply list_elem_of_here|done].
        -- exists u. split; [by apply list_elem_of_further|done].
    + apply Qgt_bool_false in Hg.
      destruct (IH b0) as (H1 & H2 & H3). split; [exact H1|]. split.
      * intros u Hu. apply elem_of_cons in Hu as [->|Hu]; [|by apply H2].
        eapply Qle_trans; [exact Hg|exact H1].
      * destruct H3 as [H3|(u & Hu & H3)]; [by left|right].
        exists u. split; [by apply list_elem_of_further|done].
Qed.

(** [_fuzzy_in] of the shell: candidates are lower-cased and stripped of
    surrounding white space only, and an empty candidate list is refused
    before the loop. *)
Lemma fuzzy_in_unfold (word : string) (cands : list string) (threshold : Q) :
  Shell._fuzzy_in word cands threshold = true
  <-> strip (lower word) <> ""
      /\ exists c, c ∈ cands
                   /\ (threshold <= Difflib.ratio (strip (lower word))
                                      (strip (lower c)))%Q.
Proof.
  unfold Shell._fuzzy_in. cbv zeta.
  destruct (truthy (strip (lower word))) eqn:Hw; simpl negb.
  - apply truthy_true in Hw.
    destruct cands as [|c0 cs]; cbv iota beta; simpl orb; cbv iota.
    + split; [discriminate|]. intros (_ & c & Hc & _). by apply elem_of_nil in Hc.
    + pose proof (shell_fold_max (strip (lower word)) (c0 :: cs) 0) as H.
      cbv zeta in H. destruct H as (H0 & Hub & Hatt).
      rewrite Qle_bool_iff. split.
      * intros Hle. split; [exact Hw|].
        destruct Hatt as [Hz|(c & Hc & Hb)].
        -- exists c0. split; [apply list_elem_of_here|].
           eapply Qle_trans; [exact Hle|]. rewrite Hz.
           apply ratio_range.
        -- exists c. split; [exact Hc|]. by rewrite <- Hb.
      * intros (_ & c & Hc & Hle). eapply Qle_trans; [exact Hle|by apply Hub].
  - apply truthy_false in Hw. simpl. split; [discriminate|].
    intros [H _]. contradiction.
Qed.

End FuzzyFacts.

Section FuzzyTheorem.
Import Gui PyStr.

(** C8, as amended. [_fuzzy] lower-cases the word and every target and
    strips surrounding spaces and punctuation; the value it compares with
    the threshold lies in [0, 1], bounds the similarity ratio of every target
    whose normal form is not empty, and is one of these ratios or 0; the
    answer is true exactly when the normal form of the word is not empty and
    that maximum reaches the threshold. A word with an empty normal form
    gives false, and so does an empty target list when the threshold is
    positive. The shell's [_fuzzy_in] lower-cases and strips white space
    only, counts every candidate, and answers true exactly when the word is
    not empty and some candidate reaches the threshold, so an empty
    candidate list gives false whatever the threshold. *)
Theorem fuzzy_threshold_rule (word : string) (targets : list string) (threshold : Q) :
  let w := normal word in
  let best := best_ratio w targets in
  (_fuzzy word targets threshold = true <-> w <> "" /\ (threshold <= best)%Q)
  /\ ((0 <= best)%Q /\ (best <= 1)%Q
      /\ (forall t, t ∈ targets -> normal t <> "" ->
                    (Difflib.ratio w (normal t) <= best)%Q)
      /\ (best = 0%Q
          \/ exists t, t ∈ targets /\ normal t <> ""
                       /\ best = Difflib.ratio w (normal t)))
  /\ (w = "" -> _fuzzy word targets threshold = false)
  /\ ((0 < threshold)%Q ->
      _fuzzy word [] threshold = false
      /\ (_fuzzy word targets threshold = true
          <-> w <> ""
              /\ exists t, t ∈ targets /\ normal t <> ""
                           /\ (threshold <= Difflib.ratio w (normal t))%Q))
  /\ (Shell._fuzzy_in word targets threshold = true
      <-> strip (lower word) <> ""
          /\ exists t, t ∈ targets
                       /\ (threshold <= Difflib.ratio (strip (lower word))
                                          (strip (lower t)))%Q).
Proof.
  cbv zeta. pose proof (fuzzy_unfold word targets threshold) as Hu.
  pose proof (best_ratio_max (normal word) targets) as (B0 & B1 & Bub & Batt).
  split; [exact Hu|]. split; [by repeat split|]. split; [|split].
  3: apply fuzzy_in_unfold.
  - intros Hw. apply not_true_is_false. intros E.
    apply Hu in E as [E _]. contradiction.
  - intros Hpos. split.
    + apply not_true_is_false. intros E.
      apply fuzzy_unfold in E as [_ E].
      exact (Qlt_not_le _ _ Hpos E).
    + rewrite Hu. split.
      * intros [Hw Hle]. split; [exact Hw|].
        destruct Batt as [Hz|(t & Ht & Hn & Hb)].
        -- rewrite Hz in Hle. exfalso. exact (Qlt_not_le _ _ Hpos Hle).
        -- exists t. rewrite <- Hb. done.
      * intros [Hw (t & Ht & Hn & Hle)]. split; [exact Hw|].
        eapply Qle_trans; [exact Hle|by apply Bub].
Qed.

Lemma fuzzy_threshold_rule_witness :
  _fuzzy "Guided!" [] (78 # 100) = false
  /\ (_fuzzy "Guided!" ["guided"; "quiet"] (78 # 100) = true
      <-> normal "Guided!" <> ""
          /\ exists t, t ∈ ["guided"; "quiet"] /\ normal t <> ""
                       /\ (78 # 100 <= Difflib.ratio (normal "Guided!") (normal t))%Q).
Proof.
  apply (fuzzy_threshold_rule "Guided!" ["guided"; "quiet"] (78 # 100)).
  reflexivity.
Defined.

(** C8 as stated fails for a threshold that is not positive: with no
    candidate at all the loop leaves [best] at 0 and [0 >= 0] holds, so a
    non-empty word matches the empty candidate set. *)
Lemma fuzzy_empty_targets_counterexample :
  _fuzzy "guided" [] 0 = true.
Proof. reflexivity. Qed.

(** The boundary cases listed with the matcher: threshold 0.78. *)
Example fuzzy_exact : _fuzzy "guided" ["guided"] (78 # 100) = true.
Proof. vm_compute. reflexivity. Qed.

Example fuzzy_unrelated : _fuzzy "xyz123" ["guided"] (78 # 100) = false.
Proof. vm_compute. reflexivity. Qed.

Example fuzzy_case_punctuation : _fuzzy "Guided!" ["guided"] (78 # 100) = true.
Proof. vm_compute. reflexivity. Qed.

(** The shell's matcher keeps punctuation and refuses an empty candidate
    list for every threshold. *)
Example fuzzy_in_keeps_punctuation :
  Shell._fuzzy_in "Guided!" ["guided"] 1 = false
  /\ _fuzzy "Guided!" ["guided"] 1 = true.
Proof. split; vm_compute; reflexivity. Qed.

Example fuzzy_in_no_candidates : Shell._fuzzy_in "guided" [] 0 = false.
Proof. reflexivity. Qed.

End FuzzyTheorem.

(** ** Confirmation exclusivity *)

Section ConfirmFacts.
Context {W : Shell.World}.
Import Shell PyStr.

Lemma effects_speak_if_guided (t : string) (s : State) :
  truthy t = true ->
  effects (speak_if_guided t s) = effects s ++ (if guided s then [Speak t] else []).
Proof.
  intros H. unfold speak_if_guided, _speak. rewrite H.
  destruct (guided s); simpl; [reflexivity|]. by rewrite app_nil_r.
Qed.


End ConfirmFacts.

Section ConfirmGui.
Import PyStr.



End ConfirmGui.

Section ConfirmTheorem.
Context {W : Shell.World}.
Import Shell PyStr.


End ConfirmTheorem.



(** ** What the handlers keep: stable, typed and gated actions *)

Section StableFacts.
Context {W : Shell.World}.
Import Shell PyStr.

Variable Q : State -> Prop.
Hypothesis HS : Stable Q.

(** A step that leaves [view] as it is, up to computation. *)
Ltac same_view :=
  lazymatch goal with
  | |- Q ?t =>
      lazymatch t with
      | ?f ?s0 =>
          lazymatch f with
          | set_guided_mode _ => idtac
          | set_current_model _ => idtac
          | set_current_reasoning _ => idtac
          | set_tts_speed _ => idtac
          | set_buffer_mode _ => idtac
          | set_use_color _ => idtac
          | set_debug_enabled _ => idtac
          | set_assistant_name _ => idtac
          | set_voice_index _ => idtac
          | set_logger_enable_debug _ => idtac
          | set_profile _ => idtac
          | set_prompt_capture _ => idtac
          | set_prompt_text _ => idtac
          | set_listening _ => idtac
          | set_vosk_loaded _ => idtac
          | set_last_codex_prompt _ => idtac
          | set_last_codex_response _ => idtac
          end;
          apply (stable_view Q HS s0 t); [reflexivity|]
      end
  end.

Lemma stable_emit (e : effect) (s : State) :
  consequential e = false -> Q s -> Q (emit e s).
Proof.
  intros He. apply (stable_view Q HS). unfold view, emit. simpl.
  rewrite List.filter_app. simpl. rewrite He, app_nil_r. reflexivity.
Qed.

Lemma stable_print (t : string) (b : bool) (s : State) : Q s -> Q (_print t b s).
Proof.
  intros H. unfold _print.
  pose proof (stable_emit (Out t) s eq_refl H) as H1.
  destruct (b && truthy t); [|exact H1].
  exact (stable_append Q HS [t] _ H1).
Qed.

Lemma stable_speak (t : string) (s : State) : Q s -> Q (_speak t s).
Proof.
  intros H. unfold _speak. destruct (truthy t); [|exact H].
  by apply stable_emit.
Qed.

Lemma stable_speak_if_guided (t : string) (s : State) :
  Q s -> Q (speak_if_guided t s).
Proof.
  intros H. unfold speak_if_guided. destruct (guided s); [|exact H].
  by apply stable_speak.
Qed.

Lemma stable_print_status (s : State) : Q s -> Q (_print_status s).
Proof. apply stable_print. Qed.

Lemma stable_log_session (m : string) (s : State) : Q s -> Q (log_session m s).
Proof.
  intros H. unfold log_session. destruct (logger_enable_session_log s); [|exact H].
  by apply stable_emit.
Qed.

Lemma stable_print_all (lines : list string) (s : State) :
  Q s -> Q (print_all lines s).
Proof.
  unfold print_all. revert s. induction lines as [|l lines IH]; intros s H;
    [exact H|].
  simpl. apply IH. by apply stable_print.
Qed.

Lemma stable_print_each (lines : list string) (s : State) :
  Q s -> Q (fold_left (fun s l => _print l false s) lines s).
Proof.
  revert s. induction lines as [|l lines IH]; intros s H; [exact H|].
  simpl. apply IH. by apply stable_print.
Qed.

(** Case analysis on the innermost test a term branches on. A local
    definition met on the way is dealt with first: a session or a result
    for which [Q] can be shown is replaced by a variable, anything else is
    substituted. *)
Ltac split_on x :=
  lazymatch x with
  | if ?c then _ else _ => split_on c
  | match ?y with _ => _ end => split_on y
  | let y := ?a in @?b y =>
      let inline_it :=
        (lazymatch goal with
         | |- context C [x] => let g := context C [b a] in change g
         end; cbv beta) in
      let name_it h :=
        (let Hq := fresh "Hq" in
         assert (Hq : h);
         [ | inline_it; revert Hq; generalize a;
             let v := fresh "s" in intros v Hq ]) in
      lazymatch type of a with
      | State =>
          lazymatch a with
          | context [clear_buffer] => inline_it
          | set_pending_shell_command _ _ => inline_it
          | set_exit_requested _ _ => inline_it
          | _ => name_it (Q a)
          end
      | result => name_it (Q (st a))
      | _ => inline_it
      end
  | _ => destruct x eqn:?
  end.

(** The handlers already dealt with; extended as the lemmas come. *)
Ltac known := fail.

(** One step of a proof that [Q] survives a handler: peel the outermost
    action, or split on the test the handler branches on. *)
Ltac peel :=
  first [ known |
  lazymatch goal with
  | H : Q ?s |- Q ?s => exact H
  | |- Q (let _ := _ in _) => lazymatch goal with |- Q ?t => split_on t end
  | |- Q (if ?c then _ else _) => split_on c
  | |- Q (match ?x with _ => _ end) => split_on x
  | |- Q (_print _ _ _) => apply stable_print
  | |- Q (_speak _ _) => apply stable_speak
  | |- Q (speak_if_guided _ _) => apply stable_speak_if_guided
  | |- Q (_print_status _) => apply stable_print_status
  | |- Q (log_session _ _) => apply stable_log_session
  | |- Q (print_all _ _) => apply stable_print_all
  | |- Q (fold_left _ _ _) => apply stable_print_each
  | |- Q (emit _ _) => apply stable_emit; [reflexivity|]
  | |- Q (mark_anchor _) => apply (stable_mark_anchor Q HS)
  | |- Q (mark_last_action _) => apply (stable_mark_last Q HS)
  | |- Q (set_confirm_mode (Some _) _) =>
      apply (stable_confirm Q HS); [unfold voice_reasons; set_solver|]
  | |- Q (set_pending_shell_explanation (Some _) (set_pending_shell_command _ _)) =>
      apply (stable_pair Q HS); [assumption|]
  | |- Q (set_pending_shell_explanation None (set_pending_shell_command None _)) =>
      apply (stable_unpair Q HS)
  | |- Q (set_pending_shell_explanation None _) =>
      apply (stable_drop_explanation Q HS)
  | |- Q (set_confirm_mode None _) => apply (stable_close_confirm Q HS)
  | |- Q (set_terminal_buffer (terminal_buffer ?s ++ _) ?s) =>
      apply (stable_append Q HS)
  | |- Q (_ _) => same_view
  end ].

Ltac peel_all := cbv beta iota; repeat (peel; cbv beta iota).

Lemma stable_init_stt (s : State) : Q s -> Q (_init_stt s).
Proof. intros H. cbv delta [_init_stt]. peel_all. Qed.

Lemma stable_run_codex_prompt (p : string) (s : State) :
  Q s -> Q (_run_codex_prompt p s).
Proof. intros H. cbv delta [_run_codex_prompt]. peel_all. Qed.

Lemma stable_print_history_preview (n : nat) (s : State) :
  Q s -> Q (_print_history_preview n s).
Proof. intros H. cbv delta [_print_history_preview]. peel_all. Qed.

Ltac known ::=
  lazymatch goal with
  | |- Q (_init_stt _) => apply stable_init_stt
  | |- Q (_run_codex_prompt _ _) => apply stable_run_codex_prompt
  | |- Q (_print_history_preview _ _) => apply stable_print_history_preview
  end.

Lemma truthy_opt_some (c : option string) :
  truthy_opt c = true -> exists x, c = Some x.
Proof. destruct c; [by eexists|discriminate]. Qed.

Lemma stable_voice_shell_request (s : State) : Q s -> Q (_voice_shell_request s).
Proof. intros H. cbv delta [_voice_shell_request]. peel_all. Qed.

Lemma stable_voice_app_command_request (s : State) :
  Q s -> Q (_voice_app_command_request s).
Proof. intros H. cbv delta [_voice_app_command_request]. peel_all. Qed.

Lemma stable_print_settings (s : State) : Q s -> Q (_print_settings s).
Proof. intros H. cbv delta [_print_settings]. peel_all. Qed.

Lemma stable_model_set (name : string) (s : State) : Q s -> Q (model_set name s).
Proof. intros H. cbv delta [model_set]. peel_all. Qed.

Ltac known ::=
  lazymatch goal with
  | |- Q (_init_stt _) => apply stable_init_stt
  | |- Q (_run_codex_prompt _ _) => apply stable_run_codex_prompt
  | |- Q (_print_history_preview _ _) => apply stable_print_history_preview
  | |- Q (_voice_shell_request _) => apply stable_voice_shell_request
  | |- Q (_voice_app_command_request _) => apply stable_voice_app_command_request
  | |- Q (_print_settings _) => apply stable_print_settings
  | |- Q (model_set _ _) => apply stable_model_set
  end.

Lemma stable_handle_model_voice (tail : string) (s : State) :
  Q s -> Q (_handle_model_voice tail s).
Proof. intros H. cbv delta [_handle_model_voice]. peel_all. Qed.

Lemma stable_speak_help (s : State) : Q s -> Q (_speak_help s).
Proof. intros H. cbv delta [_speak_help]. peel_all. Qed.

Lemma stable_wake_mode (w : string) (s : State) : Q s -> Q (wake_mode w s).
Proof. intros H. cbv delta [wake_mode]. peel_all. Qed.

Lemma stable_wake_reasoning (w : string) (s : State) : Q s -> Q (wake_reasoning w s).
Proof. intros H. cbv delta [wake_reasoning]. peel_all. Qed.

Lemma stable_wake_buffer (tokens : list string) (s : State) :
  Q s -> Q (wake_buffer tokens s).
Proof. intros H. cbv delta [wake_buffer]. peel_all. Qed.

Lemma stable_wake_execute (s : State) : Q s -> Q (wake_execute s).
Proof. intros H. cbv delta [wake_execute]. peel_all. Qed.

Lemma stable_wake_speed (tokens : list string) (s : State) :
  Q s -> Q (wake_speed tokens s).
Proof. intros H. cbv delta [wake_speed]. peel_all. Qed.

Lemma stable_wake_color (w : string) (s : State) : Q s -> Q (wake_color w s).
Proof. intros H. cbv delta [wake_color]. peel_all. Qed.

Lemma stable_wake_debug (w : string) (s : State) : Q s -> Q (wake_debug w s).
Proof. intros H. cbv delta [wake_debug]. peel_all. Qed.

Ltac known ::=
  lazymatch goal with
  | |- Q (_init_stt _) => apply stable_init_stt
  | |- Q (_run_codex_prompt _ _) => apply stable_run_codex_prompt
  | |- Q (_print_history_preview _ _) => apply stable_print_history_preview
  | |- Q (_voice_shell_request _) => apply stable_voice_shell_request
  | |- Q (_voice_app_command_request _) => apply stable_voice_app_command_request
  | |- Q (_print_settings _) => apply stable_print_settings
  | |- Q (model_set _ _) => apply stable_model_set
  | |- Q (_handle_model_voice _ _) => apply stable_handle_model_voice
  | |- Q (_speak_help _) => apply stable_speak_help
  | |- Q (wake_mode _ _) => apply stable_wake_mode
  | |- Q (wake_reasoning _ _) => apply stable_wake_reasoning
  | |- Q (wake_buffer _ _) => apply stable_wake_buffer
  | |- Q (wake_execute _) => apply stable_wake_execute
  | |- Q (wake_speed _ _) => apply stable_wake_speed
  | |- Q (wake_color _ _) => apply stable_wake_color
  | |- Q (wake_debug _ _) => apply stable_wake_debug
  end.

Lemma stable_wake_body (self_test : string -> State -> State)
    (tokens : list string) (s : State) :
  (forall m s, Q s -> Q (self_test m s)) ->
  Q s -> Q (wake_body self_test tokens s).
Proof.
  intros Hself H. cbv delta [wake_body].
  cbv beta iota.
  repeat (first [ lazymatch goal with
                  | |- Q (self_test _ _) => apply Hself
                  end
                | peel ]; cbv beta iota).
Qed.

Lemma stable_wake_with (self_test : string -> State -> State)
    (tokens : list string) (s : State) :
  (forall m s, Q s -> Q (self_test m s)) ->
  Q s -> Q (wake_with self_test tokens s).
Proof.
  intros Hself H. unfold wake_with. apply stable_print_status.
  by apply stable_wake_body.
Qed.

Lemma stable_record (m : string) (s : State) : Q s -> Q (record m s).
Proof. apply stable_print. Qed.

Lemma stable_run_self_test (mode : string) (s : State) :
  Q s -> Q (_run_self_test mode s).
Proof.
  intros H. cbv delta [_run_self_test]. cbv beta iota.
  repeat (first [ lazymatch goal with
                  | |- Q (record _ _) => apply stable_record
                  | |- Q (wake_with _ _ _) =>
                      apply stable_wake_with; [intros; assumption|]
                  end
                | peel ]; cbv beta iota).
Qed.

Lemma stable_handle_wake_command (tokens : list string) (s : State) :
  Q s -> Q (_handle_wake_command tokens s).
Proof.
  intros H. unfold _handle_wake_command.
  apply stable_wake_with; [|exact H]. intros. by apply stable_run_self_test.
Qed.

Lemma stable_print_banner (s : State) : Q s -> Q (_print_banner s).
Proof. intros H. cbv delta [_print_banner]. peel_all. Qed.

(** *** Typed commands, answers and confirmations *)

Lemma accepts_alt (line : string) :
  mem (lower (strip line)) ["yes"; "y"; "confirm"] = accepts line.
Proof.
  unfold accepts, mem. simpl.
  destruct (String.eqb _ "yes"), (String.eqb _ "y"); reflexivity.
Qed.

(** Where the permission for a gated action comes from: it is at hand, or
    an answer just read accepts. *)
Ltac gated_now :=
  first
    [ assumption
    | lazymatch goal with
      | Hex : _ -> Gated Q |- Gated Q =>
          apply Hex;
          first [ assumption | reflexivity
                | apply Exists_cons_hd; assumption
                | apply Exists_cons_tl; apply Exists_cons_hd; assumption ]
      end ].

Ltac known ::=
  lazymatch goal with
  | |- Q (_init_stt _) => apply stable_init_stt
  | |- Q (_run_codex_prompt _ _) => apply stable_run_codex_prompt
  | |- Q (_print_history_preview _ _) => apply stable_print_history_preview
  | |- Q (_voice_shell_request _) => apply stable_voice_shell_request
  | |- Q (_voice_app_command_request _) => apply stable_voice_app_command_request
  | |- Q (_print_settings _) => apply stable_print_settings
  | |- Q (_handle_wake_command _ _) => apply stable_handle_wake_command
  | |- Q (_print_banner _) => apply stable_print_banner
  | |- Q (st (ret ?x _)) => change (Q x)
  | |- Q (st (throw _ ?x _)) => change (Q x)
  | |- Q (st (snd (_, ?r))) => change (Q (st r))
  | |- Q (st (snd ?u)) =>
      lazymatch u with
      | if _ then _ else _ => split_on u
      | match _ with _ => _ end => split_on u
      | let _ := _ in _ => split_on u
      end
  | |- Q (st ?t) =>
      lazymatch t with
      | if _ then _ else _ => split_on t
      | match _ with _ => _ end => split_on t
      | let _ := _ in _ => split_on t
      end
  | HT : Typed Q |- Q (set_save_recordings _ _) =>
      apply (typed_save_recordings Q HT)
  | HT : Typed Q |- Q (set_save_prompts _ _) => apply (typed_save_prompts Q HT)
  | HT : Typed Q |- Q (set_logger_enable_session_log _ _) =>
      apply (typed_session_log Q HT)
  | HT : Typed Q |- Q (emit (OsCall _) _) => apply (typed_os_call Q HT)
  | HT : Typed Q |- Q (emit ClearScreen _) => apply (typed_clear_screen Q HT)
  | HT : Typed Q
    |- Q (mark_last_action (mark_anchor (_print _ true (clear_buffer _)))) =>
      apply (typed_clear Q HT); [reflexivity|]
  | |- Q (emit WriteSettings _) =>
      apply (gated_write_settings Q); [gated_now|]
  | |- Q (emit (Dispatch _) _) => apply (gated_dispatch Q); [gated_now|]
  | |- Q (set_exit_requested true _) => apply (gated_exit Q); [gated_now|]
  end.

Lemma keeps_run_shell_command (command : string) (s : State) :
  Typed Q -> Q s -> Q (_run_shell_command command s).
Proof. intros HT H. cbv delta [_run_shell_command]. peel_all. Qed.

Lemma keeps_save_settings (s : State) : Gated Q -> Q s -> Q (_save_settings s).
Proof. intros HG H. cbv delta [_save_settings]. peel_all. Qed.

Lemma keeps_typed_buffer (parts : list string) (s : State) :
  Q s -> Q (typed_buffer parts s).
Proof. intros H. cbv delta [typed_buffer]. peel_all. Qed.

Lemma keeps_typed_prompt (inp : list string) (s : State) :
  Q s -> Q (st (typed_prompt inp s)).
Proof. intros H. cbv delta [typed_prompt]. peel_all. Qed.

Lemma keeps_typed_save (inp : list string) (s : State) :
  (Exists (fun a => accepts a = true) inp -> Gated Q) ->
  Q s -> Q (st (typed_save inp s)).
Proof.
  intros Hex H. cbv delta [typed_save]. cbv beta iota.
  repeat (first [ lazymatch goal with
                  | |- Q (_save_settings _) =>
                      apply keeps_save_settings; [gated_now|]
                  end
                | peel ]; cbv beta iota).
Qed.

Lemma keeps_typed_exit (inp : list string) (s : State) :
  (Exists (fun a => accepts a = true) inp -> Gated Q) ->
  Q s -> Q (st (typed_exit inp s)).
Proof. intros Hex H. cbv delta [typed_exit]. peel_all. Qed.

(** One step for the handlers that read answers. *)
Ltac peel_typed :=
  first
    [ lazymatch goal with
      | |- Q (_run_shell_command _ _) =>
          apply keeps_run_shell_command; [assumption|]
      | |- Q (_save_settings _) => apply keeps_save_settings; [gated_now|]
      | |- Q (typed_buffer _ _) => apply keeps_typed_buffer
      | |- Q (st (typed_prompt _ _)) => apply keeps_typed_prompt
      | |- Q (st (typed_save _ _)) => apply keeps_typed_save; [assumption|]
      | |- Q (st (typed_exit _ _)) => apply keeps_typed_exit; [assumption|]
      end
    | peel ].

Lemma keeps_typed_command (inp : list string) :
  Typed Q ->
  forall (line : string) (s : State),
    (Exists (fun a => accepts a = true) inp -> Gated Q) ->
    Q s -> Q (st (_handle_typed_voice_command inp line s)).
Proof.
  intros HT. induction inp as [|a inp IH]; intros line s Hex H;
    cbv delta [_handle_typed_voice_command]; cbv beta iota;
    repeat (first [ lazymatch goal with
                    | |- Q (st (?f inp ?l ?s')) =>
                        change (Q (st (_handle_typed_voice_command inp l s')));
                        apply IH; [intros _; gated_now|]
                    end
                  | peel_typed ]; cbv beta iota).
Qed.

Lemma reason_is_clear (s : State) :
  String.eqb (default "" (confirm_mode s)) "clear" = true ->
  confirm_mode s = Some "clear".
Proof.
  intros E. apply String.eqb_eq in E. destruct (confirm_mode s) as [m|].
  - simpl in E. by rewrite E.
  - discriminate.
Qed.

(** An accepted confirmation needs the typed and the gated actions; a
    declined one needs neither. *)
Lemma keeps_apply_confirm_decision (accepted : bool) (inp : list string)
    (s : State) :
  (accepted = true -> Typed Q /\ Gated Q) ->
  Q s -> Q (st (_apply_confirm_decision accepted inp s)).
Proof.
  intros Hacc H. cbv delta [_apply_confirm_decision]. cbv beta zeta.
  destruct (negb (truthy_opt (confirm_mode s))); [peel_all|].
  destruct accepted; cbv beta iota; [|unfold negb; peel_all].
  destruct (Hacc eq_refl) as [HT HG]. unfold negb at 1.
  repeat (first [ lazymatch goal with
                  | |- Q (st (_handle_typed_voice_command _ _ _)) =>
                      apply keeps_typed_command;
                      [assumption|intros _; assumption|]
                  | E : String.eqb (default "" (confirm_mode s)) "clear" = true
                    |- Q (_print _ true (clear_buffer (set_confirm_mode None s))) =>
                      apply (gated_clear Q HG);
                      [assumption|exact (reason_is_clear s E)]
                  end
                | peel_typed ]; cbv beta iota).
Qed.

Lemma keeps_confirm_voice (tokens inp : list string) (s : State) :
  (fuzzy (hd "" tokens) (_get_yes_variants s) = true -> Typed Q /\ Gated Q) ->
  Q s -> Q (st (_handle_confirm_voice tokens inp s)).
Proof.
  intros Hacc H. cbv delta [_handle_confirm_voice]. cbv beta zeta.
  destruct (fuzzy (hd "" tokens) (_get_yes_variants s)).
  - by apply keeps_apply_confirm_decision.
  - destruct (fuzzy (hd "" tokens) (_get_no_variants s)).
    + by apply keeps_apply_confirm_decision.
    + by apply stable_speak_if_guided.
Qed.

Lemma keeps_voice_text (text : string) (inp : list string) (s : State) :
  (truthy_opt (confirm_mode s) = true ->
   fuzzy (hd "" (_tokenize text)) (_get_yes_variants s) = true ->
   Typed Q /\ Gated Q) ->
  Q s -> Q (st (_handle_voice_text text inp s)).
Proof.
  intros Hacc H. cbv delta [_handle_voice_text]. cbv beta.
  destruct (_tokenize text) as [|first rest] eqn:Et; [exact H|]. cbv beta iota zeta.
  destruct (truthy_opt (confirm_mode s)) eqn:Ec.
  - apply keeps_confirm_voice; [|exact H]. exact (Hacc eq_refl).
  - clear Hacc. peel_all.
Qed.

Lemma keeps_vosk_result (text : string) (inp : list string) (s : State) :
  (truthy_opt (confirm_mode s) = true ->
   fuzzy (hd "" (_tokenize (strip text))) (_get_yes_variants s) = true ->
   Typed Q /\ Gated Q) ->
  Q s -> Q (st (_handle_vosk_result text inp s)).
Proof.
  intros Hacc H. cbv delta [_handle_vosk_result]. cbv beta zeta.
  destruct (negb (truthy (strip text))); [exact H|].
  destruct (mem (lower (strip text)) _); [exact H|].
  by apply keeps_voice_text.
Qed.

Lemma keeps_run_iteration (inp : list string) (s : State) :
  Typed Q ->
  (Exists (fun a => accepts a = true) inp -> Gated Q) ->
  Q s -> Q (st (snd (run_iteration inp s))).
Proof.
  intros HT Hex H. cbv delta [run_iteration]. cbv beta iota.
  repeat (first [ lazymatch goal with
                  | |- Q (st (_handle_typed_voice_command _ _ _)) =>
                      apply keeps_typed_command;
                      [assumption|intros ?; apply Hex; by right|]
                  | |- Q (st (_apply_confirm_decision _ _ _)) =>
                      apply keeps_apply_confirm_decision;
                      [rewrite accepts_alt; intros ?; split;
                       [assumption|apply Hex; by left]|]
                  end
                | peel_typed ]; cbv beta iota).
Qed.

(** A property kept by the typed and by the gated actions is kept by every
    operation, so it holds in every reachable session once it holds in the
    initial ones. *)
Lemma kept_by_step (s s' : State) :
  Typed Q -> Gated Q -> step s s' -> Q s -> Q s'.
Proof.
  intros HT HG Hstep H. destruct Hstep as [text inp s|inp s].
  - by apply keeps_vosk_result.
  - by apply keeps_run_iteration.
Qed.

Lemma kept_when_reachable (s : State) :
  Typed Q -> Gated Q -> (forall s0, initial s0 -> Q s0) -> reachable s -> Q s.
Proof.
  intros HT HG Hinit Hr. induction Hr as [s Hi|s s' _ IH Hstep].
  - by apply Hinit.
  - by apply (kept_by_step s s').
Qed.

End StableFacts.

(** ** The properties kept along every run *)

Section Kept.
Context {W : Shell.World}.
Import Shell PyStr.

Lemma gated_of_consequential (l : list effect) :
  List.filter gated (List.filter consequential l) = List.filter gated l.
Proof.
  induction l as [|e l IH]; [reflexivity|].
  destruct e; simpl; rewrite ?IH; reflexivity.
Qed.

Lemma truthy_opt_not_none (c : option string) : truthy_opt c = true -> c <> None.
Proof. destruct c; [discriminate|discriminate]. Qed.

(** Two sessions with the same view: bring the goal back to the first. *)
Ltac by_view Hv :=
  unfold view in Hv; injection Hv as ? ? ? ? ? ? ? ? ? ? ?;
  repeat match goal with
         | E : _ = _ |- _ => try rewrite <- E; clear E
         end.

Ltac fields :=
  unfold _print, emit, mark_last_action, mark_anchor, clear_buffer; simpl;
  repeat match goal with
         | H : truthy _ = true |- _ => rewrite H
         end; simpl.

(** No explanation without a command. *)
Lemma explained_stable : Stable explained_only_with_command.
Proof.
  split; unfold explained_only_with_command.
  - intros s s' Hv H. by_view Hv. exact H.
  - intros l s H. exact H.
  - intros s H. exact H.
  - intros s H. exact H.
  - intros m s _ H. exact H.
  - intros s _ H. simpl in H. contradiction.
  - intros c e s Hc _ _. simpl. by apply truthy_opt_not_none.
  - intros s _ H. simpl in H. contradiction.
  - intros s H. exact H.
Qed.

Lemma explained_typed : Typed explained_only_with_command.
Proof.
  split; [exact explained_stable|..]; unfold explained_only_with_command;
    try (intros; simpl in *; tauto).
  intros t s Ht H. fields. exact H.
Qed.

Lemma explained_gated : Gated explained_only_with_command.
Proof.
  split; unfold explained_only_with_command; try (intros; simpl in *; tauto).
  intros t s H _. unfold _print. simpl.
  destruct (truthy t); exact H.
Qed.

(** Both indices inside the buffer. *)
Lemma not_clear (m : string) : m ∈ voice_reasons -> Some m <> Some "clear".
Proof.
  unfold voice_reasons. intros Hm [= ->].
  repeat (apply elem_of_cons in Hm as [Hm|Hm]; [discriminate|]).
  by apply elem_of_nil in Hm.
Qed.

Lemma indices_stable : Stable indices_ok.
Proof.
  split; unfold indices_ok, indices_in_buffer.
  - intros s s' Hv H. by_view Hv. exact H.
  - intros l s [H Hc]. split; [|exact Hc]. simpl. rewrite length_app. lia.
  - intros s [H Hc]. split; [|exact Hc]. unfold mark_anchor. simpl. lia.
  - intros s [H Hc]. split; [|exact Hc]. unfold mark_last_action. simpl. lia.
  - intros m s Hm [H _]. split; [exact H|]. simpl. by apply not_clear.
  - intros s H. exact H.
  - intros c e s _ H. exact H.
  - intros s H. exact H.
  - intros s [H _]. split; [exact H|]. simpl. discriminate.
Qed.

Lemma indices_typed : Typed indices_ok.
Proof.
  split; [exact indices_stable|..]; unfold indices_ok, indices_in_buffer;
    try (intros; simpl in *; tauto).
  intros t s Ht [_ Hc]. fields. split; [lia|exact Hc].
Qed.

Lemma indices_gated : Gated indices_ok.
Proof.
  split; unfold indices_ok, indices_in_buffer; intros; simpl in *; tauto.
Qed.

(** Nothing of consequence since [s0]. *)
Lemma untouched_stable (s0 : State) : Stable (untouched s0).
Proof.
  split; unfold untouched; try (intros; simpl in *; tauto).
  - intros s s' Hv H. by_view Hv. exact H.
  - intros l s (H & Hrest). split; [|exact Hrest]. simpl. by apply prefix_app_r.
Qed.

(** No gated action since [s0]. *)
Lemma ungated_typed (s0 : State) : Typed (ungated s0).
Proof.
  split; [split|..]; unfold ungated; try (intros; simpl in *; tauto).
  - intros s s' Hv [H1 H2].
    rewrite <- (gated_of_consequential (effects s')).
    rewrite <- (gated_of_consequential (effects s)) in H2.
    by_view Hv. by split.
  - intros c s [H1 H2]. split; [exact H1|]. unfold emit. simpl.
    rewrite List.filter_app. simpl. by rewrite app_nil_r.
  - intros s [H1 H2]. split; [exact H1|]. unfold emit. simpl.
    rewrite List.filter_app. simpl. by rewrite app_nil_r.
  - intros t s Ht [H1 H2]. fields. split; [exact H1|].
    rewrite List.filter_app. simpl. by rewrite app_nil_r.
Qed.

End Kept.

(** ** Reachable sessions *)

Section ReachableFacts.
Context {W : Shell.World}.
Import Shell PyStr.

Lemma initial_indices_ok (s : State) : initial s -> indices_ok s.
Proof.
  intros (Ha & Hl & _ & _ & _ & _ & _ & Hc & _).
  unfold indices_ok, indices_in_buffer. rewrite Ha, Hl, Hc.
  split; [lia|discriminate].
Qed.

Lemma initial_explained (s : State) : initial s -> explained_only_with_command s.
Proof.
  intros (_ & _ & _ & He & _) H. contradiction.
Qed.

Lemma reachable_indices_ok (s : State) : reachable s -> indices_ok s.
Proof.
  apply (kept_when_reachable indices_ok indices_stable s indices_typed indices_gated).
  exact initial_indices_ok.
Qed.

Lemma reachable_explained (s : State) :
  reachable s -> explained_only_with_command s.
Proof.
  apply (kept_when_reachable explained_only_with_command explained_stable s
           explained_typed explained_gated).
  exact initial_explained.
Qed.

Lemma untouched_refl (s : State) : untouched s s.
Proof. by repeat split. Qed.

Lemma ungated_refl (s : State) : ungated s s.
Proof. by split. Qed.

Lemma no_accept (inp : list string) :
  Forall (fun a => accepts a = false) inp ->
  Exists (fun a => accepts a = true) inp -> False.
Proof.
  intros Hall Hex. induction Hex as [a inp Ha|a inp _ IH].
  - apply Forall_inv in Hall. congruence.
  - apply IH. exact (Forall_inv_tail Hall).
Qed.

(** Without an accepting answer the main loop ends only on a request made
    earlier or at the end of input. *)
Lemma break_needs_accept (inp : list string) (s : State) :
  Forall (fun a => accepts a = false) inp ->
  fst (run_iteration inp s) = Break ->
  _exit_requested s = true \/ inp = [].
Proof.
  intros Hall. unfold run_iteration.
  destruct (_exit_requested s); [by left|].
  destruct inp as [|line inp]; [by right|].
  intros Hb. exfalso. revert Hb. cbv zeta.
  repeat lazymatch goal with
         | |- fst (if ?c then _ else _) = Break -> False => destruct c eqn:?
         | |- fst (match ?x with _ => _ end) = Break -> False => destruct x eqn:?
         end;
    cbn [fst];
    try discriminate;
    try (destruct (raised _); discriminate).
  apply Forall_inv_tail, Forall_inv in Hall. congruence.
Qed.

End ReachableFacts.

Lemma start_reachable : Shell.reachable Demo.start.
Proof. apply Shell.reach_init. by repeat split. Qed.

Lemma ten_lines_reachable : Shell.reachable Demo.ten_lines.
Proof. apply Shell.reach_init. by repeat split. Qed.

Lemma with_proposal_reachable : Shell.reachable Demo.with_proposal.
Proof.
  eapply Shell.reach_step; [|apply Shell.step_typed].
  eapply Shell.reach_step; [|apply Shell.step_typed].
  exact start_reachable.
Qed.

(** ** Indices and buffer length *)

Section IndicesTheorem.
Context {W : Shell.World}.
Import Shell PyStr.

(** C3. In every reachable session both the anchor index and the
    last-action index lie between 0 and the length of the terminal buffer,
    and so they do after one more operation, whichever it is: the typed
    commands that clear the buffer reset both indices to the new length,
    and no command opens the confirmation whose acceptance would clear the
    buffer without resetting them. *)
Theorem indices_within_buffer (s : State) :
  reachable s ->
  indices_in_buffer s
  /\ confirm_mode s <> Some "clear"
  /\ forall s', step s s' -> indices_in_buffer s'.
Proof.
  intros Hr. destruct (reachable_indices_ok s Hr) as [Hi Hc].
  split; [exact Hi|]. split; [exact Hc|].
  intros s' Hstep.
  exact (proj1 (reachable_indices_ok s' (reach_step s s' Hr Hstep))).
Qed.

End IndicesTheorem.

(** After the typed command [v-clear] on a ten-line buffer the buffer holds
    one line and both indices are 1. *)
Lemma indices_within_buffer_witness :
  indices_in_buffer
    (Shell.st (snd (Shell.run_iteration ["v-clear"] Demo.ten_lines))).
Proof.
  apply (fun H => proj2 (proj2 (indices_within_buffer Demo.ten_lines H))).
  - apply Shell.reach_init. by repeat split.
  - apply Shell.step_typed.
Defined.

Example indices_after_typed_clear :
  let s := Shell.st (snd (Shell.run_iteration ["v-clear"] Demo.ten_lines)) in
  Shell.terminal_buffer s = ["[CMD] Buffer cleared."]
  /\ Shell.buffer_anchor_index s = 1%Z
  /\ Shell.buffer_last_action_index s = 1%Z.
Proof. repeat split; vm_compute; reflexivity. Qed.

(** ** Pending command and explanation *)

Section PairingTheorem.
Context {W : Shell.World}.
Import Shell PyStr.

(** C2, as amended. In every reachable session, and after every further
    operation, a pending explanation comes with a pending command. *)
Theorem explanation_needs_command (s : State) :
  reachable s ->
  explained_only_with_command s
  /\ forall s', step s s' -> explained_only_with_command s'.
Proof.
  intros Hr. split; [by apply reachable_explained|].
  intros s' Hstep. apply reachable_explained. exact (reach_step s s' Hr Hstep).
Qed.

End PairingTheorem.

Lemma explanation_needs_command_witness :
  explained_only_with_command Demo.with_proposal.
Proof.
  apply (fun H => proj2 (explanation_needs_command Demo.with_prompt H)).
  - eapply Shell.reach_step; [|apply Shell.step_typed].
    apply Shell.reach_init. by repeat split.
  - apply Shell.step_typed.
Defined.

(** C2 as stated fails: the voice command that runs the prompt resets the
    explanation and leaves the command. Three operations after start-up the
    command of the last proposal is still pending, without explanation. *)
Lemma pairing_counterexample :
  Shell.reachable Demo.after_voice_run
  /\ Shell.pending_shell_command Demo.with_proposal = Some "ls -la"
  /\ Shell.pending_shell_explanation Demo.with_proposal = Some "list files"
  /\ Shell.pending_shell_command Demo.after_voice_run = Some "ls -la"
  /\ Shell.pending_shell_explanation Demo.after_voice_run = None.
Proof.
  split.
  - eapply Shell.reach_step; [exact with_proposal_reachable|apply Shell.step_voice].
  - repeat split; vm_compute; reflexivity.
Qed.

(** ** Consequential actions and acceptance *)

Section AcceptTheorem.
Context {W : Shell.World}.
Import Shell PyStr.

(** C1, as amended. On the voice path nothing of consequence happens
    unless a confirmation is pending and the first token of the utterance
    matches a yes-variant: the buffer only grows, the exit request, the
    recording and logging switches stay as they are, and no command is run
    or dispatched, no settings are written and the screen is not cleared.
    On the typed path a pass of the main loop in which no line read is one
    of y, yes, confirm dispatches no proposed command, writes no settings,
    requests no exit, and ends the loop only on an earlier request or at the
    end of input. The typed commands that clear the buffer or switch
    recording and logging on are outside this: they act at once. *)
Theorem gated_actions_need_accept :
  (forall (text : string) (inp : list string) (s : State),
      ~ (truthy_opt (confirm_mode s) = true
         /\ fuzzy (hd "" (_tokenize (strip text))) (_get_yes_variants s) = true) ->
      untouched s (st (_handle_vosk_result text inp s)))
  /\ (forall (inp : list string) (s : State),
         Forall (fun a => accepts a = false) inp ->
         ungated s (st (snd (run_iteration inp s)))
         /\ (fst (run_iteration inp s) = Break ->
             _exit_requested s = true \/ inp = [])).
Proof.
  split.
  - intros text inp s Hno.
    apply (keeps_vosk_result (untouched s) (untouched_stable s)).
    + intros Hc Hy. exfalso. apply Hno. by split.
    + apply untouched_refl.
  - intros inp s Hall. split; [|by apply break_needs_accept].
    apply (keeps_run_iteration (ungated s)
             (typed_stable _ (ungated_typed s)) inp s (ungated_typed s)).
    + intros Hex. exfalso. exact (no_accept inp Hall Hex).
    + apply ungated_refl.
Qed.

End AcceptTheorem.

(** The utterance "alice execute" with a proposal pending only opens the
    confirmation; the typed command [v-exec] answered with n dispatches
    nothing. *)
Lemma gated_actions_need_accept_witness :
  untouched Demo.with_proposal
    (Shell.st (Shell._handle_vosk_result "alice execute" [] Demo.with_proposal))
  /\ ungated Demo.with_proposal
       (Shell.st (snd (Shell.run_iteration ["v-exec"; "n"] Demo.with_proposal))).
Proof.
  destruct (@gated_actions_need_accept Demo.world) as [Hvoice Htyped].
  split.
  - apply Hvoice. intros [Hc _]. vm_compute in Hc. discriminate.
  - apply Htyped. repeat constructor.
Defined.

(** C1 as stated fails on the typed path: with no confirmation pending and
    no answer asked for, [v-clear] empties a ten-line buffer and
    [v-recordspeech-on] switches recording on. *)
Lemma direct_typed_actions_counterexample :
  Shell.confirm_mode Demo.ten_lines = None
  /\ length (Shell.terminal_buffer Demo.ten_lines) = 10
  /\ Shell.terminal_buffer
       (Shell.st (snd (Shell.run_iteration ["v-clear"] Demo.ten_lines)))
     = ["[CMD] Buffer cleared."]
  /\ Shell.confirm_mode Demo.recording_off = None
  /\ Shell.save_recordings (Shell.settings Demo.recording_off) = false
  /\ Shell.save_recordings
       (Shell.settings
          (Shell.st (snd (Shell.run_iteration ["v-recordspeech-on"]
                            Demo.recording_off))))
     = true.
Proof. repeat split; vm_compute; reflexivity. Qed.

(** ** History window and preview *)

Section PreviewFacts.
Context {W : Shell.World}.
Import Shell PyStr.

Lemma effects_print_each (lines : list string) (s : State) :
  effects (fold_left (fun s l => _print l false s) lines s)
  = effects s ++ map Out lines.
Proof.
  revert s. induction lines as [|l lines IH]; intros s; simpl.
  - by rewrite app_nil_r.
  - rewrite IH, effects_print, <- app_assoc. reflexivity.
Qed.

Lemma buffer_print_each (lines : list string) (s : State) :
  terminal_buffer (fold_left (fun s l => _print l false s) lines s)
  = terminal_buffer s.
Proof.
  revert s. induction lines as [|l lines IH]; intros s; simpl; [reflexivity|].
  rewrite IH. reflexivity.
Qed.

Lemma preview_length (n : nat) (h : string) :
  length (preview_lines n h) = Nat.min n (length (splitlines h)).
Proof.
  unfold preview_lines. cbv zeta. rewrite length_imap, length_skipn. lia.
Qed.

Lemma policy_start_cases (s : State) :
  policy_start s = 0%Z \/ policy_start s = buffer_anchor_index s
  \/ policy_start s = buffer_last_action_index s.
Proof.
  unfold policy_start. cbv zeta.
  destruct (String.eqb _ "session"); [by left|].
  destruct (String.eqb _ "anchor"); [by right; left|].
  destruct (String.eqb _ "last"); [by right; right|by left].
Qed.

Lemma window_start_in_range (s : State) :
  (0 <= policy_start s <= Z.of_nat (length (terminal_buffer s)))%Z ->
  window_start s = policy_start s.
Proof.
  intros H. unfold window_start. cbv zeta.
  destruct (Z.ltb_spec (policy_start s) 0); [lia|].
  destruct (Z.ltb_spec (Z.of_nat (length (terminal_buffer s))) (policy_start s));
    [lia|reflexivity].
Qed.

Lemma window_lines_in_range (s : State) :
  (0 <= policy_start s <= Z.of_nat (length (terminal_buffer s)))%Z ->
  let slice := skipn (Z.to_nat (policy_start s)) (terminal_buffer s) in
  window_lines s = skipn (length slice - 400) slice.
Proof.
  intros H. cbv zeta. unfold window_lines.
  rewrite (window_start_in_range s H), (slice_from_in_range _ _ H).
  change (-400)%Z with (- Z.of_nat 400)%Z. apply slice_from_last. lia.
Qed.

Lemma history_is_window (s : State) :
  (0 <= policy_start s <= Z.of_nat (length (terminal_buffer s)))%Z ->
  _get_history_for_shell s = join nl (window_lines s).
Proof.
  intros H. unfold _get_history_for_shell.
  pose proof (window_lines_in_range s H) as Hw. cbv zeta in Hw.
  destruct (terminal_buffer s) as [|l buf] eqn:E; [|reflexivity].
  rewrite Hw, !skipn_nil. reflexivity.
Qed.

End PreviewFacts.

Section WindowTheorem.
Context {W : Shell.World}.
Import Shell PyStr.

(** C7. The start index is the one the policy names; in a reachable
    session it lies inside the buffer, and whenever it does the window is
    the buffer from that index on, cut to its last 400 entries, and the
    history is the window joined by line feeds. The preview shows, numbered,
    the last 40 lines of the history at most, after one heading, and leaves
    the buffer alone. For a buffer of ten entries the anchor policy with
    index 4 gives the last six, the session policy all ten, and the last
    policy with index 7 the last three. *)
Theorem history_window_and_preview (s : State) :
  let buf := terminal_buffer s in
  let start := policy_start s in
  let slice := skipn (Z.to_nat start) buf in
  let history := _get_history_for_shell s in
  let lines := splitlines history in
  let shown := preview_lines default_max_lines history in
  ((buffer_mode (settings s) = "session" -> start = 0%Z)
   /\ (buffer_mode (settings s) = "anchor" -> start = buffer_anchor_index s)
   /\ (buffer_mode (settings s) = "last" -> start = buffer_last_action_index s))
  /\ (reachable s -> (0 <= start <= Z.of_nat (length buf))%Z)
  /\ ((0 <= start <= Z.of_nat (length buf))%Z ->
      window_lines s = skipn (length slice - 400) slice
      /\ length (window_lines s) <= 400
      /\ history = join nl (window_lines s))
  /\ (length shown = Nat.min 40 (length lines)
      /\ (forall k line,
             skipn (length lines - 40) lines !! k = Some line ->
             shown !! k
             = Some ("[H] " +:+ format_4d (length lines - 40 + k + 1)
                     +:+ ": " +:+ line))
      /\ terminal_buffer (_print_history_preview default_max_lines s) = buf
      /\ (truthy (strip history) = true ->
          effects (_print_history_preview default_max_lines s)
          = effects s
            ++ Out "[HISTORY] Preview of buffer slice used for shell commands:"
               :: map Out shown))
  /\ (length buf = 10 ->
      (buffer_mode (settings s) = "anchor" -> buffer_anchor_index s = 4%Z ->
       window_lines s = skipn 4 buf /\ length (window_lines s) = 6)
      /\ (buffer_mode (settings s) = "session" ->
          window_lines s = buf /\ length (window_lines s) = 10)
      /\ (buffer_mode (settings s) = "last" -> buffer_last_action_index s = 7%Z ->
          window_lines s = skipn 7 buf /\ length (window_lines s) = 3)).
Proof.
  cbv zeta.
  assert (Hpol :
    (buffer_mode (settings s) = "session" -> policy_start s = 0%Z)
    /\ (buffer_mode (settings s) = "anchor" -> policy_start s = buffer_anchor_index s)
    /\ (buffer_mode (settings s) = "last"
        -> policy_start s = buffer_last_action_index s)).
  { unfold policy_start. cbv zeta.
    repeat split; intros ->; reflexivity. }
  assert (Hten : forall n : nat,
    length (terminal_buffer s) = 10 -> n <= 10 -> policy_start s = Z.of_nat n ->
    window_lines s = skipn n (terminal_buffer s)
    /\ length (window_lines s) = 10 - n).
  { intros n Hlen Hn Hp.
    assert (Hr : (0 <= policy_start s <= Z.of_nat (length (terminal_buffer s)))%Z)
      by lia.
    pose proof (window_lines_in_range s Hr) as Hw. cbv zeta in Hw.
    rewrite Hp, Nat2Z.id in Hw. rewrite length_skipn, Hlen in Hw.
    replace (10 - n - 400) with 0 in Hw by lia. rewrite skipn_O in Hw.
    split; [exact Hw|]. rewrite Hw, length_skipn. lia. }
  split; [exact Hpol|]. split; [|split; [|split]].
  - intros Hr. destruct (reachable_indices_ok s Hr) as [[Ha Hl] _].
    destruct (policy_start_cases s) as [->|[->| ->]]; [lia|exact Ha|exact Hl].
  - intros Hr. pose proof (window_lines_in_range s Hr) as Hw. cbv zeta in Hw.
    split; [exact Hw|]. split; [|by apply history_is_window].
    rewrite Hw, !length_skipn. lia.
  - split; [apply preview_length|]. split; [|split].
    + intros k line Hk. unfold preview_lines, default_max_lines. cbv zeta.
      rewrite list_lookup_imap, Hk. reflexivity.
    + unfold _print_history_preview. cbv zeta.
      destruct (negb _); [reflexivity|]. by rewrite buffer_print_each.
    + intros Ht. unfold _print_history_preview. cbv zeta. rewrite Ht. simpl negb.
      cbv iota. rewrite effects_print_each, effects_print, <- app_assoc.
      reflexivity.
  - intros Hlen. destruct Hpol as (Hs & Ha & Hl). split; [|split].
    + intros Hm Hi. apply (Hten 4 Hlen); [lia|]. by rewrite (Ha Hm), Hi.
    + intros Hm. destruct (Hten 0 Hlen) as [H1 H2]; [lia|by rewrite (Hs Hm)|].
      split; [exact H1|exact H2].
    + intros Hm Hi. apply (Hten 7 Hlen); [lia|]. by rewrite (Hl Hm), Hi.
Qed.

End WindowTheorem.

Lemma history_window_and_preview_witness :
  Shell.window_lines Demo.anchored_ten_lines
  = skipn 4 (Shell.terminal_buffer Demo.anchored_ten_lines)
  /\ length (Shell.window_lines Demo.anchored_ten_lines) = 6.
Proof.
  apply (history_window_and_preview Demo.anchored_ten_lines); reflexivity.
Defined.

(** The three windows of the ten-line buffer, as text. *)
Example window_anchor_4 :
  Shell._get_history_for_shell Demo.anchored_ten_lines
  = PyStr.join PyStr.nl ["l5"; "l6"; "l7"; "l8"; "l9"; "l10"].
Proof. vm_compute. reflexivity. Qed.

Example window_session :
  Shell.window_lines Demo.ten_lines
  = ["l1"; "l2"; "l3"; "l4"; "l5"; "l6"; "l7"; "l8"; "l9"; "l10"].
Proof. vm_compute. reflexivity. Qed.

Example window_last_7 :
  Shell.window_lines
    (Shell.set_buffer_mode "last"
       (Shell.set_buffer_last_action_index 7 Demo.ten_lines))
  = ["l8"; "l9"; "l10"].
Proof. vm_compute. reflexivity. Qed.

(** ** History window: the out-of-range start *)

Section FallbackTheorem.
Context {W : Shell.World}.
Import Shell PyStr.

Lemma stale_policy_start (s : State) :
  (buffer_mode (settings s) = "anchor"
   /\ (buffer_anchor_index s < 0
       \/ Z.of_nat (length (terminal_buffer s)) < buffer_anchor_index s)
   \/ buffer_mode (settings s) = "last"
      /\ (buffer_last_action_index s < 0
          \/ Z.of_nat (length (terminal_buffer s)) < buffer_last_action_index s))%Z
  <-> (policy_start s < 0
       \/ Z.of_nat (length (terminal_buffer s)) < policy_start s)%Z.
Proof.
  unfold policy_start. cbv zeta. split.
  - intros [[-> H]|[-> H]]; exact H.
  - destruct (String.eqb_spec (buffer_mode (settings s)) "session"); [lia|].
    destruct (String.eqb_spec (buffer_mode (settings s)) "anchor"); [by left|].
    destruct (String.eqb_spec (buffer_mode (settings s)) "last"); [by right|lia].
Qed.

Lemma history_of_window (s : State) :
  _get_history_for_shell s = join nl (window_lines s).
Proof.
  unfold _get_history_for_shell.
  destruct (window_lines_suffix s) as (k & _ & Hk).
  destruct (terminal_buffer s) as [|l buf] eqn:E; [|reflexivity].
  by rewrite Hk, skipn_nil.
Qed.

Lemma window_lines_bound (s : State) :
  exists k, k <= length (terminal_buffer s)
            /\ length (terminal_buffer s) - k <= 400
            /\ window_lines s = skipn k (terminal_buffer s).
Proof.
  unfold window_lines.
  destruct (slice_from_suffix (window_start s) (terminal_buffer s)) as (k1 & H1 & E1).
  rewrite E1. change (-400)%Z with (- Z.of_nat 400)%Z.
  rewrite slice_from_last by lia. rewrite skipn_skipn, length_skipn.
  exists (length (terminal_buffer s) - k1 - 400 + k1). repeat split; lia.
Qed.

(** C10, as amended. When the index the policy selects is negative or
    beyond the end of the buffer, the history is the one of the whole
    buffer: its last 400 entries joined by line feeds. Whatever the indices,
    the history is the join of a suffix of the buffer of at most 400
    entries. No session reached from start-up has such an index. *)
Theorem history_window_falls_back :
  (forall s : State,
      let buf := terminal_buffer s in
      (buffer_mode (settings s) = "anchor"
       /\ (buffer_anchor_index s < 0 \/ Z.of_nat (length buf) < buffer_anchor_index s)
       \/ buffer_mode (settings s) = "last"
          /\ (buffer_last_action_index s < 0
              \/ Z.of_nat (length buf) < buffer_last_action_index s))%Z ->
      _get_history_for_shell s = join nl (skipn (length buf - 400) buf))
  /\ (forall s : State,
         let buf := terminal_buffer s in
         exists k, k <= length buf /\ length buf - k <= 400
                   /\ _get_history_for_shell s = join nl (skipn k buf))
  /\ (forall s : State,
         let buf := terminal_buffer s in
         reachable s ->
         ~ (buffer_mode (settings s) = "anchor"
            /\ (buffer_anchor_index s < 0
                \/ Z.of_nat (length buf) < buffer_anchor_index s)
            \/ buffer_mode (settings s) = "last"
               /\ (buffer_last_action_index s < 0
                   \/ Z.of_nat (length buf) < buffer_last_action_index s))%Z).
Proof.
  split; [|split].
  - intros s buf H. apply stale_policy_start in H.
    rewrite history_of_window. f_equal. unfold window_lines, window_start.
    cbv zeta.
    replace ((policy_start s <? 0)%Z
             || (Z.of_nat (length (terminal_buffer s)) <? policy_start s)%Z)
      with true.
    + rewrite (slice_from_in_range 0) by lia. simpl skipn.
      change (-400)%Z with (- Z.of_nat 400)%Z. apply slice_from_last. lia.
    + symmetry. apply orb_true_iff.
      destruct H as [H|H]; [left|right]; by apply Z.ltb_lt.
  - intros s buf. destruct (window_lines_bound s) as (k & H1 & H2 & H3).
    exists k. split; [exact H1|]. split; [exact H2|].
    by rewrite history_of_window, H3.
  - intros s buf Hr H. apply stale_policy_start in H.
    destruct (reachable_indices_ok s Hr) as [[Ha Hl] _].
    destruct (policy_start_cases s) as [E|[E|E]]; rewrite E in H; lia.
Qed.

End FallbackTheorem.

(** Two sessions built by hand, which no input reaches: ten buffer lines
    with the anchor behind the end, and the session the "clear" branch of
    [_apply_confirm_decision] leaves when it is entered with five lines and
    the anchor at 5. In both the history is the whole buffer. *)
Lemma history_window_falls_back_witness :
  Shell._get_history_for_shell
    (Shell.set_buffer_mode "anchor" (Shell.set_buffer_anchor_index 11 Demo.ten_lines))
  = PyStr.join PyStr.nl
      ["l1"; "l2"; "l3"; "l4"; "l5"; "l6"; "l7"; "l8"; "l9"; "l10"]
  /\ Shell._get_history_for_shell Demo.after_clear = "[SHELL] Buffer cleared.".
Proof.
  destruct (@history_window_falls_back Demo.world) as [H _]. split.
  - apply (H (Shell.set_buffer_mode "anchor"
                (Shell.set_buffer_anchor_index 11 Demo.ten_lines))).
    left. split; [reflexivity|right; vm_compute; reflexivity].
  - apply (H Demo.after_clear).
    left. split; [reflexivity|right; vm_compute; reflexivity].
Defined.

(** C10 as stated names a session with a stale index as one that a
    buffer clear reaches. It is not. The commands that empty the buffer
    reset both indices: from ten lines with the anchor after the fourth, the
    typed lines [v-clear] and [clear] leave both indices at the end of the
    new buffer, so the start selected lies within it. And in every session
    reached from start-up, in every world, the start selected by the policy
    lies within the buffer. *)
Lemma stale_index_counterexample :
  (let s := Shell.st (snd (Shell.run_iteration ["v-clear"] Demo.anchored_ten_lines)) in
   Shell.terminal_buffer s = ["[CMD] Buffer cleared."]
   /\ Shell.buffer_anchor_index s = 1%Z
   /\ Shell.buffer_last_action_index s = 1%Z
   /\ Shell.policy_start s = 1%Z)
  /\ (let s := Shell.st (snd (Shell.run_iteration ["clear"] Demo.anchored_ten_lines)) in
      Shell.terminal_buffer s = ["[SHELL] Screen and buffer cleared."]
      /\ Shell.buffer_anchor_index s = 1%Z
      /\ Shell.buffer_last_action_index s = 1%Z
      /\ Shell.policy_start s = 1%Z)
  /\ (forall (W : Shell.World) (s : Shell.State),
         Shell.reachable s ->
         (0 <= Shell.policy_start s
          <= Z.of_nat (length (Shell.terminal_buffer s)))%Z).
Proof.
  split; [repeat split; vm_compute; reflexivity|].
  split; [repeat split; vm_compute; reflexivity|].
  intros W s Hr. destruct (reachable_indices_ok s Hr) as [[Ha Hl] _].
  destruct (policy_start_cases s) as [E|[E|E]]; rewrite E; lia.
Qed.

(** * Further properties of the code *)

(** ** Tokens *)

Section TokenFacts.
Import PyStr Shell.

Lemma isupper_lower_char (c : ascii) : isupper (lower_char c) = false.
Proof. destruct c as [[] [] [] [] [] [] [] []]; reflexivity. Qed.

Lemma lower_char_fixed (c : ascii) : isupper c = false -> lower_char c = c.
Proof. unfold lower_char. by intros ->. Qed.

Lemma isalnum_not_space (c : ascii) : isalnum c = true -> isspace c = false.
Proof. destruct c as [[] [] [] [] [] [] [] []]; vm_compute; intros; congruence. Qed.

Lemma chars_app (a b : string) : chars (a +:+ b) = chars a ++ chars b.
Proof.
  unfold chars. induction a as [|c a IH]; simpl; [reflexivity|]. by rewrite IH.
Qed.

Lemma elem_of_rev {A} (l : list A) (x : A) : x ∈ rev l <-> x ∈ l.
Proof. rewrite !list_elem_of_In. symmetry. apply in_rev. Qed.

Lemma elem_of_drop_while {A} (p : A -> bool) (l : list A) (x : A) :
  x ∈ drop_while p l -> x ∈ l.
Proof.
  induction l as [|y l IH]; simpl; [done|].
  destruct (p y); [|done]. intros H. apply list_elem_of_further. by apply IH.
Qed.

Lemma drop_while_head {A} (p : A -> bool) (l : list A) :
  match drop_while p l with [] => True | x :: _ => p x = false end.
Proof.
  induction l as [|y l IH]; simpl; [done|].
  destruct (p y) eqn:E; [exact IH|exact E].
Qed.

Lemma drop_while_fixed {A} (p : A -> bool) (l : list A) :
  match l with [] => True | x :: _ => p x = false end -> drop_while p l = l.
Proof. destruct l as [|x l]; simpl; [done|]. by intros ->. Qed.

Lemma elem_of_strip_by (p : ascii -> bool) (s : string) (c : ascii) :
  c ∈ chars (strip_by p s) -> c ∈ chars s.
Proof.
  unfold strip_by. rewrite chars_str, elem_of_rev. intros H.
  apply elem_of_drop_while in H. rewrite elem_of_rev in H.
  by apply elem_of_drop_while in H.
Qed.

(** What [split] returns: maximal runs of characters that are not white
    space, each made of characters of the input. *)
Lemma split_aux_tokens (cur l : list ascii) (t : string) :
  Forall (fun c => isspace c = false) cur ->
  t ∈ split_aux cur l ->
  t <> "" /\ forall c, c ∈ chars t -> (c ∈ cur \/ c ∈ l) /\ isspace c = false.
Proof.
  revert cur. induction l as [|c l IH]; intros cur Hcur Ht; simpl in Ht.
  - destruct cur as [|d cur]; [by apply elem_of_nil in Ht|].
    apply list_elem_of_singleton in Ht as ->. split.
    + intros E. apply (str_inj _ []) in E. simpl in E.
      symmetry in E. by apply app_cons_not_nil in E.
    + intros x Hx. rewrite chars_str, elem_of_rev in Hx. split; [by left|].
      rewrite List.Forall_forall in Hcur. apply Hcur. by apply list_elem_of_In.
  - destruct (isspace c) eqn:Hc.
    + assert (Hrest : t ∈ split_aux [] l ->
                t <> "" /\ forall x, x ∈ chars t ->
                  (x ∈ cur \/ x ∈ c :: l) /\ isspace x = false).
      { intros H. destruct (IH [] (List.Forall_nil _) H) as [Hne Hall].
        split; [exact Hne|]. intros x Hx. destruct (Hall x Hx) as [[Hin|Hin] Hs].
        - by apply elem_of_nil in Hin.
        - split; [right; by apply list_elem_of_further|exact Hs]. }
      destruct cur as [|d cur]; [by apply Hrest|].
      apply elem_of_cons in Ht as [->|Ht]; [|by apply Hrest]. split.
      * intros E. apply (str_inj _ []) in E. simpl in E.
        symmetry in E. by apply app_cons_not_nil in E.
      * intros x Hx. rewrite chars_str, elem_of_rev in Hx. split; [by left|].
        rewrite List.Forall_forall in Hcur. apply Hcur. by apply list_elem_of_In.
    + assert (Hcur' : Forall (fun c => isspace c = false) (c :: cur)) by by constructor.
      destruct (IH (c :: cur) Hcur' Ht) as [Hne Hall].
      split; [exact Hne|]. intros x Hx. destruct (Hall x Hx) as [[Hin|Hin] Hs].
      * apply elem_of_cons in Hin as [->|Hin];
          [split; [right; apply list_elem_of_here|exact Hs]|by split; [left|]].
      * split; [right; by apply list_elem_of_further|exact Hs].
Qed.

Lemma split_tokens (s t : string) :
  t ∈ split s -> t <> "" /\ forall c, c ∈ chars t -> c ∈ chars s /\ isspace c = false.
Proof.
  intros H. destruct (split_aux_tokens [] (chars s) t (List.Forall_nil _) H) as [Hne Hall].
  split; [exact Hne|]. intros c Hc. destruct (Hall c Hc) as [[Hin|Hin] Hs]; [|done].
  by apply elem_of_nil in Hin.
Qed.

(** [split] undoes [join] on tokens free of white space. *)
Lemma split_aux_run (run rest cur : list ascii) :
  Forall (fun c => isspace c = false) run ->
  split_aux cur (run ++ rest) = split_aux (rev run ++ cur) rest.
Proof.
  revert cur. induction run as [|c run IH]; intros cur Hrun; [reflexivity|].
  apply Forall_cons in Hrun as [Hc Hrun]. simpl. rewrite Hc, IH by done.
  by rewrite <- app_assoc.
Qed.

Lemma clean_token_no_space (t : string) :
  clean_token t -> Forall (fun c => isspace c = false) (chars t).
Proof.
  intros [_ H]. eapply Forall_impl; [exact H|].
  intros c [Ha _]. by apply isalnum_not_space.
Qed.

Lemma chars_nonempty (t : string) : t <> "" -> chars t <> [].
Proof. intros Hne E. apply Hne. rewrite <- (str_chars t), E. reflexivity. Qed.

Lemma join_cons (sep x : string) (y : string) (l : list string) :
  join sep (x :: y :: l) = x +:+ sep +:+ join sep (y :: l).
Proof. reflexivity. Qed.

Lemma split_join (ts : list string) :
  Forall clean_token ts -> split (join " " ts) = ts.
Proof.
  unfold split. induction ts as [|t ts IH]; intros Hts; [reflexivity|].
  apply Forall_cons in Hts as [Ht Hts].
  pose proof (clean_token_no_space t Ht) as Hns.
  pose proof (chars_nonempty t (proj1 Ht)) as Hne.
  destruct ts as [|u ts].
  - change (join " " [t]) with t.
    rewrite <- (app_nil_r (chars t)), split_aux_run, app_nil_r by done. simpl.
    destruct (rev (chars t)) eqn:E.
    + apply (f_equal (@rev ascii)) in E. rewrite rev_involutive in E. done.
    + rewrite <- E, rev_involutive, str_chars. reflexivity.
  - rewrite join_cons, !chars_app, split_aux_run, app_nil_r by done.
    change (chars " ") with [" "%char]. simpl.
    destruct (rev (chars t)) eqn:E.
    + apply (f_equal (@rev ascii)) in E. rewrite rev_involutive in E. done.
    + rewrite <- E, rev_involutive, str_chars. f_equal. by apply IH.
Qed.


Lemma strip_by_fixed (p : ascii -> bool) (s : string) :
  match chars s with [] => True | c :: _ => p c = false end ->
  match rev (chars s) with [] => True | c :: _ => p c = false end ->
  strip_by p s = s.
Proof.
  intros Hh Hl. unfold strip_by.
  rewrite (drop_while_fixed p (chars s) Hh), (drop_while_fixed p _ Hl).
  by rewrite rev_involutive, str_chars.
Qed.

Lemma join_chars (ts : list string) :
  Forall clean_token ts ->
  Forall (fun c => isupper c = false /\ (isalnum c || isspace c = true))
         (chars (join " " ts))
  /\ match chars (join " " ts) with [] => True | c :: _ => isspace c = false end
  /\ match rev (chars (join " " ts)) with [] => True | c :: _ => isspace c = false end.
Proof.
  induction ts as [|t ts IH]; intros Hts; [by repeat split|].
  apply Forall_cons in Hts as [Ht Hts].
  pose proof (clean_token_no_space t Ht) as Hns.
  pose proof (chars_nonempty t (proj1 Ht)) as Hne.
  assert (Ht' : Forall (fun c => isupper c = false /\ (isalnum c || isspace c = true))
                  (chars t)).
  { eapply Forall_impl; [exact (proj2 Ht)|]. intros c [Ha Hu]. by rewrite Ha. }
  assert (Hhead : forall rest,
            match chars t ++ rest with [] => True | c :: _ => isspace c = false end).
  { intros rest. destruct (chars t) as [|c l]; [done|].
    by apply Forall_cons in Hns as [Hc _]. }
  destruct ts as [|u ts].
  - change (join " " [t]) with t. split; [exact Ht'|]. split.
    + specialize (Hhead []). by rewrite app_nil_r in Hhead.
    + destruct (rev (chars t)) as [|c l] eqn:E; [done|].
      assert (Hc : c ∈ chars t) by (apply elem_of_rev; rewrite E; apply list_elem_of_here).
      rewrite List.Forall_forall in Hns. apply Hns. by apply list_elem_of_In.
  - destruct (IH Hts) as (Hall & _ & Hlast).
    rewrite join_cons, !chars_app. change (chars " ") with [" "%char]. split; [|split].
    + apply Forall_app. split; [exact Ht'|]. apply Forall_cons. by split.
    + apply Hhead.
    + rewrite !rev_app_distr.
      destruct (rev (chars (join " " (u :: ts)))) as [|c l] eqn:E;
        [|simpl; exact Hlast].
      exfalso. apply (f_equal (@rev ascii)) in E. rewrite rev_involutive in E.
      change (rev []) with (@nil ascii) in E. destruct ts as [|v ts].
      * change (join " " [u]) with u in E. apply Forall_cons in Hts as [Hu _].
        by apply (chars_nonempty u (proj1 Hu)).
      * rewrite join_cons, chars_app in E. apply app_eq_nil in E as [E _].
        apply Forall_cons in Hts as [Hu _]. by apply (chars_nonempty u (proj1 Hu)).
Qed.

Lemma norm_join (ts : list string) :
  Forall clean_token ts -> _norm (join " " ts) = join " " ts.
Proof.
  intros Hts. destruct (join_chars ts Hts) as (Hall & Hhead & Hlast).
  assert (Hlow : lower (join " " ts) = join " " ts).
  { unfold lower. rewrite <- (str_chars (join " " ts)) at 2. f_equal.
    rewrite <- (map_id (chars (join " " ts))) at 2.
    apply Forall_fmap_ext_1. eapply Forall_impl; [exact Hall|].
    intros c [Hu _]. by apply lower_char_fixed. }
  unfold _norm. rewrite Hlow, (strip_by_fixed isspace _ Hhead Hlast : strip _ = _).
  rewrite <- (str_chars (join " " ts)) at 2. f_equal.
  apply forallb_filter_id. apply forallb_forall. intros c Hc.
  rewrite List.Forall_forall in Hall. by apply Hall.
Qed.

Lemma tokenize_tokens_clean (s : string) : Forall clean_token (_tokenize s).
Proof.
  apply Forall_forall. intros t Ht. unfold _tokenize in Ht.
  apply list_elem_of_In, filter_In in Ht as [Ht _]. apply list_elem_of_In in Ht.
  destruct (split_tokens _ _ Ht) as [Hne Hall]. split; [exact Hne|].
  apply Forall_forall. intros c Hc. destruct (Hall c Hc) as [Hin Hs].
  unfold _norm in Hin. rewrite chars_str in Hin.
  apply list_elem_of_In, filter_In in Hin as [Hin Hk]. apply list_elem_of_In in Hin.
  rewrite Hs, orb_false_r in Hk. split; [exact Hk|].
  apply elem_of_strip_by in Hin. unfold lower in Hin. rewrite chars_str in Hin.
  apply list_elem_of_In, in_map_iff in Hin as (d & <- & _).
  apply isupper_lower_char.
Qed.

Lemma clean_char_plain (c : ascii) :
  isalnum c = true -> isupper c = false -> plain_char c.
Proof.
  unfold isalnum. intros H Hu. rewrite Hu, orb_false_r in H.
  unfold isdigit, islower in H. unfold plain_char. apply orb_true_iff in H as [H|H];
    apply andb_true_iff in H as [H1 H2];
    apply Nat.leb_le in H1, H2; [left|right]; by split.
Qed.

(** X1. For a text of ASCII characters, every token [_tokenize] returns is
    not empty and made of the digits 0 to 9 and the letters a to z only, and
    tokenizing the tokens joined by spaces gives the same tokens again. *)
Theorem tokenize_clean (s : string) :
  isascii s = true ->
  Forall (fun t => t <> "" /\ Forall plain_char (chars t)) (_tokenize s)
  /\ _tokenize (join " " (_tokenize s)) = _tokenize s.
Proof.
  intros _. pose proof (tokenize_tokens_clean s) as Hclean. split.
  - eapply Forall_impl; [exact Hclean|]. intros t [Hne Hall].
    split; [exact Hne|]. eapply Forall_impl; [exact Hall|].
    intros c [Ha Hu]. by apply clean_char_plain.
  - unfold _tokenize at 1. rewrite (norm_join _ Hclean), (split_join _ Hclean).
    apply forallb_filter_id. apply forallb_forall. intros t Ht.
    apply truthy_true. rewrite Forall_forall in Hclean.
    apply list_elem_of_In in Ht. exact (proj1 (Hclean t Ht)).
Qed.

End TokenFacts.

Lemma tokenize_clean_witness :
  Forall (fun t => t <> "" /\ Forall plain_char (PyStr.chars t))
    (Shell._tokenize "  Alice, RUN the 2nd test! ")
  /\ Shell._tokenize (PyStr.join " " (Shell._tokenize "  Alice, RUN the 2nd test! "))
     = Shell._tokenize "  Alice, RUN the 2nd test! ".
Proof.
  apply (tokenize_clean "  Alice, RUN the 2nd test! "). reflexivity.
Defined.

(** ** The shell's alias profile *)

Section ShellAliasFacts.
Import PyStr Shell.

Lemma mem_spec (x : string) (l : list string) : mem x l = true <-> x ∈ l.
Proof.
  unfold mem. rewrite existsb_exists. split.
  - intros (y & Hy & E). apply String.eqb_eq in E as ->. by apply list_elem_of_In.
  - intros H. exists x. split; [by apply list_elem_of_In|apply String.eqb_refl].
Qed.

Lemma strip_by_idemp (p : ascii -> bool) (s : string) :
  strip_by p (strip_by p s) = strip_by p s.
Proof.
  apply strip_by_fixed; unfold strip_by; rewrite chars_str.
  - pose proof (drop_while_head p (rev (drop_while p (chars s)))) as H.
    destruct (rev (drop_while p (rev (drop_while p (chars s))))) as [|c l] eqn:E;
      [done|].
    pose proof (drop_while_head p (chars s)) as H0.
    assert (Hc : c ∈ drop_while p (chars s)).
    { apply elem_of_rev, (elem_of_drop_while p), elem_of_rev. rewrite E.
      apply list_elem_of_here. }
    clear H.
    (* the first character kept is the first one of the left-trimmed text *)
    remember (drop_while p (chars s)) as m eqn:Hm. clear Hm.
    destruct m as [|d m]; [by apply elem_of_nil in Hc|].
    assert (Hd : rev (drop_while p (rev (d :: m))) = d :: skipn 1 (rev (drop_while p (rev (d :: m))))).
    { pose proof (drop_while_head p (rev (d :: m))) as H1.
      assert (Hsuf : exists k, rev (d :: m) = k ++ drop_while p (rev (d :: m))).
      { clear. generalize (rev (d :: m)). intros l.
        induction l as [|x l [k IH]]; simpl; [by exists []|].
        destruct (p x); [exists (x :: k); simpl; by rewrite <- IH|by exists []]. }
      destruct Hsuf as [k Hk].
      assert (Hlast : drop_while p (rev (d :: m)) <> []).
      { intros En. rewrite En, app_nil_r in Hk.
        assert (Hall : Forall (fun x => p x = true) (rev (d :: m))).
        { clear -En. generalize dependent (rev (d :: m)). intros l.
          induction l as [|x l IH]; simpl; [constructor|].
          destruct (p x) eqn:Ex; [|discriminate]. intros H. constructor; [done|by apply IH]. }
        rewrite List.Forall_forall in Hall.
        assert (p d = true) by (apply Hall, in_rev; rewrite rev_involutive; by left).
        congruence. }
      apply (f_equal (@rev ascii)) in Hk. rewrite rev_involutive, rev_app_distr in Hk.
      destruct (rev (drop_while p (rev (d :: m)))) as [|e r] eqn:Er.
      - apply (f_equal (@rev ascii)) in Er. rewrite rev_involutive in Er. done.
      - simpl in Hk. injection Hk as -> _. reflexivity. }
    rewrite Hd in E. injection E as <- _. exact H0.
  - rewrite rev_involutive. apply drop_while_head.
Qed.

Lemma strip_strip (s : string) : strip (strip s) = strip s.
Proof. apply strip_by_idemp. Qed.

(** The normal form of an alias is stable. *)
Lemma normal_alias_idemp (w : string) :
  strip (lower (strip (lower w))) = strip (lower w).
Proof. by rewrite (strip_lower (strip _)), strip_strip, <- strip_lower, lower_lower. Qed.

Lemma lower_normal_alias (w : string) : lower (strip (lower w)) = strip (lower w).
Proof. by rewrite <- strip_lower, lower_lower. Qed.

(** The loop shared by [get_aliases] and [add_aliases]: append what is not
    empty and not yet there. *)
Lemma keep_first_elem (l out : list string) (x : string) :
  x ∈ fold_left (fun out wl =>
                   if truthy wl && negb (mem wl out) then out ++ [wl] else out)
                l out
  <-> x ∈ out \/ (x ∈ l /\ x <> "").
Proof.
  revert out. induction l as [|y l IH]; intros out; simpl.
  - split; [by left|]. intros [H|[H _]]; [done|]. by apply elem_of_nil in H.
  - rewrite IH. destruct (truthy y) eqn:Ht; simpl.
    + apply truthy_true in Ht. destruct (mem y out) eqn:Hm; simpl.
      * apply mem_spec in Hm. split.
        -- intros [H|[H Hne]]; [by left|right]. split; [by apply list_elem_of_further|done].
        -- intros [H|[H Hne]]; [by left|].
           apply elem_of_cons in H as [->|H]; [by left|by right].
      * rewrite elem_of_app, list_elem_of_singleton. split.
        -- intros [[H| ->]|[H Hne]]; [by left|right..].
           ++ split; [apply list_elem_of_here|done].
           ++ split; [by apply list_elem_of_further|done].
        -- intros [H|[H Hne]]; [by left; left|].
           apply elem_of_cons in H as [->|H]; [left; by right|by right].
    + apply truthy_false in Ht. subst y. split.
      * intros [H|[H Hne]]; [by left|right]. split; [by apply list_elem_of_further|done].
      * intros [H|[H Hne]]; [by left|].
        apply elem_of_cons in H as [->|H]; [done|by right].
Qed.

Lemma keep_first_NoDup (l out : list string) :
  NoDup out ->
  NoDup (fold_left (fun out wl =>
                      if truthy wl && negb (mem wl out) then out ++ [wl] else out)
                   l out).
Proof.
  revert out. induction l as [|y l IH]; intros out Hnd; simpl; [exact Hnd|].
  apply IH. destruct (truthy y); simpl; [|exact Hnd].
  destruct (mem y out) eqn:Hm; simpl; [exact Hnd|].
  apply NoDup_app. split; [exact Hnd|]. split; [|apply NoDup_singleton].
  intros x Hx Hy. apply list_elem_of_singleton in Hy as ->.
  apply mem_spec in Hx. congruence.
Qed.

Lemma keep_first_noop (l out : list string) :
  (forall x, x ∈ l -> x = "" \/ x ∈ out) ->
  fold_left (fun out wl =>
               if truthy wl && negb (mem wl out) then out ++ [wl] else out)
            l out = out.
Proof.
  induction l as [|y l IH]; intros H; simpl; [reflexivity|].
  destruct (H y (list_elem_of_here _ _)) as [->|Hy].
  - simpl. apply IH. intros x Hx. apply H. by apply list_elem_of_further.
  - apply mem_spec in Hy. rewrite Hy, andb_false_r. apply IH.
    intros x Hx. apply H. by apply list_elem_of_further.
Qed.

Lemma add_fold_map (words base : list string) :
  fold_left (fun base w =>
               let wl := strip (lower w) in
               if truthy wl && negb (mem wl base) then base ++ [wl] else base)
            words base
  = fold_left (fun out wl =>
                 if truthy wl && negb (mem wl out) then out ++ [wl] else out)
              (map (fun w => strip (lower w)) words) base.
Proof.
  revert base. induction words as [|w words IH]; intros base; [reflexivity|].
  simpl. apply IH.
Qed.


(** X2. [get_aliases] of the shell returns the default list exactly when
    nothing, or an empty list, is stored under the lower-cased key. Otherwise
    it returns, without duplicates, the stored entries lower-cased and
    stripped, leaving out the ones that are blank; the defaults are then not
    part of the answer. *)
Theorem shell_get_aliases_spec (data : gmap string (list string))
    (key : string) (dflt : list string) :
  match data !! lower key with
  | None | Some [] => get_aliases data key dflt = dflt
  | Some vals =>
      NoDup (get_aliases data key dflt)
      /\ forall x, x ∈ get_aliases data key dflt
                   <-> x <> "" /\ exists v, v ∈ vals /\ x = strip (lower v)
  end.
Proof.
  unfold get_aliases. destruct (data !! lower key) as [[|v vals]|]; [done| |done].
  unfold dedup_keep_first. split; [apply keep_first_NoDup, NoDup_nil_2|].
  intros x. rewrite keep_first_elem. split.
  - intros [H|[H Hne]]; [by apply elem_of_nil in H|]. split; [exact Hne|].
    apply list_elem_of_fmap in H as (u & -> & Hu). by exists u.
  - intros [Hne (u & Hu & ->)]. right. split; [|exact Hne].
    apply list_elem_of_fmap. by exists u.
Qed.

(** X3. After [add_aliases(key, words)] the aliases read back under that
    key hold the normal form of every word that is not blank and of every
    entry stored before; other keys are untouched, and adding the same words
    again changes nothing. *)
Theorem add_then_get_aliases (key : string) (words : list string)
    (data : gmap string (list string)) (dflt : list string) :
  let data' := add_aliases key words data in
  (forall w, w ∈ words -> strip (lower w) <> "" ->
             strip (lower w) ∈ get_aliases data' key dflt)
  /\ (forall vals v, data !! lower key = Some vals -> v ∈ vals ->
                     strip (lower v) <> "" ->
                     strip (lower v) ∈ get_aliases data' key dflt)
  /\ (forall k, k <> lower key -> data' !! k = data !! k)
  /\ add_aliases key words data' = data'.
Proof.
  cbv zeta. unfold add_aliases. cbv zeta. rewrite add_fold_map.
  set (old := map lower (default [] (data !! lower key))).
  set (base := fold_left _ (map (fun w => strip (lower w)) words) old).
  assert (Hget : forall x, x ∈ base -> strip (lower x) <> "" ->
                   strip (lower x) ∈ get_aliases (<[lower key:=base]> data) key dflt).
  { intros x Hx Hne. unfold get_aliases. rewrite lookup_insert_eq.
    destruct base as [|b base'] eqn:Eb; [by apply elem_of_nil in Hx|].
    unfold dedup_keep_first. apply keep_first_elem. right. split; [|exact Hne].
    apply list_elem_of_fmap. by exists x. }
  split; [|split; [|split]].
  - intros w Hw Hne. rewrite <- normal_alias_idemp. apply Hget.
    + apply keep_first_elem. right. split; [|exact Hne].
      apply list_elem_of_fmap. by exists w.
    + by rewrite normal_alias_idemp.
  - intros vals v Hvals Hv Hne. rewrite <- (lower_lower v). apply Hget.
    + apply keep_first_elem. left. unfold old. rewrite Hvals. simpl.
      apply list_elem_of_fmap. by exists v.
    + by rewrite lower_lower.
  - intros k Hk. by rewrite lookup_insert_ne.
  - rewrite lookup_insert_eq. simpl. rewrite ?add_fold_map.
    assert (Hlow : map lower base = base).
    { rewrite <- (map_id base) at 2. apply map_ext_in. intros x Hx.
      apply list_elem_of_In, keep_first_elem in Hx as [Hx|[Hx _]].
      - unfold old in Hx. apply list_elem_of_fmap in Hx as (y & -> & _).
        apply lower_lower.
      - apply list_elem_of_fmap in Hx as (y & -> & _). apply lower_normal_alias. }
    rewrite Hlow, keep_first_noop, insert_insert_eq; [reflexivity|].
    intros x Hx. destruct (decide (x = "")) as [->|Hne]; [by left|right].
    apply keep_first_elem. by right.
Qed.

End ShellAliasFacts.

Lemma add_then_get_aliases_witness :
  let data' := Shell.add_aliases "Wake" [" Bob "; ""] {[ "wake" := ["Al"] ]} in
  "bob" ∈ Shell.get_aliases data' "Wake" []
  /\ "al" ∈ Shell.get_aliases data' "Wake" [].
Proof.
  destruct (add_then_get_aliases "Wake" [" Bob "; ""] {[ "wake" := ["Al"] ]} [])
    as (Hnew & Hold & _).
  split.
  - apply (Hnew " Bob "); [apply list_elem_of_here|discriminate].
  - apply (Hold ["Al"] "Al"); [reflexivity|apply list_elem_of_here|discriminate].
Defined.


(** ** Answers, exceptions and the main loop *)

Section ReadingFacts.
Context {W : Shell.World}.
Import PyStr Shell.

Lemma split_aux_nil (cur l : list ascii) :
  split_aux cur l = [] -> cur = [] /\ Forall (fun c => isspace c = true) l.
Proof.
  revert cur. induction l as [|c l IH]; intros cur H; simpl in H.
  - destruct cur; [by split|discriminate].
  - destruct (isspace c) eqn:Hc.
    + destruct cur; [|discriminate]. destruct (IH [] H) as [_ Hl].
      split; [reflexivity|by constructor].
    + destruct (IH _ H) as [Hcur _]. discriminate.
Qed.

(** A command that is not empty after [strip] has a first word, so
    [parts[0]] never fails. *)
Lemma split_strip_nonempty (x : string) :
  truthy (strip x) = true -> split (strip x) <> [].
Proof.
  intros Ht Hs. apply truthy_true in Ht. apply Ht. clear Ht.
  apply split_aux_nil in Hs as [_ Hall]. unfold strip, strip_by in *.
  rewrite chars_str in Hall.
  pose proof (drop_while_head isspace (rev (drop_while isspace (chars x)))) as Hh.
  destruct (drop_while isspace (rev (drop_while isspace (chars x)))) as [|c l] eqn:E;
    [reflexivity|].
  rewrite List.Forall_forall in Hall.
  assert (isspace c = true) by (apply Hall, in_rev; rewrite rev_involutive; by left).
  congruence.
Qed.

Lemma reads_ret (inp rest : list string) (s : State) :
  rest `suffix_of` inp -> reads_from inp (ret s rest).
Proof. intros H. split; [exact H|by left]. Qed.

Lemma reads_eof (inp : list string) (s : State) :
  reads_from inp (throw EOFError s []).
Proof. split; [apply suffix_nil|by right]. Qed.

Lemma reads_weaken (a : string) (inp : list string) (r : result) :
  reads_from inp r -> reads_from (a :: inp) r.
Proof. intros [H1 H2]. split; [by apply suffix_cons_r|exact H2]. Qed.

Ltac suffix_now :=
  first [ reflexivity | apply suffix_nil | apply suffix_cons_r; reflexivity
        | apply suffix_cons_r, suffix_cons_r; reflexivity ].

(** One step through a handler that returns a [result]. *)
Ltac walk :=
  lazymatch goal with
  | |- reads_from _ (ret _ _) => apply reads_ret; suffix_now
  | |- reads_from _ (throw EOFError _ []) => apply reads_eof
  | H : negb (truthy (strip ?x)) = false, E : split (strip ?x) = []
    |- reads_from _ (throw IndexError _ _) =>
      exfalso; apply negb_false_iff in H;
      exact (split_strip_nonempty x H E)
  | |- reads_from _ (if ?c then _ else _) => destruct c eqn:?
  | |- reads_from _ (match ?x with _ => _ end) => destruct x eqn:?
  end.

Lemma reads_typed_prompt (inp : list string) (s : State) :
  reads_from inp (typed_prompt inp s).
Proof.
  unfold typed_prompt. cbv zeta. apply reads_ret.
  destruct inp; [reflexivity|by apply suffix_cons_r].
Qed.

Lemma reads_typed_save (inp : list string) (s : State) :
  reads_from inp (typed_save inp s).
Proof. unfold typed_save. cbv zeta. repeat walk. Qed.

Lemma reads_typed_exit (inp : list string) (s : State) :
  reads_from inp (typed_exit inp s).
Proof. unfold typed_exit. cbv zeta. repeat walk. Qed.

(** What the branch that runs a pending command does with the result of
    the command it dispatched. *)
Lemma reads_dispatched (inp : list string) (r : result) (s' : State) :
  reads_from inp r ->
  reads_from inp (match raised r with
                  | Some _ => r
                  | None => ret s' (unread r)
                  end).
Proof.
  intros Hr. destruct (raised r) eqn:E; [exact Hr|].
  split; [exact (proj1 Hr)|by left].
Qed.


Ltac walk_typed :=
  lazymatch goal with
  | |- reads_from _ (typed_prompt _ _) => apply reads_typed_prompt
  | |- reads_from _ (typed_save _ _) => apply reads_typed_save
  | |- reads_from _ (typed_exit _ _) => apply reads_typed_exit
  | |- reads_from _ (match raised ?r with Some _ => ?r | None => _ end) =>
      apply reads_dispatched
  | _ => walk
  end.

Lemma reads_typed_command (inp : list string) (line : string) (s : State) :
  reads_from inp (_handle_typed_voice_command inp line s).
Proof.
  revert line s. induction inp as [|a inp IH]; intros line s;
    cbv delta [_handle_typed_voice_command]; cbv beta iota zeta;
    repeat first
      [ lazymatch goal with
        | |- reads_from (a :: inp) (?f inp ?l ?s') =>
            change (reads_from (a :: inp) (_handle_typed_voice_command inp l s'));
            apply reads_weaken, IH
        end
      | walk_typed ].
Qed.

(** X4. A typed [v-] command never fails on [parts[0]]: the only exception
    it lets escape is the [EOFError] of a question that met the end of the
    input, and it reads its answers from the front of the input. *)
Theorem typed_command_reads (inp : list string) (line : string) (s : State) :
  reads_from inp (_handle_typed_voice_command inp line s).
Proof. apply reads_typed_command. Qed.

Lemma reads_apply_confirm_decision (accepted : bool) (inp : list string)
    (s : State) :
  reads_from inp (_apply_confirm_decision accepted inp s).
Proof.
  cbv delta [_apply_confirm_decision]. cbv beta iota zeta.
  repeat first
    [ lazymatch goal with
      | |- reads_from _ (_handle_typed_voice_command _ _ _) =>
          apply reads_typed_command
      end
    | walk_typed ].
Qed.

Lemma reads_voice_text (text : string) (inp : list string) (s : State) :
  reads_from inp (_handle_voice_text text inp s).
Proof.
  cbv delta [_handle_voice_text _handle_confirm_voice]. cbv beta iota zeta.
  repeat first
    [ lazymatch goal with
      | |- reads_from _ (_apply_confirm_decision _ _ _) =>
          apply reads_apply_confirm_decision
      end
    | walk_typed ].
Qed.

(** Every pass of the main loop that goes on has read at least one line. *)
Lemma run_iteration_pass (inp : list string) (s : State) :
  pass_ok inp (run_iteration inp s).
Proof.
  assert (Hhandler : forall line inp' r,
            reads_from inp' r ->
            pass_ok (line :: inp')
              (match raised r with Some e => Crash e | None => Continue end, r)).
  { intros line inp' r Hr. split; [by apply reads_weaken|]. simpl.
    destruct (raised r) eqn:E; [reflexivity|]. split; [reflexivity|].
    pose proof (suffix_length _ _ (proj1 Hr)) as Hl. simpl. lia. }
  assert (Hret : forall c rest s',
            rest `suffix_of` inp ->
            match c with
            | Continue => length rest < length inp
            | Break => True
            | Crash _ => False
            end ->
            pass_ok inp (c, ret s' rest)).
  { intros c rest s' Hs Hc. split; [by apply reads_ret|]. simpl.
    destruct c; [by split|done|done]. }
  cbv delta [run_iteration]. cbv beta iota zeta.
  repeat lazymatch goal with
         | |- pass_ok _ (if ?c then _ else _) => destruct c eqn:?
         | |- pass_ok _ (match ?x with _ => _ end) => destruct x eqn:?
         | |- pass_ok _ (match raised ?r with _ => _ end, ?r) =>
             apply Hhandler;
             first [ apply reads_typed_command | apply reads_apply_confirm_decision ]
         | |- pass_ok _ (Crash EOFError, throw EOFError _ []) =>
             split; [apply reads_eof|reflexivity]
         | |- pass_ok _ (_, ret _ _) =>
             apply Hret; [suffix_now|simpl; first [exact I|lia]]
         end.
Qed.

Lemma run_loop_ends (fuel : nat) (inp : list string) (s : State) :
  length inp < fuel ->
  exists r, run_loop fuel inp s = Some r /\ reads_from inp r.
Proof.
  revert inp s. induction fuel as [|fuel IH]; intros inp s Hlen; [lia|].
  simpl. pose proof (run_iteration_pass inp s) as [Hr Hc].
  destruct (run_iteration inp s) as [c r]. simpl in Hr, Hc.
  destruct c; [|by exists r..].
  destruct Hc as [_ Hshort].
  destruct (IH (unread r) (st r)) as (r' & Hrun & Hr'); [lia|].
  exists r'. split; [exact Hrun|]. destruct Hr' as [Hs He].
  split; [|exact He]. etransitivity; [exact Hs|exact (proj1 Hr)].
Qed.

(** X5. On a finite input the main loop ends within one pass more than
    there are lines, having read only from the front of the input. It ends
    without an exception and with listening switched off, or with the
    [EOFError] of a question that met the end of the input. *)
Theorem run_ends (inp : list string) (s : State) :
  exists r,
    run (S (length inp)) inp s = Some r
    /\ reads_from inp r
    /\ (raised r = None -> _listening (st r) = false).
Proof.
  unfold run. cbv zeta.
  destruct (run_loop_ends (S (length inp)) inp
              (_speak (lower (assistant_name (settings (_print_banner s)))
                       +:+ "-shell listening")
                 (_print ("[VOICE] "
                          +:+ (lower (assistant_name (settings (_print_banner s)))
                               +:+ "-shell listening")) true (_print_banner s))))
    as (r & Hrun & Hr); [lia|].
  rewrite Hrun. eexists. split; [reflexivity|].
  destruct (raised r) eqn:E.
  - split; [exact Hr|]. intros H. congruence.
  - split; [|reflexivity]. split; [exact (proj1 Hr)|by left].
Qed.

End ReadingFacts.

(** ** Shell commands and tool runs *)

Section CommandFacts.
Context {W : Shell.World}.
Import PyStr Shell.

Lemma quiet_emit (e : effect) (s : State) : quiet s (emit e s).
Proof. reflexivity. Qed.

Lemma quiet_reset_index (s x : State) :
  quiet s x ->
  quiet s (set_buffer_last_action_index (buffer_last_action_index s) x).
Proof.
  unfold quiet. intros H.
  change (set_terminal_buffer [] (set_effects []
            (set_buffer_last_action_index (buffer_last_action_index s) x)))
    with (set_buffer_last_action_index (buffer_last_action_index s)
            (set_terminal_buffer [] (set_effects [] x))).
  rewrite <- H. reflexivity.
Qed.

Lemma effects_emit (e : effect) (s : State) : effects (emit e s) = effects s ++ [e].
Proof. reflexivity. Qed.

Lemma quiet_print_all (lines : list string) (s : State) :
  quiet s (print_all lines s).
Proof.
  unfold print_all. revert s. induction lines as [|l lines IH]; intros s;
    [reflexivity|].
  simpl. eapply quiet_trans; [apply (quiet_print l true)|apply IH].
Qed.

Lemma quiet_speak_if_guided (t : string) (s : State) :
  quiet s (speak_if_guided t s).
Proof. apply silent_quiet, silent_speak_if_guided. Qed.

Lemma quiet_log_session (m : string) (s : State) : quiet s (log_session m s).
Proof. apply silent_quiet, silent_log_session. Qed.

Lemma quiet_print_status (s : State) : quiet s (_print_status s).
Proof. reflexivity. Qed.

Lemma buffer_print_any (t : string) (s : State) :
  terminal_buffer (_print t true s)
  = terminal_buffer s ++ (if truthy t then [t] else []).
Proof.
  unfold _print. simpl. destruct (truthy t); simpl; [reflexivity|].
  by rewrite app_nil_r.
Qed.

Lemma buffer_print_all (lines : list string) (s : State) :
  terminal_buffer (print_all lines s)
  = terminal_buffer s ++ List.filter truthy lines.
Proof.
  unfold print_all. revert s. induction lines as [|l lines IH]; intros s; simpl.
  - by rewrite app_nil_r.
  - rewrite IH, buffer_print_any. destruct (truthy l); simpl.
    + by rewrite <- app_assoc.
    + by rewrite app_nil_r.
Qed.

(** Printing, speaking and logging are of no consequence. *)
Lemma consequential_print (t : string) (b : bool) (s : State) :
  List.filter consequential (effects (_print t b s))
  = List.filter consequential (effects s).
Proof. rewrite effects_print, List.filter_app. simpl. by rewrite app_nil_r. Qed.

Lemma consequential_print_all (lines : list string) (s : State) :
  List.filter consequential (effects (print_all lines s))
  = List.filter consequential (effects s).
Proof.
  unfold print_all. revert s. induction lines as [|l lines IH]; intros s;
    [reflexivity|].
  simpl. by rewrite IH, consequential_print.
Qed.

Lemma consequential_speak_if_guided (t : string) (s : State) :
  List.filter consequential (effects (speak_if_guided t s))
  = List.filter consequential (effects s).
Proof.
  unfold speak_if_guided, _speak. destruct (guided s); [|reflexivity].
  destruct (truthy t); [|reflexivity].
  rewrite effects_emit, List.filter_app. simpl. by rewrite app_nil_r.
Qed.

Lemma window_empty_after_action (s : State) :
  buffer_mode (settings s) = "last" ->
  buffer_last_action_index s = Z.of_nat (length (terminal_buffer s)) ->
  _get_history_for_shell s = "".
Proof.
  intros Hm Hi.
  assert (Hp : policy_start s = Z.of_nat (length (terminal_buffer s))).
  { unfold policy_start. cbv zeta. by rewrite Hm. }
  assert (Hr : (0 <= policy_start s <= Z.of_nat (length (terminal_buffer s)))%Z)
    by lia.
  rewrite (history_is_window s Hr).
  pose proof (window_lines_in_range s Hr) as Hw. cbv zeta in Hw.
  rewrite Hw, Hp, Nat2Z.id, skipn_all. reflexivity.
Qed.

Lemma run_shell_command_effect (command : string) (s : State) :
  (truthy (strip command) = false -> _run_shell_command command s = s)
  /\ (truthy (strip command) = true ->
      let s' := _run_shell_command command s in
      quiet s (set_buffer_last_action_index (buffer_last_action_index s) s')
      /\ List.filter consequential (effects s')
         = List.filter consequential (effects s) ++ [OsCall command]
      /\ forall out err,
           run_os (clock (_print ("$ " +:+ command) true s)) command
           = OsDone out err ->
           terminal_buffer s'
           = terminal_buffer s
             ++ ("$ " +:+ command)
                :: List.filter truthy (splitlines out) ++ List.filter truthy (splitlines err)
           /\ buffer_last_action_index s' = Z.of_nat (length (terminal_buffer s'))
           /\ (buffer_mode (settings s) = "last" -> _get_history_for_shell s' = "")).
Proof.
  split; intros Ht; unfold _run_shell_command; rewrite Ht; [reflexivity|].
  cbv zeta. simpl negb. cbv iota.
  set (s1 := _print ("$ " +:+ command) true s).
  assert (Hq1 : quiet s (emit (OsCall command) s1)).
  { eapply quiet_trans; [apply (quiet_print ("$ " +:+ command) true)|apply quiet_emit]. }
  assert (Hc1 : List.filter consequential (effects (emit (OsCall command) s1))
                = List.filter consequential (effects s) ++ [OsCall command]).
  { rewrite effects_emit, List.filter_app. unfold s1.
    rewrite consequential_print. reflexivity. }
  assert (Hb1 : terminal_buffer (emit (OsCall command) s1)
                = terminal_buffer s ++ ["$ " +:+ command]).
  { unfold s1. change (terminal_buffer (emit _ ?x)) with (terminal_buffer x).
    rewrite buffer_print_any. reflexivity. }
  destruct (run_os (clock s1) command) as [e|out err] eqn:Hrun.
  - split; [|split; [|discriminate]].
    + apply quiet_reset_index.
      eapply quiet_trans; [exact Hq1|]. apply (quiet_print _ true).
    + by rewrite consequential_print.
  - set (s4 := print_all (splitlines err) (print_all (splitlines out) _)).
    assert (Hq4 : quiet s s4).
    { eapply quiet_trans; [exact Hq1|].
      eapply quiet_trans; apply quiet_print_all. }
    assert (Hb4 : terminal_buffer s4
                  = terminal_buffer s
                    ++ ("$ " +:+ command)
                       :: List.filter truthy (splitlines out)
                          ++ List.filter truthy (splitlines err)).
    { unfold s4. rewrite !buffer_print_all, Hb1, <- !app_assoc. reflexivity. }
    split; [|split].
    + change (quiet s (set_buffer_last_action_index (buffer_last_action_index s)
                         (emit (Out ("[STATUS] " +:+ _status_text (mark_last_action s4)))
                            s4))).
      apply quiet_reset_index. eapply quiet_trans; [exact Hq4|apply quiet_emit].
    + change (effects (_print_status (mark_last_action s4)))
        with (effects (_print ("[STATUS] " +:+ _status_text (mark_last_action s4))
                         false s4)).
      rewrite consequential_print. unfold s4.
      by rewrite !consequential_print_all.
    + intros out' err' [= <- <-]. split; [exact Hb4|]. split; [reflexivity|].
      intros Hm. apply window_empty_after_action; [|reflexivity].
      rewrite <- Hm.
      exact (f_equal buffer_mode (quiet_settings _ _ Hq4)).
Qed.

(** X6. [_run_shell_command] does nothing for a blank command. Otherwise
    it runs the command exactly once and touches nothing but the terminal
    buffer, the output and the last-action index: settings, prompt, pending
    proposal and confirmation stay. When the command could be started, the
    buffer gains the echoed command line and the lines of the output that
    are not empty, and the last-action index is moved behind them, so that
    under the policy [last] the history window is empty right after a
    command. *)
Theorem shell_command_outcome (command : string) (s : State) :
  (truthy (strip command) = false -> _run_shell_command command s = s)
  /\ (truthy (strip command) = true ->
      let s' := _run_shell_command command s in
      quiet s (set_buffer_last_action_index (buffer_last_action_index s) s')
      /\ List.filter consequential (effects s')
         = List.filter consequential (effects s) ++ [OsCall command]
      /\ forall out err,
           run_os (clock (_print ("$ " +:+ command) true s)) command
           = OsDone out err ->
           terminal_buffer s'
           = terminal_buffer s
             ++ ("$ " +:+ command)
                :: List.filter truthy (splitlines out) ++ List.filter truthy (splitlines err)
           /\ buffer_last_action_index s' = Z.of_nat (length (terminal_buffer s'))
           /\ (buffer_mode (settings s) = "last" -> _get_history_for_shell s' = "")).
Proof. apply run_shell_command_effect. Qed.


Lemma quiet_sym (a b : State) : quiet a b -> quiet b a.
Proof. unfold quiet. congruence. Qed.

Lemma quiet_set_response (r : option string) (a b : State) :
  quiet a b -> quiet (set_last_codex_response r a) (set_last_codex_response r b).
Proof.
  unfold quiet. intros H.
  change (set_last_codex_response r (set_terminal_buffer [] (set_effects [] a))
          = set_last_codex_response r (set_terminal_buffer [] (set_effects [] b))).
  by rewrite H.
Qed.

Lemma quiet_set_index (i : Z) (a b : State) :
  quiet a b ->
  quiet (set_buffer_last_action_index i a) (set_buffer_last_action_index i b).
Proof.
  unfold quiet. intros H.
  change (set_buffer_last_action_index i (set_terminal_buffer [] (set_effects [] a))
          = set_buffer_last_action_index i (set_terminal_buffer [] (set_effects [] b))).
  by rewrite H.
Qed.

Lemma tool_call_print (t : string) (b : bool) (s : State) :
  List.filter is_tool_call (effects (_print t b s))
  = List.filter is_tool_call (effects s).
Proof. rewrite effects_print, List.filter_app. simpl. by rewrite app_nil_r. Qed.

Lemma tool_call_log_session (m : string) (s : State) :
  List.filter is_tool_call (effects (log_session m s))
  = List.filter is_tool_call (effects s).
Proof.
  unfold log_session. destruct (logger_enable_session_log s); [|reflexivity].
  rewrite effects_emit, List.filter_app. simpl. by rewrite app_nil_r.
Qed.

Lemma tool_call_speak_if_guided (t : string) (s : State) :
  List.filter is_tool_call (effects (speak_if_guided t s))
  = List.filter is_tool_call (effects s).
Proof.
  unfold speak_if_guided, _speak. destruct (guided s); [|reflexivity].
  destruct (truthy t); [|reflexivity].
  rewrite effects_emit, List.filter_app. simpl. by rewrite app_nil_r.
Qed.

Lemma buffer_log_session (m : string) (s : State) :
  terminal_buffer (log_session m s) = terminal_buffer s.
Proof. apply silent_buffer, silent_log_session. Qed.

(** The session right before the tool is called. *)
Lemma codex_run_prelude (prompt : string) (s : State) :
  let s0 := set_last_codex_prompt (Some prompt) s in
  let cmd := _build_codex_command prompt s0 in
  let s := log_session ("PROMPT: " +:+ prompt) s0 in
  let s := _print "" true s in
  let s := _print (String.concat "" (repeat "=" 80)) true s in
  let s := _print "New Codex run:" true s in
  let s := _print ("Model: " +:+ current_model (settings s) +:+ ", Reasoning: "
                   +:+ current_reasoning (settings s)) true s in
  let s := _print ("Prompt:" +:+ nl +:+ prompt) true s in
  let s := _print "Command:" true s in
  let s := _print (join " " (map shlex_quote cmd)) true s in
  let s := _print "┌────────────────────────────────────────┐" true s in
  let s := _print "│  Running Codex, please wait...        │" true s in
  let s := _print "└────────────────────────────────────────┘" true s in
  quiet s0 s
  /\ List.filter is_tool_call (effects s) = List.filter is_tool_call (effects s0).
Proof.
  cbv zeta. split.
  - repeat (eapply quiet_trans; [|apply (quiet_print _ true)]).
    apply quiet_log_session.
  - rewrite !tool_call_print. apply tool_call_log_session.
Qed.


(** X7. [_run_codex_prompt] records the prompt, calls the tool exactly
    once with the command built for it, and always leaves a response that
    is not empty and is the last line of the terminal buffer: the output,
    a placeholder for an empty output, or the text of the error. Apart from
    prompt, response, last-action index, buffer and output the session is
    as before, and nothing of consequence happens. *)
Theorem codex_run_outcome (prompt : string) (s : State) :
  let s' := _run_codex_prompt prompt s in
  last_codex_prompt s' = Some prompt
  /\ truthy_opt (last_codex_response s') = true
  /\ last (terminal_buffer s') = last_codex_response s'
  /\ quiet (set_last_codex_response (last_codex_response s')
             (set_last_codex_prompt (Some prompt)
                (set_buffer_last_action_index (buffer_last_action_index s') s)))
           s'
  /\ List.filter is_tool_call (effects s')
     = List.filter is_tool_call (effects s)
       ++ [CodexCall (_build_codex_command prompt s)]
  /\ untouched s s'.
Proof.
  cbv zeta.
  assert (Hun : untouched s (_run_codex_prompt prompt s)).
  { apply (stable_run_codex_prompt (untouched s) (untouched_stable s)).
    apply untouched_refl. }
  assert (Hclose : forall (s' : State) (r : string) (i : Z),
    quiet (set_buffer_last_action_index i
             (set_last_codex_response (Some r)
                (set_last_codex_prompt (Some prompt) s))) s' ->
    truthy r = true ->
    last (terminal_buffer s') = Some r ->
    List.filter is_tool_call (effects s')
    = List.filter is_tool_call (effects s)
      ++ [CodexCall (_build_codex_command prompt s)] ->
    untouched s s' ->
    last_codex_prompt s' = Some prompt
    /\ truthy_opt (last_codex_response s') = true
    /\ last (terminal_buffer s') = last_codex_response s'
    /\ quiet (set_last_codex_response (last_codex_response s')
               (set_last_codex_prompt (Some prompt)
                  (set_buffer_last_action_index (buffer_last_action_index s') s)))
             s'
    /\ List.filter is_tool_call (effects s')
       = List.filter is_tool_call (effects s)
         ++ [CodexCall (_build_codex_command prompt s)]
    /\ untouched s s').
  { intros s' r i Hq Hr Hl He Hu.
    assert (Hp : last_codex_prompt s' = Some prompt)
      by (symmetry; exact (f_equal last_codex_prompt Hq)).
    assert (Hresp : last_codex_response s' = Some r)
      by (symmetry; exact (f_equal last_codex_response Hq)).
    assert (Hi : buffer_last_action_index s' = i)
      by (symmetry; exact (f_equal buffer_last_action_index Hq)).
    rewrite Hresp, Hi.
    split; [exact Hp|]. split; [exact Hr|]. split; [exact Hl|].
    split; [exact Hq|]. split; [exact He|exact Hu]. }
  revert Hun. unfold _run_codex_prompt. cbv zeta.
  pose proof (codex_run_prelude prompt s) as Hpre. cbv zeta in Hpre.
  set (s0 := set_last_codex_prompt (Some prompt) s) in *.
  set (cmd := _build_codex_command prompt s0) in *.
  set (sA := _print "└────────────────────────────────────────┘" true _) in *.
  destruct Hpre as [HqA HtA].
  assert (HqB : quiet s0 (emit (CodexCall cmd) sA))
    by (eapply quiet_trans; [exact HqA|apply quiet_emit]).
  assert (HtB : List.filter is_tool_call (effects (emit (CodexCall cmd) sA))
                = List.filter is_tool_call (effects s) ++ [CodexCall cmd]).
  { rewrite effects_emit, List.filter_app, HtA. reflexivity. }
  assert (Herr : forall msg, truthy msg = true ->
    let s' := set_last_codex_response (Some msg)
                (_print msg true (emit (CodexCall cmd) sA)) in
    quiet (set_buffer_last_action_index (buffer_last_action_index s)
             (set_last_codex_response (Some msg) s0)) s'
    /\ last (terminal_buffer s') = Some msg
    /\ List.filter is_tool_call (effects s')
       = List.filter is_tool_call (effects s) ++ [CodexCall cmd]).
  { intros msg Hmsg. cbv zeta. split; [|split].
    - change (quiet (set_last_codex_response (Some msg) s0)
                (set_last_codex_response (Some msg)
                   (_print msg true (emit (CodexCall cmd) sA)))).
      apply quiet_set_response.
      eapply quiet_trans; [exact HqB|apply (quiet_print _ true)].
    - change (last (terminal_buffer (_print msg true (emit (CodexCall cmd) sA)))
              = Some msg).
      rewrite buffer_print_any, Hmsg. apply last_snoc.
    - change (List.filter is_tool_call
                (effects (_print msg true (emit (CodexCall cmd) sA)))
              = List.filter is_tool_call (effects s) ++ [CodexCall cmd]).
      by rewrite tool_call_print. }
  destruct (run_codex (clock sA) cmd) as [|e|rc out err]; intros Hun.
  - destruct (Herr codex_not_found_msg eq_refl) as (H1 & H2 & H3).
    exact (Hclose _ codex_not_found_msg (buffer_last_action_index s)
             H1 eq_refl H2 H3 Hun).
  - destruct (Herr ("Error running codex: " +:+ e) eq_refl) as (H1 & H2 & H3).
    exact (Hclose _ ("Error running codex: " +:+ e) (buffer_last_action_index s)
             H1 eq_refl H2 H3 Hun).
  - set (outp := if (rc =? 0)%Z then or_str out "(no output)" else _) in *.
    assert (Hout : truthy outp = true).
    { unfold outp, or_str. destruct (rc =? 0)%Z; [|reflexivity].
      destruct (truthy out) eqn:E; [exact E|reflexivity]. }
    set (sC := _print outp true (_print "Output:" true (emit (CodexCall cmd) sA))) in *.
    assert (HqC : quiet s0 sC).
    { eapply quiet_trans; [exact HqB|].
      eapply quiet_trans;
        [apply (quiet_print "Output:" true)|apply (quiet_print outp true)]. }
    set (sE := log_session ("RESPONSE: " +:+ outp)
                 (set_last_codex_response (Some outp) sC)) in *.
    assert (HqE : quiet (set_last_codex_response (Some outp) s0) sE).
    { eapply quiet_trans; [apply quiet_set_response, HqC|apply quiet_log_session]. }
    apply (Hclose _ outp (Z.of_nat (length (terminal_buffer sE))));
      [| | | |exact Hun].
    + eapply quiet_trans; [apply quiet_set_index, HqE|].
      eapply quiet_trans; [apply quiet_speak_if_guided|apply quiet_print_status].
    + exact Hout.
    + rewrite status_buffer, speak_buffer.
      change (terminal_buffer (mark_last_action sE)) with (terminal_buffer sE).
      unfold sE. rewrite buffer_log_session.
      change (terminal_buffer (set_last_codex_response (Some outp) sC))
        with (terminal_buffer sC).
      unfold sC. rewrite buffer_print_any, Hout. apply last_snoc.
    + change (effects (_print_status ?x))
        with (effects (_print ("[STATUS] " +:+ _status_text x) false x)).
      rewrite tool_call_print, tool_call_speak_if_guided.
      change (effects (mark_last_action sE)) with (effects sE).
      unfold sE. rewrite tool_call_log_session.
      change (effects (set_last_codex_response (Some outp) sC)) with (effects sC).
      unfold sC. rewrite !tool_call_print. exact HtB.
Qed.


(** X8. When the tool cannot be started because it is not installed, the
    request for a shell command still ends with a proposal: the text of the
    error message becomes the pending command, with an empty explanation. *)
Theorem missing_tool_is_proposed (s : State) :
  (forall n args, run_codex n args = CodexNotFound) ->
  truthy (_get_history_for_shell s) || truthy (strip (prompt_text s)) = true ->
  pending_shell_command (_voice_shell_request s) = Some codex_not_found_msg
  /\ pending_shell_explanation (_voice_shell_request s) = Some "".
Proof.
  intros Hmissing Hsome.
  pose proof (settle_shell_request s Hsome) as [_ Hset].
  set (s1 := _run_codex_prompt _ _) in Hset.
  assert (Hresp : last_codex_response s1 = Some codex_not_found_msg).
  { unfold s1, _run_codex_prompt. cbv zeta. rewrite Hmissing. reflexivity. }
  unfold _extract_cmd_expl_from_response in Hset. rewrite Hresp in Hset.
  change (extract_cmd_expl (default "" (Some codex_not_found_msg)))
    with (Some codex_not_found_msg, @None string) in Hset.
  exact Hset.
Qed.

End CommandFacts.

Lemma shell_command_outcome_witness :
  Shell.terminal_buffer (Shell._run_shell_command "ls" Demo.start) = ["$ ls"; "ok"]
  /\ Shell.buffer_last_action_index (Shell._run_shell_command "ls" Demo.start)
     = 2%Z.
Proof.
  destruct (shell_command_outcome "ls" Demo.start) as [_ H].
  destruct (H eq_refl) as (_ & _ & H3).
  destruct (H3 "ok" "" eq_refl) as (Hb & Hi & _).
  split; [exact Hb|exact Hi].
Defined.

Lemma missing_tool_is_proposed_witness :
  Shell.pending_shell_command
    (@Shell._voice_shell_request Demo.no_tool Demo.no_tool_session)
  = Some "Error: 'codex' CLI not found. Install with 'npm install -g @openai/codex' and run 'codex login'.".
Proof.
  apply (@missing_tool_is_proposed Demo.no_tool Demo.no_tool_session); reflexivity.
Defined.

(** ** Dictation and confirmations *)

Section DictationFacts.
Context {W : Shell.World}.
Import PyStr Shell.

(** X9. With no confirmation pending, an utterance whose first token does
    not match the wake word is not a command. Outside prompt editing it is
    ignored altogether. During prompt editing the single token done or
    enter ends the editing and leaves the prompt as it is; anything else is
    appended to the prompt, after a space when the prompt is not empty, as
    its tokens joined by spaces. *)
Theorem unaddressed_utterance (text : string) (inp : list string) (s : State)
    (first : string) (rest : list string) :
  truthy_opt (confirm_mode s) = false ->
  _tokenize text = first :: rest ->
  fuzzy first (_get_wake_variants s) = false ->
  let r := _handle_voice_text text inp s in
  raised r = None /\ unread r = inp
  /\ (prompt_capture s = false -> st r = s)
  /\ (prompt_capture s = true ->
      if match rest with [] => true | _ => false end && mem first ["done"; "enter"]
      then quiet (set_prompt_capture false s) (st r)
      else quiet (set_prompt_text
                    ((if truthy (prompt_text s) then prompt_text s +:+ " " else "")
                     +:+ join " " (first :: rest)) s)
                 (st r)).
Proof.
  intros Hc Ht Hw. unfold _handle_voice_text. rewrite Ht. cbv zeta.
  rewrite Hc, Hw. simpl negb. rewrite andb_true_r.
  destruct (prompt_capture s) eqn:Hp; cbv iota.
  - destruct (match rest with [] => true | _ => false end
              && mem first ["done"; "enter"]) eqn:Hd; cbv iota.
    + split; [reflexivity|]. split; [reflexivity|]. split; [discriminate|].
      intros _. cbn [st ret].
      eapply quiet_trans; [|apply quiet_print_status].
      eapply quiet_trans; [|apply quiet_speak_if_guided].
      apply (quiet_print _ true).
    + split; [reflexivity|]. split; [reflexivity|]. split; [discriminate|].
      intros _. cbn [st ret].
      eapply quiet_trans; [|apply quiet_print_status].
      eapply quiet_trans; [|apply (quiet_print _ true)].
      destruct (truthy (prompt_text s)) eqn:E; [reflexivity|].
      apply truthy_false in E. rewrite E. reflexivity.
  - split; [reflexivity|]. split; [reflexivity|]. split; [reflexivity|discriminate].
Qed.


Lemma consequential_print_status (s : State) :
  List.filter consequential (effects (_print_status s))
  = List.filter consequential (effects s).
Proof. apply consequential_print. Qed.

(** X10. Declining leaves the proposal in place. A declined confirmation,
    whatever its reason, only closes the confirmation and prints the
    cancellation; the typed command [v-exec] answered with anything but y,
    yes or confirm changes nothing but buffer and output. In both cases the
    pending command and its explanation stay as they were. *)
Theorem declining_keeps_proposal (inp : list string) (s : State) :
  (truthy_opt (confirm_mode s) = true ->
   let r := _apply_confirm_decision false inp s in
   raised r = None /\ unread r = inp
   /\ quiet (set_confirm_mode None s) (st r)
   /\ last (terminal_buffer (st r)) = Some "[CONFIRM] Cancelled.")
  /\ (forall answer,
        truthy_opt (pending_shell_command s) = true ->
        accepts answer = false ->
        let r := _handle_typed_voice_command (answer :: inp) "v-exec" s in
        raised r = None /\ unread r = inp
        /\ quiet s (st r)
        /\ last (terminal_buffer (st r)) = Some "[CONFIRM] Cancelled.").
Proof.
  split.
  - intros Hc. unfold _apply_confirm_decision. cbv zeta. rewrite Hc. simpl negb.
    cbv iota. cbn [st ret raised unread].
    split; [reflexivity|]. split; [reflexivity|]. split.
    + eapply quiet_trans; [|apply quiet_print_status].
      eapply quiet_trans; [|apply quiet_speak_if_guided].
      apply (quiet_print _ true).
    + rewrite status_buffer, speak_buffer, buffer_print by reflexivity.
      apply last_snoc.
  - intros answer Hp Ha.
    change (_handle_typed_voice_command (answer :: inp) "v-exec" s)
      with (if negb (truthy_opt (pending_shell_command s))
            then ret (_print "[CMD] No pending command." true s) (answer :: inp)
            else
              let pending := default "" (pending_shell_command s) in
              let s := _print ("[CONFIRM] Execute: " +:+ pending +:+ " (y/N)? ")
                         true s in
              if accepts answer then
                let cmd_to_run := strip pending in
                let s := _print ("[EXEC] Running: " +:+ cmd_to_run) true s in
                let s := emit (Dispatch cmd_to_run) s in
                let r :=
                  if startswith "v-" cmd_to_run then
                    _handle_typed_voice_command inp cmd_to_run s
                  else
                    match split cmd_to_run with
                    | t0 :: ts =>
                        if String.eqb (lower t0) (lower (assistant_name (settings s)))
                        then ret (_handle_wake_command (_tokenize (join " " ts)) s) inp
                        else ret (_run_shell_command cmd_to_run s) inp
                    | [] => ret (_run_shell_command cmd_to_run s) inp
                    end in
                match raised r with
                | Some _ => r
                | None =>
                    ret (set_pending_shell_explanation None
                           (set_pending_shell_command None (st r))) (unread r)
                end
              else ret (_print "[CONFIRM] Cancelled." true s) inp).
    rewrite Hp, Ha. cbv zeta. simpl negb. cbv iota. cbn [st ret raised unread].
    split; [reflexivity|]. split; [reflexivity|]. split.
    + eapply quiet_trans; [|apply (quiet_print "[CONFIRM] Cancelled." true)].
      apply (quiet_print _ true).
    + rewrite buffer_print by reflexivity. apply last_snoc.
Qed.


Lemma truthy_of_strip (c : string) : truthy (strip c) = true -> truthy c = true.
Proof.
  intros H. apply truthy_true. intros ->. by apply truthy_true in H.
Qed.

(** X11. An accepted confirmation of a pending command that is an
    ordinary shell command (neither a [v-] command nor one addressed to the
    assistant) dispatches it and runs it exactly once, raises nothing, reads
    no input, and ends with no proposal and no confirmation pending. *)
Theorem accepted_exec_runs_once (c : string) (inp : list string) (s : State) :
  confirm_mode s = Some "exec" ->
  pending_shell_command s = Some c ->
  truthy (strip c) = true ->
  startswith "v-" (strip c) = false ->
  lower (hd "" (split (strip c))) <> lower (assistant_name (settings s)) ->
  let r := _apply_confirm_decision true inp s in
  raised r = None /\ unread r = inp
  /\ pending_shell_command (st r) = None
  /\ pending_shell_explanation (st r) = None
  /\ confirm_mode (st r) = None
  /\ List.filter consequential (effects (st r))
     = List.filter consequential (effects s) ++ [Dispatch (strip c); OsCall (strip c)].
Proof.
  intros Hm Hp Ht Hv Hname. unfold _apply_confirm_decision. cbv zeta.
  rewrite Hm. simpl negb. cbv iota.
  change (pending_shell_command (set_confirm_mode None s))
    with (pending_shell_command s).
  rewrite Hp. simpl default. change (String.eqb "exec" "exec") with true.
  cbn [andb truthy_opt]. rewrite (truthy_of_strip c Ht). cbv iota. rewrite Hv.
  set (s2 := emit (Dispatch (strip c)) _).
  assert (Hrun : (match split (strip c) with
                  | t0 :: ts =>
                      if String.eqb (lower t0) (lower (assistant_name (settings s2)))
                      then ret (_handle_wake_command (_tokenize (join " " ts)) s2) inp
                      else ret (_run_shell_command (strip c) s2) inp
                  | [] => ret (_run_shell_command (strip c) s2) inp
                  end) = ret (_run_shell_command (strip c) s2) inp).
  { destruct (split (strip c)) as [|t0 ts]; [reflexivity|].
    simpl in Hname. apply String.eqb_neq in Hname.
    change (assistant_name (settings s2)) with (assistant_name (settings s)).
    by rewrite Hname. }
  rewrite Hrun. cbn [raised ret st unread].
  assert (Ht' : truthy (strip (strip c)) = true) by by rewrite strip_strip.
  destruct (run_shell_command_effect (strip c) s2) as [_ Hout].
  destruct (Hout Ht') as (Hq & Hcons & _).
  set (s3 := _run_shell_command (strip c) s2) in *.
  set (s4 := set_pending_shell_explanation None (set_pending_shell_command None s3)).
  assert (Hq4 : quiet s4 (_print_status
                            (speak_if_guided "Executed the recommended command." s4))).
  { eapply quiet_trans; [apply quiet_speak_if_guided|apply quiet_print_status]. }
  split; [reflexivity|]. split; [reflexivity|]. split; [|split; [|split]].
  - exact (quiet_pending_command _ _ Hq4).
  - exact (quiet_pending_explanation _ _ Hq4).
  - rewrite (quiet_confirm_mode _ _ Hq4).
    change (confirm_mode s4) with (confirm_mode
      (set_buffer_last_action_index (buffer_last_action_index s2) s3)).
    rewrite (quiet_confirm_mode _ _ Hq). reflexivity.
  - rewrite consequential_print_status, consequential_speak_if_guided.
    change (effects s4) with (effects s3). rewrite Hcons. unfold s2.
    rewrite effects_emit, List.filter_app, consequential_print.
    simpl. by rewrite <- app_assoc.
Qed.

End DictationFacts.

Lemma unaddressed_utterance_witness :
  let s := Shell.set_prompt_capture true (Shell.set_prompt_text "list" Demo.start) in
  Shell.quiet (Shell.set_prompt_text "list all files" s)
    (Shell.st (Shell._handle_voice_text "all files" [] s)).
Proof.
  cbv zeta.
  destruct (unaddressed_utterance "all files" []
              (Shell.set_prompt_capture true (Shell.set_prompt_text "list" Demo.start))
              "all" ["files"] eq_refl eq_refl eq_refl) as (_ & _ & _ & H).
  exact (H eq_refl).
Defined.

Lemma declining_keeps_proposal_witness :
  last (Shell.terminal_buffer
          (Shell.st (Shell._apply_confirm_decision false [] Demo.confirming_exit)))
  = Some "[CONFIRM] Cancelled.".
Proof.
  destruct (declining_keeps_proposal [] Demo.confirming_exit) as [H _].
  destruct (H eq_refl) as (_ & _ & _ & Hl). exact Hl.
Defined.

Lemma accepted_exec_runs_once_witness :
  let s := Shell.set_confirm_mode (Some "exec") Demo.with_proposal in
  let r := Shell._apply_confirm_decision true [] s in
  Shell.pending_shell_command (Shell.st r) = None
  /\ Shell.confirm_mode (Shell.st r) = None.
Proof.
  cbv zeta.
  destruct (accepted_exec_runs_once "ls -la" []
              (Shell.set_confirm_mode (Some "exec") Demo.with_proposal))
    as (_ & _ & H1 & _ & H2 & _).
  - reflexivity.
  - vm_compute. reflexivity.
  - reflexivity.
  - reflexivity.
  - vm_compute. discriminate.
  - split; [exact H1|exact H2].
Defined.


(** ** Text chunks for the speech engine *)

Section ChunkFacts.
Import PyStr Gui.

Lemma append_cons (x : ascii) (a b : string) :
  String x a +:+ b = String x (a +:+ b).
Proof. reflexivity. Qed.

Lemma append_assoc (a b c : string) : (a +:+ b) +:+ c = a +:+ (b +:+ c).
Proof.
  induction a as [|x a IH]; [reflexivity|]. by rewrite !append_cons, IH.
Qed.

Lemma join_snoc (sep : string) (xs : list string) (a : string) :
  join sep (xs ++ [a])
  = match xs with [] => a | _ => join sep xs +:+ sep +:+ a end.
Proof.
  induction xs as [|x xs IH]; [reflexivity|].
  destruct xs as [|y xs]; [reflexivity|].
  change (join sep ((x :: y :: xs) ++ [a]))
    with (x +:+ sep +:+ join sep ((y :: xs) ++ [a])).
  rewrite IH. change (join sep (x :: y :: xs)) with (x +:+ sep +:+ join sep (y :: xs)).
  by rewrite !append_assoc.
Qed.

Lemma length_append (a b : string) :
  String.length (a +:+ b) = String.length a + String.length b.
Proof.
  induction a as [|c a IH]; [reflexivity|].
  rewrite append_cons. simpl. by rewrite IH.
Qed.

Lemma append_nonempty_r (a b : string) : b <> "" -> a +:+ b <> "".
Proof.
  intros Hb E. apply (f_equal String.length) in E. rewrite length_append in E.
  destruct b; [done|]. simpl in E. lia.
Qed.


Lemma chunk_step_inv (max_chars : Z) (ss : list string)
    (acc : list string * string) (ps : list string) (s : string) :
  (s <> "" -> s ∈ ss) ->
  chunk_inv max_chars ss acc ps ->
  chunk_inv max_chars ss (chunk_step max_chars acc s)
    (ps ++ (if truthy s then [s] else [])).
Proof.
  intros Hs. destruct acc as [chunks current]. unfold chunk_inv, chunk_step.
  cbv zeta. cbn [fst snd]. intros (Hne & Hj & Hb & He & Hn).
  destruct (truthy s) eqn:Ts; cbn [negb]; cbv iota;
    [|cbn [fst snd]; rewrite app_nil_r;
      exact (conj Hne (conj Hj (conj Hb (conj He Hn))))].
  apply truthy_true in Ts.
  destruct (truthy current) eqn:Tc; cbn [negb]; cbv iota.
  - apply truthy_true in Tc. specialize (Hn Tc).
    apply Forall_app in Hne as [Hne1 Hne2]. apply Forall_app in Hb as [Hb1 Hb2].
    assert (Hps : join " " (ps ++ [s]) = join " " ps +:+ " " +:+ s).
    { rewrite join_snoc. by destruct ps. }
    destruct (Z.leb_spec (Z.of_nat (String.length current) + 1
                          + Z.of_nat (String.length s)) max_chars) as [Hle|Hgt];
      cbn [fst snd].
    + assert (Tm : truthy (current +:+ " " +:+ s) = true).
      { apply truthy_true, append_nonempty_r, append_nonempty_r, Ts. }
      rewrite Tm. split; [|split; [|split; [|split]]].
      * apply Forall_app. split; [exact Hne1|]. apply Forall_singleton.
        by apply truthy_true.
      * rewrite Hps, <- Hj, !join_snoc. destruct chunks; by rewrite ?append_assoc.
      * apply Forall_app. split; [exact Hb1|]. apply Forall_singleton. left.
        rewrite !length_append. simpl. lia.
      * intros E. by apply truthy_true in Tm.
      * intros _. by destruct ps.
    + assert (Tss : truthy s = true) by by apply truthy_true.
      rewrite Tss. split; [|split; [|split; [|split]]].
      * apply Forall_app. split; [by apply Forall_app|by apply Forall_singleton].
      * rewrite Hps, <- Hj, join_snoc.
        destruct (chunks ++ [current]) eqn:E; [|reflexivity].
        symmetry in E. by apply app_cons_not_nil in E.
      * apply Forall_app. split; [by apply Forall_app|].
        apply Forall_singleton. right. by apply Hs.
      * intros E. done.
      * intros _. by destruct ps.
  - apply truthy_false in Tc. destruct (He Tc) as [-> ->]. cbn [fst snd app].
    assert (Tss : truthy s = true) by by apply truthy_true.
    rewrite Tss. split; [|split; [|split; [|split]]].
    + by apply Forall_singleton.
    + reflexivity.
    + apply Forall_singleton. right. by apply Hs.
    + done.
    + done.
Qed.

Lemma chunk_fold_inv (max_chars : Z) (ss l : list string)
    (acc : list string * string) (ps : list string) :
  (forall s, s ∈ l -> s <> "" -> s ∈ ss) ->
  chunk_inv max_chars ss acc ps ->
  chunk_inv max_chars ss (fold_left (chunk_step max_chars) l acc)
    (ps ++ List.filter truthy l).
Proof.
  revert acc ps. induction l as [|s l IH]; intros acc ps Hl Hinv; simpl.
  - by rewrite app_nil_r.
  - replace (ps ++ (if truthy s then s :: List.filter truthy l
                    else List.filter truthy l))
      with ((ps ++ (if truthy s then [s] else [])) ++ List.filter truthy l)
      by (destruct (truthy s); by rewrite <- ?app_assoc, ?app_nil_r).
    apply IH.
    + intros x Hx. apply Hl. by apply list_elem_of_further.
    + apply chunk_step_inv; [|exact Hinv]. apply Hl, list_elem_of_here.
Qed.

(** X12. The chunks handed to the speech engine are never empty and,
    joined by single spaces, spell exactly the sentences of the stripped
    text joined by single spaces: nothing is lost, repeated or reordered. A
    chunk is longer than the bound only when it is a single sentence. A
    blank text gives no chunk. *)
Theorem chunks_keep_text (text : string) (max_chars : Z) :
  let cs := _chunk_text_for_tts text max_chars in
  let ss := List.filter truthy (sentences (strip text)) in
  (strip text = "" -> cs = [])
  /\ Forall (fun c => c <> "") cs
  /\ join " " cs = join " " ss
  /\ Forall (fun c => (Z.of_nat (String.length c) <= max_chars)%Z \/ c ∈ ss) cs.
Proof.
  cbv zeta. unfold _chunk_text_for_tts. cbv zeta.
  destruct (truthy (strip text)) eqn:Tt; simpl negb; cbv iota.
  - apply truthy_true in Tt.
    pose proof (chunk_fold_inv max_chars
                  (List.filter truthy (sentences (strip text)))
                  (sentences (strip text)) ([], "") []) as H.
    destruct (fold_left (chunk_step max_chars) (sentences (strip text)) ([], ""))
      as [chunks current].
    destruct H as (H1 & H2 & H3 & _).
    + intros s Hs Hne. apply list_elem_of_In, filter_In. split.
      * by apply list_elem_of_In.
      * by apply truthy_true.
    + unfold chunk_inv. cbv zeta. cbn [fst snd]. simpl.
      split; [constructor|]. split; [reflexivity|]. split; [constructor|].
      split; [done|]. intros H. by contradiction H.
    + cbn [fst snd app] in H1, H2, H3.
      destruct (truthy current); rewrite ?app_nil_r in *; by repeat split.
  - apply truthy_false in Tt. rewrite Tt.
    split; [done|]. split; [constructor|]. split; [reflexivity|constructor].
Qed.


Example chunks_of_three_sentences :
  _chunk_text_for_tts "  Hi there. How are you?  Fine! " 20
  = ["Hi there."; "How are you? Fine!"].
Proof. vm_compute. reflexivity. Qed.

End ChunkFacts.

(** ** Model and reasoning selection by voice *)

Section CycleFacts.
Import PyStr Gui.

Lemma index_nth_models (j : nat) :
  j < 4 -> index MODEL_OPTIONS (nth j MODEL_OPTIONS "") = Some j.
Proof. intros H. do 4 (destruct j as [|j]; [reflexivity|]). lia. Qed.

Lemma index_nth_reasoning (j : nat) :
  j < 4 -> index REASONING_OPTIONS (nth j REASONING_OPTIONS "") = Some j.
Proof. intros H. do 4 (destruct j as [|j]; [reflexivity|]). lia. Qed.

Lemma index_bound (l : list string) (x : string) (i : nat) :
  index l x = Some i -> i < length l /\ nth i l "" = x.
Proof.
  revert i. induction l as [|y l IH]; intros i; simpl; [discriminate|].
  destruct (String.eqb_spec y x) as [->|Hne].
  - intros [= <-]. split; [lia|reflexivity].
  - destruct (index l x) as [j|]; [|discriminate]. intros [= <-].
    destruct (IH j eq_refl) as [H1 H2]. split; [lia|exact H2].
Qed.

Lemma cycle_index_bound (idx : nat) (direction : Z) (options : list string) :
  options <> [] -> cycle_index idx direction options < length options.
Proof.
  intros Hne. unfold cycle_index.
  assert (0 < Z.of_nat (length options))%Z by (destruct options; [done|simpl; lia]).
  pose proof (Z.mod_pos_bound (Z.of_nat idx + direction) (Z.of_nat (length options))).
  lia.
Qed.

Lemma cycle_index_back (idx : nat) (direction : Z) (options : list string) :
  idx < length options ->
  cycle_index (cycle_index idx direction options) (- direction) options = idx.
Proof.
  intros Hlt. unfold cycle_index.
  assert (Hpos : (0 < Z.of_nat (length options))%Z) by lia.
  pose proof (Z.mod_pos_bound (Z.of_nat idx + direction)
                (Z.of_nat (length options)) Hpos) as Hb.
  rewrite Z2Nat.id by lia.
  rewrite Zplus_mod_idemp_l.
  replace (Z.of_nat idx + direction + - direction)%Z with (Z.of_nat idx) by lia.
  rewrite Z.mod_small by lia. apply Nat2Z.id.
Qed.

Lemma model_var_cycle (direction : Z) (g : State) :
  model_var (_cycle_model direction g)
  = nth (cycle_index (default 0 (index MODEL_OPTIONS (model_var g))) direction
           MODEL_OPTIONS) MODEL_OPTIONS "".
Proof.
  unfold _cycle_model, _guided_say. cbv zeta.
  destruct (negb _ || negb _); reflexivity.
Qed.

Lemma reasoning_var_cycle (direction : Z) (g : State) :
  reasoning_var (_cycle_reasoning direction g)
  = nth (cycle_index (default 1 (index REASONING_OPTIONS (reasoning_var g)))
           direction REASONING_OPTIONS) REASONING_OPTIONS "".
Proof.
  unfold _cycle_reasoning, _guided_say. cbv zeta.
  destruct (negb _ || negb _); reflexivity.
Qed.

(** X13. Cycling the model or the reasoning level by voice always lands
    on one of the offered options, whatever the current value and the
    direction; a value that is not among the options counts as the first
    model, respectively the second reasoning level. From an offered option,
    cycling one way and then back by the same amount restores it. *)
Theorem cycling_stays_in_options (direction : Z) (g : State) :
  model_var (_cycle_model direction g) ∈ MODEL_OPTIONS
  /\ reasoning_var (_cycle_reasoning direction g) ∈ REASONING_OPTIONS
  /\ (model_var g ∉ MODEL_OPTIONS ->
      model_var (_cycle_model direction g)
      = model_var (_cycle_model direction (set_model_var "gpt-5" g)))
  /\ (reasoning_var g ∉ REASONING_OPTIONS ->
      reasoning_var (_cycle_reasoning direction g)
      = reasoning_var (_cycle_reasoning direction (set_reasoning_var "low" g)))
  /\ (model_var g ∈ MODEL_OPTIONS ->
      model_var (_cycle_model (- direction) (_cycle_model direction g))
      = model_var g)
  /\ (reasoning_var g ∈ REASONING_OPTIONS ->
      reasoning_var (_cycle_reasoning (- direction) (_cycle_reasoning direction g))
      = reasoning_var g).
Proof.
  assert (Hin : forall l j, j < length l -> nth j l "" ∈ l).
  { intros l j Hj. apply list_elem_of_In, nth_In. exact Hj. }
  assert (Hidx : forall l x, x ∈ l -> exists i, index l x = Some i).
  { intros l x. induction l as [|y l IH]; intros Hx; [by apply elem_of_nil in Hx|].
    simpl. destruct (String.eqb_spec y x) as [->|Hne]; [by exists 0|].
    apply elem_of_cons in Hx as [->|Hx]; [done|].
    destruct (IH Hx) as [i ->]. by exists (S i). }
  assert (Hnone : forall l x, x ∉ l -> index l x = None).
  { intros l x Hx. destruct (index l x) as [i|] eqn:E; [|reflexivity].
    apply index_bound in E as [Hi <-]. exfalso. apply Hx. by apply Hin. }
  split; [|split; [|split; [|split; [|split]]]].
  - rewrite model_var_cycle. apply Hin. by apply cycle_index_bound.
  - rewrite reasoning_var_cycle. apply Hin. by apply cycle_index_bound.
  - intros Hx. rewrite !model_var_cycle, (Hnone _ _ Hx). reflexivity.
  - intros Hx. rewrite !reasoning_var_cycle, (Hnone _ _ Hx). reflexivity.
  - intros Hx. destruct (Hidx _ _ Hx) as [i Hi].
    destruct (index_bound _ _ _ Hi) as [Hlt Hnth].
    rewrite model_var_cycle, model_var_cycle, Hi.
    change (default 0 (Some i)) with i.
    rewrite index_nth_models by (by apply (cycle_index_bound i direction MODEL_OPTIONS)).
    change (default 0 (Some ?x)) with x.
    rewrite cycle_index_back by exact Hlt. exact Hnth.
  - intros Hx. destruct (Hidx _ _ Hx) as [i Hi].
    destruct (index_bound _ _ _ Hi) as [Hlt Hnth].
    rewrite reasoning_var_cycle, reasoning_var_cycle, Hi.
    change (default 1 (Some i)) with i.
    rewrite index_nth_reasoning
      by (by apply (cycle_index_bound i direction REASONING_OPTIONS)).
    change (default 1 (Some ?x)) with x.
    rewrite cycle_index_back by exact Hlt. exact Hnth.
Qed.

End CycleFacts.

Lemma cycling_stays_in_options_witness :
  Gui.model_var (Gui._cycle_model (- 1) (Gui._cycle_model 1 Demo.confirming_gui))
  = "gpt-5".
Proof.
  apply (cycling_stays_in_options 1 Demo.confirming_gui).
  apply list_elem_of_here.
Defined.


(** ** Alias store of the graphical front end: adding and deleting *)

Section AliasEditFacts.
Import PyStr Gui.

Lemma ensure_word_unfold (w : string) (p : VoiceProfile) :
  ensure_word w p = p
  \/ (lower (strip w) <> "" /\ words p !! lower (strip w) = None
      /\ ensure_word w p
         = set_words (<[lower (strip w) := fresh_meta]> (words p)) p).
Proof.
  unfold ensure_word. cbv zeta.
  destruct (truthy (lower (strip w))) eqn:Ht; simpl; [|by left].
  destruct (words p !! lower (strip w)) eqn:E; [by left|right].
  apply truthy_true in Ht. by repeat split.
Qed.

Lemma ensure_word_effect (w : string) (p : VoiceProfile) :
  target_samples (ensure_word w p) = target_samples p
  /\ (forall k m, words p !! k = Some m -> words (ensure_word w p) !! k = Some m)
  /\ (forall k, k <> lower (strip w) ->
                words (ensure_word w p) !! k = words p !! k)
  /\ (forall m, words (ensure_word w p) !! lower (strip w) = Some m ->
                words p !! lower (strip w) = Some m
                \/ (words p !! lower (strip w) = None /\ m = fresh_meta))
  /\ (strip w = "" -> ensure_word w p = p)
  /\ ensure_word w (ensure_word w p) = ensure_word w p.
Proof.
  destruct (ensure_word_unfold w p) as [E|(Hne & Hnone & E)].
  - rewrite !E. split; [reflexivity|]. split; [done|]. split; [done|].
    split; [by left|]. split; reflexivity.
  - rewrite E. split; [reflexivity|]. split; [|split; [|split; [|split]]].
    + intros k m Hk. simpl. rewrite lookup_insert_ne; [exact Hk|]. congruence.
    + intros k Hk. simpl. by rewrite lookup_insert_ne.
    + intros m. simpl. rewrite lookup_insert_eq. intros [= <-]. by right.
    + intros Hs. rewrite Hs in Hne. done.
    + unfold ensure_word at 1. cbv zeta.
      apply truthy_true in Hne. rewrite Hne. simpl.
      by rewrite lookup_insert_eq.
Qed.

(** X14. [ensure_word] never changes an existing entry or the target: it
    at most adds one fresh, uncalibrated entry under the stripped,
    lower-cased word, does nothing for a blank word, and doing it twice is
    the same as doing it once. *)
Theorem ensure_word_adds_at_most_one (w : string) (p : VoiceProfile) :
  target_samples (ensure_word w p) = target_samples p
  /\ (forall k m, words p !! k = Some m -> words (ensure_word w p) !! k = Some m)
  /\ (forall k, k <> lower (strip w) ->
                words (ensure_word w p) !! k = words p !! k)
  /\ (forall m, words (ensure_word w p) !! lower (strip w) = Some m ->
                words p !! lower (strip w) = Some m
                \/ (words p !! lower (strip w) = None /\ m = fresh_meta))
  /\ (strip w = "" -> ensure_word w p = p)
  /\ ensure_word w (ensure_word w p) = ensure_word w p.
Proof. apply ensure_word_effect. Qed.

Lemma get_aliases_lookup (word : string) (p : VoiceProfile) (x : string) :
  x ∈ get_aliases word p
  <-> exists m, words p !! lower word = Some m /\ x ∈ aliases m.
Proof.
  unfold get_aliases. destruct (words p !! lower word) as [m|].
  - rewrite elem_of_sorted. split; [intros H; by exists m|].
    by intros (m' & [= <-] & H).
  - split; [intros H; by apply elem_of_nil in H|]. by intros (m & [=] & _).
Qed.

Lemma add_alias_effect (word alias now : string) (p : VoiceProfile) :
  (strip alias = "" -> add_alias word alias now p = (p, None))
  /\ (strip alias <> "" ->
      forall p', add_alias word alias now p = (p', None) ->
        (forall x, x ∈ get_aliases word p'
                   <-> x = lower (strip alias) \/ x ∈ get_aliases word p)
        /\ target_samples p' = target_samples p
        /\ (forall k, k <> lower word -> k <> lower (strip (lower word)) ->
                      words p' !! k = words p !! k))
  /\ (strip alias <> "" ->
      (strip word = word /\ word <> "") \/ is_Some (words p !! lower word) ->
      snd (add_alias word alias now p) = None).
Proof.
  unfold add_alias. cbv zeta. split; [|split].
  - intros E. by rewrite E.
  - intros Hne p'. apply truthy_true in Hne. rewrite Hne. simpl negb. cbv iota.
    destruct (ensure_word_effect (lower word) p)
      as (Ht & Hkeep & Hother & Hnew & _).
    destruct (words (ensure_word (lower word) p) !! lower word) as [m|] eqn:Em;
      [|discriminate].
    intros [= <-]. split; [|split].
    + intros x. rewrite !get_aliases_lookup. simpl. rewrite lookup_insert_eq.
      split.
      * intros (m' & [= <-] & Hx). simpl in Hx.
        apply elem_of_union in Hx as [Hx|Hx];
          [|left; by apply elem_of_singleton in Hx].
        right. destruct (decide (lower word = lower (strip (lower word)))) as [Ek|Nk].
        -- destruct (Hnew m) as [Hm|[_ ->]]; [by rewrite <- Ek| |].
           ++ exists m. rewrite <- Ek in Hm. by split.
           ++ simpl in Hx. by apply not_elem_of_empty in Hx.
        -- exists m. split; [|exact Hx]. rewrite <- Em. symmetry. by apply Hother.
      * intros [->|(m' & Hm' & Hx)].
        -- eexists. split; [reflexivity|]. simpl. apply elem_of_union. right.
           by apply elem_of_singleton.
        -- eexists. split; [reflexivity|]. simpl. apply elem_of_union. left.
           apply Hkeep in Hm'. rewrite Em in Hm'. by injection Hm' as ->.
    + simpl. exact Ht.
    + intros k Hk1 Hk2. simpl. rewrite lookup_insert_ne by done. by apply Hother.
  - intros Hne Hw. apply truthy_true in Hne. rewrite Hne. simpl negb. cbv iota.
    destruct (ensure_word_lookup word p Hw) as [m ->]. reflexivity.
Qed.

(** X15. [add_alias] does nothing for a blank alias. Otherwise, when it
    returns normally, the aliases of the word are the ones it had before
    and the stripped, lower-cased alias; the target is unchanged, and so are
    the entries of all other words, except the one [ensure_word] may have
    created. It returns normally whenever the word is not blank and has no
    surrounding white space, or is already a key. *)
Theorem add_alias_spec (word alias now : string) (p : VoiceProfile) :
  (strip alias = "" -> add_alias word alias now p = (p, None))
  /\ (strip alias <> "" ->
      forall p', add_alias word alias now p = (p', None) ->
        (forall x, x ∈ get_aliases word p'
                   <-> x = lower (strip alias) \/ x ∈ get_aliases word p)
        /\ target_samples p' = target_samples p
        /\ (forall k, k <> lower word -> k <> lower (strip (lower word)) ->
                      words p' !! k = words p !! k))
  /\ (strip alias <> "" ->
      (strip word = word /\ word <> "") \/ is_Some (words p !! lower word) ->
      snd (add_alias word alias now p) = None).
Proof. apply add_alias_effect. Qed.

Lemma elem_of_discard_fold (l : list string) (acc : gset string) (x : string) :
  x ∈ fold_left (fun acc a => acc ∖ {[ lower a ]}) l acc
  <-> x ∈ acc /\ forall a, a ∈ l -> x <> lower a.
Proof.
  revert acc. induction l as [|a l IH]; intros acc; simpl.
  - split; [intros H; split; [exact H|]|by intros [H _]].
    intros a Ha. by apply elem_of_nil in Ha.
  - rewrite IH, elem_of_difference, elem_of_singleton. split.
    + intros [[Hx Hne] Hall]. split; [exact Hx|]. intros b Hb.
      apply elem_of_cons in Hb as [->|Hb]; [exact Hne|by apply Hall].
    + intros [Hx Hall]. split; [split; [exact Hx|]|].
      * apply Hall, list_elem_of_here.
      * intros b Hb. by apply Hall, list_elem_of_further.
Qed.

Lemma delete_aliases_effect (word : string) (which : option (list string))
    (p : VoiceProfile) :
  let p' := delete_aliases word which p in
  (words p !! lower word = None -> p' = p)
  /\ (forall x, x ∈ get_aliases word p'
                <-> x ∈ get_aliases word p
                    /\ match which with
                       | None => False
                       | Some l => forall a, a ∈ l -> x <> lower a
                       end)
  /\ target_samples p' = target_samples p
  /\ (forall k, k <> lower word -> words p' !! k = words p !! k)
  /\ (which = None -> is_Some (words p !! lower word) ->
      status <$> words p' !! lower word = Some (Some "Uncalibrated")).
Proof.
  cbv zeta. unfold delete_aliases. cbv zeta.
  destruct (words p !! lower word) as [m|] eqn:Em.
  - split; [discriminate|]. split; [|split; [reflexivity|split]].
    + intros x. rewrite !get_aliases_lookup. simpl. rewrite lookup_insert_eq, Em.
      split.
      * intros (m' & [= <-] & Hx). simpl in Hx. destruct which as [l|].
        -- apply elem_of_discard_fold in Hx as [Hx Hall].
           split; [by exists m|exact Hall].
        -- by apply not_elem_of_empty in Hx.
      * intros [(m' & [= <-] & Hx) Hw]. destruct which as [l|]; [|done].
        eexists. split; [reflexivity|]. simpl. by apply elem_of_discard_fold.
    + intros k Hk. simpl. by rewrite lookup_insert_ne.
    + intros -> _. simpl. rewrite lookup_insert_eq. reflexivity.
  - split; [reflexivity|]. split; [|split; [reflexivity|split]].
    + intros x. rewrite !get_aliases_lookup, Em. split.
      * by intros (m & [=] & _).
      * by intros [(m & [=] & _) _].
    + done.
    + intros _ [m Hm]. discriminate.
Qed.

(** X16. [delete_aliases] leaves the profile alone when the word is not a
    key. Otherwise it removes all aliases ([None] or ["all"]), or exactly the
    aliases equal to a lower-cased entry of the list, keeps the target and
    the other words, and after a removal of all aliases the stored status is
    [Uncalibrated]. *)
Theorem delete_aliases_spec (word : string) (which : option (list string))
    (p : VoiceProfile) :
  let p' := delete_aliases word which p in
  (words p !! lower word = None -> p' = p)
  /\ (forall x, x ∈ get_aliases word p'
                <-> x ∈ get_aliases word p
                    /\ match which with
                       | None => False
                       | Some l => forall a, a ∈ l -> x <> lower a
                       end)
  /\ target_samples p' = target_samples p
  /\ (forall k, k <> lower word -> words p' !! k = words p !! k)
  /\ (which = None -> is_Some (words p !! lower word) ->
      status <$> words p' !! lower word = Some (Some "Uncalibrated")).
Proof. apply delete_aliases_effect. Qed.

Lemma drop_while_same_length {A} (f : A -> bool) (l : list A) :
  length (drop_while f l) <= length l
  /\ (length (drop_while f l) = length l -> drop_while f l = l).
Proof.
  induction l as [|x l [IH1 IH2]]; simpl; [by split|].
  destruct (f x); simpl; [|by split; [lia|]].
  split; [lia|]. intros E. lia.
Qed.

Lemma length_chars (s : string) : length (chars s) = String.length s.
Proof. induction s as [|c s IH]; simpl; [reflexivity|]. by rewrite <- IH. Qed.

Lemma length_lower (s : string) : String.length (lower s) = String.length s.
Proof.
  unfold lower. by rewrite <- !length_chars, chars_str, length_map.
Qed.

Lemma strip_same_length (s : string) :
  String.length (strip s) = String.length s -> strip s = s.
Proof.
  unfold strip, strip_by. rewrite <- !length_chars, chars_str, length_rev.
  intros E.
  destruct (drop_while_same_length isspace (chars s)) as [H1 H2].
  destruct (drop_while_same_length isspace (rev (drop_while isspace (chars s))))
    as [H3 H4].
  rewrite length_rev in H3, H4.
  rewrite H4 by lia. rewrite rev_involutive.
  rewrite H2; [apply str_chars|]. lia.
Qed.

(** X17. Deleting what was just added: [delete_aliases(word, [alias])]
    after [add_alias(word, alias)] removes the alias again when the alias
    has no surrounding white space; with surrounding white space the alias
    stays, because the deletion lower-cases its argument without stripping
    it. *)
Theorem delete_after_add (word alias now : string) (p p' : VoiceProfile) :
  strip alias <> "" ->
  add_alias word alias now p = (p', None) ->
  let p'' := delete_aliases word (Some [alias]) p' in
  (strip alias = alias ->
   forall x, x ∈ get_aliases word p''
             <-> x ∈ get_aliases word p /\ x <> lower alias)
  /\ (strip alias <> alias -> lower (strip alias) ∈ get_aliases word p'').
Proof.
  intros Hne Hadd. cbv zeta.
  destruct (add_alias_effect word alias now p) as (_ & Hspec & _).
  destruct (Hspec Hne p' Hadd) as (Hget & _).
  destruct (delete_aliases_effect word (Some [alias]) p') as (_ & Hdel & _).
  cbv zeta in Hdel. split.
  - intros Hs x. rewrite Hdel, Hget, Hs. split.
    + intros [[->|Hx] Hall].
      * exfalso. apply (Hall alias); [apply list_elem_of_here|reflexivity].
      * split; [exact Hx|]. apply Hall, list_elem_of_here.
    + intros [Hx Hxa]. split; [by right|].
      intros a Ha. by apply list_elem_of_singleton in Ha as ->.
  - intros Hs. apply Hdel. split; [apply Hget; by left|].
    intros a Ha. apply list_elem_of_singleton in Ha as ->.
    intros E. apply Hs.
    apply strip_same_length.
    apply (f_equal String.length) in E. by rewrite !length_lower in E.
Qed.

Lemma delete_after_add_witness :
  let p' := fst (add_alias "Guided" " guy " "t" Demo.three_samples) in
  let p'' := delete_aliases "Guided" (Some [" guy "]) p' in
  (strip " guy " = " guy " ->
   forall x, x ∈ get_aliases "Guided" p''
             <-> x ∈ get_aliases "Guided" Demo.three_samples /\ x <> lower " guy ")
  /\ (strip " guy " <> " guy " -> lower (strip " guy ") ∈ get_aliases "Guided" p'').
Proof.
  apply (delete_after_add "Guided" " guy " "t" Demo.three_samples
           (fst (add_alias "Guided" " guy " "t" Demo.three_samples))).
  - discriminate.
  - reflexivity.
Defined.

End AliasEditFacts.

(** ** The clear confirmation of the graphical front end: yes and no *)

Section ClearAnswerFacts.
Import PyStr Gui.

Lemma heard_nothing (text : string) :
  trim_fillers (split (strip text)) = [] -> heard_tokens text = [].
Proof. unfold heard_tokens. intros ->. reflexivity. Qed.

Lemma finish_clear_result (confirmed : bool) (g : State) :
  _finish_clear confirmed g
  = mkState "idle" (mode_var g) (model_var g) (reasoning_var g) (wake_name_var g)
      (voice_profile g)
      (if confirmed then "" else prompt_text g)
      (if confirmed then "" else output_text g)
      (if confirmed then "[VOICE] Cleared all panes." +:+ nl
       else console_text g +:+ ("[VOICE] Clear cancelled." +:+ nl))
      false
      (spoken g ++ (if _is_guided g
                    then [if confirmed then "Cleared all panes."
                          else "Clear cancelled."]
                    else [])).
Proof.
  destruct g as [vm mv mo rv wn vp pt ot ct w sp].
  unfold _finish_clear, _do_clear, _guided_say, _append_console, set_panes,
    set_voice_mode, set_spoken, set_clear_confirm_window, _is_guided.
  change (truthy "Cleared all panes.") with true.
  change (truthy "Clear cancelled.") with true.
  cbn [negb orb voice_mode mode_var model_var reasoning_var wake_name_var
       voice_profile prompt_text output_text console_text clear_confirm_window
       spoken].
  set (b := startswith "guided" (lower mv)).
  destruct confirmed, b, w;
    cbn [negb orb voice_mode mode_var model_var reasoning_var wake_name_var
         voice_profile prompt_text output_text console_text clear_confirm_window
         spoken]; rewrite ?app_nil_r; reflexivity.
Qed.

(** X18. With the clear confirmation open, an utterance with a token that
    matches a yes-variant empties the prompt and response panes and leaves
    exactly the line "Cleared all panes." on the console, also when another
    token matches a no-variant: yes is tested first. An utterance that
    matches only a no-variant keeps the panes and adds three lines to the
    console. Either answer returns to the idle mode, closes the window and,
    in guided mode, speaks one sentence. *)
Theorem clear_confirmation_answer
    (other : string -> string -> State -> State) (text : string) (g : State) :
  voice_mode g = "confirm_clear" ->
  let g' := _handle_voice_text other text g in
  let heard := join " " (trim_fillers (split (strip text))) in
  (any_fuzzy (heard_tokens text) (yes_targets g) (75 # 100) = true ->
   prompt_text g' = "" /\ output_text g' = ""
   /\ console_text g' = "[VOICE] Cleared all panes." +:+ nl
   /\ voice_mode g' = "idle" /\ clear_confirm_window g' = false
   /\ spoken g'
      = spoken g ++ (if _is_guided g then ["Cleared all panes."] else []))
  /\ (any_fuzzy (heard_tokens text) (yes_targets g) (75 # 100) = false ->
      any_fuzzy (heard_tokens text) (no_targets g) (75 # 100) = true ->
      prompt_text g' = prompt_text g /\ output_text g' = output_text g
      /\ console_text g'
         = ((console_text g +:+ ("[VOICE] Heard: " +:+ (heard +:+ nl)))
              +:+ ("[VOICE] Clear cancelled by voice." +:+ nl))
             +:+ ("[VOICE] Clear cancelled." +:+ nl)
      /\ voice_mode g' = "idle" /\ clear_confirm_window g' = false
      /\ spoken g'
         = spoken g ++ (if _is_guided g then ["Clear cancelled."] else [])).
Proof.
  intros Hm. cbv zeta.
  assert (Hempty : trim_fillers (split (strip text)) = [] ->
                   forall tg, any_fuzzy (heard_tokens text) tg (75 # 100) = false).
  { intros E tg. by rewrite (heard_nothing _ E). }
  unfold _handle_voice_text.
  destruct (negb (truthy (strip text))) eqn:Hb.
  { apply negb_true_iff, truthy_false in Hb.
    assert (E : trim_fillers (split (strip text)) = []) by (by rewrite Hb).
    split; [intros Hy|intros _ Hn]; by rewrite (Hempty E) in *. }
  destruct (trim_fillers (split (strip text))) as [|t0 ts] eqn:Et.
  { split; [intros Hy|intros _ Hn]; by rewrite (Hempty eq_refl) in *. }
  clear Hempty. cbv zeta.
  replace (voice_mode (_append_console _ g)) with "confirm_clear"
    by (symmetry; exact Hm).
  cbn [String.eqb Ascii.eqb Bool.eqb].
  unfold heard_tokens. rewrite Et.
  change (yes_targets (_append_console _ g)) with (yes_targets g).
  change (no_targets (_append_console _ g)) with (no_targets g).
  split.
  - intros ->. rewrite finish_clear_result. by repeat split.
  - intros -> ->. rewrite finish_clear_result. by repeat split.
Qed.

Lemma clear_confirmation_answer_witness :
  let g' := _handle_voice_text (fun _ _ g => g) "no, yes" Demo.confirming_gui in
  let heard := join " " (trim_fillers (split (strip "no, yes"))) in
  (any_fuzzy (heard_tokens "no, yes") (yes_targets Demo.confirming_gui) (75 # 100)
   = true ->
   prompt_text g' = "" /\ output_text g' = ""
   /\ console_text g' = "[VOICE] Cleared all panes." +:+ nl
   /\ voice_mode g' = "idle" /\ clear_confirm_window g' = false
   /\ spoken g'
      = spoken Demo.confirming_gui
        ++ (if _is_guided Demo.confirming_gui then ["Cleared all panes."] else []))
  /\ (any_fuzzy (heard_tokens "no, yes") (yes_targets Demo.confirming_gui) (75 # 100)
      = false ->
      any_fuzzy (heard_tokens "no, yes") (no_targets Demo.confirming_gui) (75 # 100)
      = true ->
      prompt_text g' = prompt_text Demo.confirming_gui
      /\ output_text g' = output_text Demo.confirming_gui
      /\ console_text g'
         = ((console_text Demo.confirming_gui +:+ ("[VOICE] Heard: " +:+ (heard +:+ nl)))
              +:+ ("[VOICE] Clear cancelled by voice." +:+ nl))
             +:+ ("[VOICE] Clear cancelled." +:+ nl)
      /\ voice_mode g' = "idle" /\ clear_confirm_window g' = false
      /\ spoken g'
         = spoken Demo.confirming_gui
           ++ (if _is_guided Demo.confirming_gui then ["Clear cancelled."] else [])).
Proof.
  apply (clear_confirmation_answer (fun _ _ g => g) "no, yes" Demo.confirming_gui).
  reflexivity.
Defined.

End ClearAnswerFacts.

(** ** Voice commands: mode, buffer, model, rename *)

Section WakeFacts.
Context {W : Shell.World}.
Import PyStr Shell.

Lemma wake_mode_step (w : string) (rest : list string) (s : State) :
  _handle_wake_command ("mode" :: w :: rest) s = _print_status (wake_mode w s).
Proof. reflexivity. Qed.

Lemma wake_buffer_step (sub : string) (rest : list string) (s : State) :
  _handle_wake_command ("buffer" :: sub :: rest) s
  = _print_status (wake_buffer ("buffer" :: sub :: rest) s).
Proof. reflexivity. Qed.

(** X19. The guided variants are tried before the unguided ones, and the
    word "unguided" is within the threshold of "guided" (ratio 12/14). So
    whenever "guided" is among the guided variants, as it is by default, the
    spoken command "mode unguided" turns guided mode on, and says so. *)
Theorem mode_unguided_turns_guided_on (rest : list string) (s : State) :
  (exists c, c ∈ _get_guided_variants s /\ strip (lower c) = "guided") ->
  let s' := _handle_wake_command ("mode" :: "unguided" :: rest) s in
  guided s' = true
  /\ terminal_buffer s' = terminal_buffer s ++ ["[VOICE] Mode set to Guided."]
  /\ exists status,
       effects s' = effects s ++ [Out "[VOICE] Mode set to Guided.";
                                  Speak "Guided mode enabled."; Out status].
Proof.
  intros (c & Hc & Hn). cbv zeta. rewrite wake_mode_step.
  assert (Hf : fuzzy "unguided" (_get_guided_variants s) = true).
  { apply fuzzy_in_unfold. split; [discriminate|]. exists c. split; [exact Hc|].
    rewrite Hn. vm_compute. discriminate. }
  unfold wake_mode. cbv zeta. rewrite Hf.
  split; [reflexivity|]. split; [reflexivity|].
  eexists. unfold _print_status.
  rewrite effects_print, effects_speak_if_guided by reflexivity.
  change (guided (_print _ true (set_guided_mode true s))) with true.
  rewrite effects_print.
  change (effects (set_guided_mode true s)) with (effects s).
  rewrite <- !app_assoc. reflexivity.
Qed.

Lemma slice_from_end {A} (l tl : list A) :
  slice_from (Z.of_nat (length l)) (l ++ tl) = tl.
Proof.
  unfold slice_from. cbv zeta.
  assert (H : (Z.of_nat (length l) <? 0)%Z = false) by (apply Z.ltb_ge; lia).
  rewrite H, length_app, Z.min_l by lia.
  rewrite Nat2Z.id. apply drop_app_length.
Qed.

(** X20. After the spoken command "buffer clear" the anchor policy is in
    force with the anchor at the old end of the buffer. The announcement of
    the command is itself printed after that point, so the history sent with
    the next request is not empty: it is exactly the announcement. *)
Theorem buffer_clear_history (rest : list string) (s : State) :
  let s' := _handle_wake_command ("buffer" :: "clear" :: rest) s in
  let note := "[VOICE] Buffer anchor set; future shell commands will use history after this point." in
  buffer_mode (settings s') = "anchor"
  /\ buffer_anchor_index s' = Z.of_nat (length (terminal_buffer s))
  /\ terminal_buffer s' = terminal_buffer s ++ [note]
  /\ _get_history_for_shell s' = note.
Proof.
  cbv zeta. rewrite wake_buffer_step.
  change (wake_buffer ("buffer" :: "clear" :: rest) s)
    with (speak_if_guided
            "Buffer cleared for shell commands. I will use only new history."
            (_print "[VOICE] Buffer anchor set; future shell commands will use history after this point."
               true (mark_anchor (set_buffer_mode "anchor" s)))).
  set (s1 := mark_anchor (set_buffer_mode "anchor" s)).
  set (s' := _print_status _).
  assert (Hq : quiet s1 s').
  { unfold s'. eapply quiet_trans; [|apply quiet_print_status].
    eapply quiet_trans; [|apply quiet_speak_if_guided]. apply quiet_print. }
  assert (H1 : buffer_mode (settings s') = "anchor")
    by (by rewrite (quiet_settings _ _ Hq)).
  assert (H2 : buffer_anchor_index s' = Z.of_nat (length (terminal_buffer s)))
    by (symmetry; exact (f_equal buffer_anchor_index Hq)).
  assert (H3 : terminal_buffer s'
               = terminal_buffer s
                 ++ ["[VOICE] Buffer anchor set; future shell commands will use history after this point."]).
  { unfold s'. rewrite status_buffer, speak_buffer, buffer_print by reflexivity.
    reflexivity. }
  split; [exact H1|]. split; [exact H2|]. split; [exact H3|].
  unfold _get_history_for_shell, window_lines, window_start, policy_start.
  cbv zeta. rewrite H1, H2, H3.
  change (String.eqb "anchor" "session") with false.
  change (String.eqb "anchor" "anchor") with true. cbv iota.
  assert (Hr : ((Z.of_nat (length (terminal_buffer s)) <? 0)%Z
                || (Z.of_nat (length (terminal_buffer s ++ ["[VOICE] Buffer anchor set; future shell commands will use history after this point."]))
                    <? Z.of_nat (length (terminal_buffer s)))%Z) = false).
  { rewrite length_app. apply orb_false_iff. split; apply Z.ltb_ge; simpl; lia. }
  rewrite Hr, slice_from_end.
  destruct (terminal_buffer s ++ _) eqn:E; [|reflexivity].
  by apply app_eq_nil in E as [_ E].
Qed.

Lemma model_set_settings (name : string) (s : State) :
  settings (model_set name s) = with_current_model name (settings s).
Proof.
  unfold model_set. cbv zeta.
  rewrite (quiet_settings (set_current_model name s)); [reflexivity|].
  eapply quiet_trans; [|apply quiet_speak_if_guided]. apply quiet_print.
Qed.

Lemma model_set_current (name : string) (s : State) :
  current_model (settings (model_set name s)) = name.
Proof. by rewrite model_set_settings. Qed.

Lemma model_next (s : State) :
  _handle_model_voice "next" s
  = model_set (nth (((if mem (current_model (settings s)) models
                      then index_of (current_model (settings s)) models else 0) + 1)
                    mod length models) models "") s.
Proof. reflexivity. Qed.

Lemma model_previous (s : State) :
  _handle_model_voice "previous" s
  = model_set (nth (((if mem (current_model (settings s)) models
                      then index_of (current_model (settings s)) models else 0)
                     + length models - 1)
                    mod length models) models "") s.
Proof. reflexivity. Qed.

(** X21. [_handle_model_voice] either selects one of the four known models
    or, for an unknown name, leaves the settings alone; nothing but the
    model is ever changed in the settings. From a known model, "next" and
    "previous" undo each other; from an unknown one they count from the
    first model. *)
Theorem model_voice_selects_known (tail : string) (s : State) :
  let s' := _handle_model_voice tail s in
  (settings s' = with_current_model (current_model (settings s')) (settings s))
  /\ (current_model (settings s') ∈ models
      \/ (settings s' = settings s /\ (strip tail ∉ models)
          /\ effects s' = effects s ++ [Out ("[VOICE] Unknown model: " +:+ strip tail)]))
  /\ (current_model (settings s) ∈ models ->
      current_model (settings (_handle_model_voice "previous"
                                 (_handle_model_voice "next" s)))
      = current_model (settings s)
      /\ current_model (settings (_handle_model_voice "next"
                                    (_handle_model_voice "previous" s)))
         = current_model (settings s))
  /\ (current_model (settings s) ∉ models ->
      current_model (settings (_handle_model_voice "next" s)) = "gpt-5-codex"
      /\ current_model (settings (_handle_model_voice "previous" s)) = "gpt-4o").
Proof.
  cbv zeta. split; [|split; [|split]].
  - unfold _handle_model_voice. cbv zeta.
    repeat match goal with |- context [if ?b then _ else _] =>
      lazymatch b with
      | mem (current_model _) _ => fail
      | _ => destruct b
      end end;
      rewrite ?model_set_settings, ?print_settings_same;
      by destruct (settings s).
  - unfold _handle_model_voice. cbv zeta.
    set (idx := if mem (current_model (settings s)) models then _ else 0).
    assert (Hn : forall k, nth (k mod length models) models "" ∈ models).
    { intros k. apply list_elem_of_In, nth_In, Nat.mod_upper_bound. discriminate. }
    destruct (mem (hd "" (split tail)) ["next"; "forward"]);
      [left; rewrite model_set_current; apply Hn|].
    destruct (mem (hd "" (split tail)) ["previous"; "prev"; "back"]);
      [left; rewrite model_set_current; apply Hn|].
    destruct (mem (strip tail) models) eqn:Em.
    + left. rewrite model_set_current. by apply mem_spec.
    + right. split; [apply print_settings_same|]. split; [|apply effects_print].
      intros Hin. apply mem_spec in Hin. congruence.
  - intros Hin. rewrite !model_next, !model_previous, !model_set_current.
    repeat (apply elem_of_cons in Hin as [->|Hin]; [split; reflexivity|]).
    by apply elem_of_nil in Hin.
  - intros Hout. rewrite model_next, model_previous, !model_set_current.
    assert (Em : mem (current_model (settings s)) models = false).
    { apply not_true_is_false. intros E. by apply mem_spec in E. }
    rewrite Em. split; reflexivity.
Qed.

Lemma wake_rename_step (t : string) (rest : list string) (s : State) :
  truthy (strip (join " " (t :: rest))) = true ->
  _handle_wake_command ("rename" :: t :: rest) s
  = let new_name := strip (join " " (t :: rest)) in
    _print_status
      (speak_if_guided ("You can now call me " +:+ new_name +:+ ".")
         (_print ("[VOICE] Assistant renamed to: " +:+ new_name) true
            (emit WriteProfile
               (set_profile (add_aliases "wake" [new_name] (profile s))
                  (set_assistant_name new_name s))))).
Proof.
  intros Ht. unfold _handle_wake_command, wake_with. f_equal.
  assert (Hf : fuzzy "rename" ["respond"; "response"; "reply"] = false)
    by (vm_compute; reflexivity).
  cbv delta [wake_body] beta iota zeta.
  cbn [String.eqb Ascii.eqb Bool.eqb andb orb mem existsb has_second negb].
  rewrite Hf. cbv iota. rewrite Ht. reflexivity.
Qed.

(** The aliases read back after one word was added. *)
Lemma get_aliases_after_add (key w : string) (data : gmap string (list string))
    (x : string) :
  strip (lower w) <> "" ->
  x ∈ get_aliases (add_aliases key [w] data) key []
  <-> x = strip (lower w) \/ x ∈ get_aliases data key [].
Proof.
  intros Hne. unfold add_aliases. cbv zeta. rewrite add_fold_map.
  set (old := map lower (default [] (data !! lower key))).
  set (base := fold_left _ _ old).
  assert (Hbase : forall b, b ∈ base <-> b ∈ old \/ b = strip (lower w)).
  { intros b. unfold base. rewrite keep_first_elem. split.
    - intros [H|[H _]]; [by left|right]. by apply list_elem_of_singleton in H.
    - intros [H| ->]; [by left|right]. split; [apply list_elem_of_here|exact Hne]. }
  assert (Hold : forall y, y ∈ get_aliases data key []
                           <-> y <> "" /\ exists b, b ∈ old /\ y = strip (lower b)).
  { intros y. unfold get_aliases, old.
    destruct (data !! lower key) as [[|v vals]|]; simpl default.
    - split; [intros H; by apply elem_of_nil in H|].
      intros (_ & b & Hb & _). by apply elem_of_nil in Hb.
    - unfold dedup_keep_first. rewrite keep_first_elem. split.
      + intros [H|[H Hy]]; [by apply elem_of_nil in H|]. split; [exact Hy|].
        apply list_elem_of_fmap in H as (u & -> & Hu). exists (lower u).
        split; [apply list_elem_of_fmap; by exists u|by rewrite lower_lower].
      + intros (Hy & b & Hb & ->). right. split; [|exact Hy].
        apply list_elem_of_fmap in Hb as (u & -> & Hu).
        rewrite lower_lower. apply list_elem_of_fmap. by exists u.
    - split; [intros H; by apply elem_of_nil in H|].
      intros (_ & b & Hb & _). by apply elem_of_nil in Hb. }
  assert (Hnew : x ∈ get_aliases (<[lower key:=base]> data) key []
                 <-> x <> "" /\ exists b, b ∈ base /\ x = strip (lower b)).
  { unfold get_aliases. rewrite lookup_insert_eq.
    destruct base as [|b0 bs] eqn:Eb.
    - exfalso. assert (H : strip (lower w) ∈ @nil string) by (apply Hbase; by right).
      by apply elem_of_nil in H.
    - unfold dedup_keep_first. rewrite keep_first_elem. split.
      + intros [H|[H Hx]]; [by apply elem_of_nil in H|]. split; [exact Hx|].
        apply list_elem_of_fmap in H as (u & -> & Hu). by exists u.
      + intros (Hx & b & Hb & ->). right. split; [|exact Hx].
        apply list_elem_of_fmap. by exists b. }
  rewrite Hnew, Hold. split.
  - intros (Hx & b & Hb & ->). apply Hbase in Hb as [Hb| ->].
    + right. split; [exact Hx|]. by exists b.
    + left. apply normal_alias_idemp.
  - intros [->|(Hx & b & Hb & ->)].
    + split; [exact Hne|]. exists (strip (lower w)).
      split; [apply Hbase; by right|]. symmetry. apply normal_alias_idemp.
    + split; [exact Hx|]. exists b. split; [apply Hbase; by left|reflexivity].
Qed.

(** X22. After the spoken command "rename" with a name that is not blank,
    the assistant carries the new name, the profile is written, and the wake
    words are the lower-cased new name and the lower-cased aliases stored
    for "wake" before. The old name is a wake word only if it was stored as
    an alias. *)
Theorem rename_sets_wake_words (t : string) (rest : list string) (s : State) :
  let new_name := strip (join " " (t :: rest)) in
  new_name <> "" ->
  let s' := _handle_wake_command ("rename" :: t :: rest) s in
  assistant_name (settings s') = new_name
  /\ WriteProfile ∈ effects s'
  /\ forall x, x ∈ _get_wake_variants s'
               <-> x = lower new_name
                   \/ exists a, a ∈ get_aliases (profile s) "wake" [] /\ x = lower a.
Proof.
  cbv zeta. intros Hne.
  rewrite wake_rename_step by (by apply truthy_true). cbv zeta.
  set (n := strip (join " " (t :: rest))) in *.
  set (s1 := emit WriteProfile _).
  set (s' := _print_status _).
  assert (Hq : quiet s1 s').
  { unfold s'. eapply quiet_trans; [|apply quiet_print_status].
    eapply quiet_trans; [|apply quiet_speak_if_guided]. apply quiet_print. }
  assert (Hset : settings s' = settings s1) by exact (quiet_settings _ _ Hq).
  assert (Hprof : profile s' = add_aliases "wake" [n] (profile s))
    by (symmetry; exact (f_equal profile Hq)).
  assert (Hn : strip (lower n) = lower n).
  { unfold n. by rewrite strip_lower, strip_strip. }
  split; [by rewrite Hset|]. split.
  - unfold s', _print_status. rewrite effects_print. apply elem_of_app. left.
    destruct (guided (_print ("[VOICE] Assistant renamed to: " +:+ n) true s1)) eqn:Hg.
    + rewrite effects_speak_if_guided by reflexivity. rewrite Hg.
      apply elem_of_app. left. rewrite effects_print. apply elem_of_app. left.
      unfold s1. rewrite effects_emit. apply elem_of_app. right.
      apply list_elem_of_here.
    + unfold speak_if_guided. rewrite Hg.
      rewrite effects_print. apply elem_of_app. left.
      unfold s1. rewrite effects_emit. apply elem_of_app. right.
      apply list_elem_of_here.
  - intros x. unfold _get_wake_variants. cbv zeta.
    rewrite elem_of_sorted, elem_of_union, elem_of_singleton, elem_of_list_to_set.
    rewrite Hset, Hprof.
    change (assistant_name (settings s1)) with n. rewrite Hn.
    rewrite list_elem_of_fmap. split.
    + intros [->|(y & -> & Hy)]; [by left|].
      apply (get_aliases_after_add "wake") in Hy as [->|Hy];
        [|right; by exists y|by rewrite Hn, lower_empty].
      left. by rewrite Hn, lower_lower.
    + intros [->|(a & Ha & ->)]; [by left|]. right. exists a.
      split; [reflexivity|]. apply (get_aliases_after_add "wake");
        [by rewrite Hn, lower_empty|by right].
Qed.

End WakeFacts.

Lemma mode_unguided_turns_guided_on_witness :
  let s := Shell.set_guided_mode false Demo.start in
  let s' := Shell._handle_wake_command ["mode"; "unguided"] s in
  Shell.guided s' = true
  /\ Shell.terminal_buffer s'
     = Shell.terminal_buffer s ++ ["[VOICE] Mode set to Guided."]
  /\ exists status,
       Shell.effects s'
       = Shell.effects s ++ [Shell.Out "[VOICE] Mode set to Guided.";
                             Shell.Speak "Guided mode enabled."; Shell.Out status].
Proof.
  apply (@mode_unguided_turns_guided_on Demo.world []
           (Shell.set_guided_mode false Demo.start)).
  exists "guided". split; [vm_compute; apply list_elem_of_here|reflexivity].
Defined.

Lemma rename_sets_wake_words_witness :
  let s' := Shell._handle_wake_command ["rename"; "Bob"] Demo.start in
  Shell.assistant_name (Shell.settings s') = "Bob"
  /\ Shell.WriteProfile ∈ Shell.effects s'
  /\ forall x, x ∈ Shell._get_wake_variants s'
               <-> x = "bob"
                   \/ exists a, a ∈ Shell.get_aliases (Shell.profile Demo.start) "wake" []
                                /\ x = PyStr.lower a.
Proof.
  apply (@rename_sets_wake_words Demo.world "Bob" [] Demo.start).
  vm_compute. discriminate.
Defined.

(** ** Starting the recogniser *)

Section ListeningFacts.
Context {W : Shell.World}.
Import PyStr Shell.

Lemma effects_set_vosk_loaded (b : bool) (s : State) :
  effects (set_vosk_loaded b s) = effects s.
Proof. reflexivity. Qed.

Lemma effects_set_listening (b : bool) (s : State) :
  effects (set_listening b s) = effects s.
Proof. reflexivity. Qed.

Lemma effects_print_status (s : State) :
  effects (_print_status s) = effects s ++ [Out ("[STATUS] " +:+ _status_text s)].
Proof. apply effects_print. Qed.

Lemma listening_print (t : string) (b : bool) (s : State) :
  _listening (_print t b s) = _listening s.
Proof. exact (eq_sym (f_equal _listening (quiet_print t b s))). Qed.

(** X23. [_init_stt] starts the capture threads exactly when it turns
    listening on: never while the session is already listening, and never
    when the audio library, the recogniser, the model folder or the model
    itself is missing. It never turns listening off. *)
Theorem init_stt_starts_once (s : State) :
  let s' := _init_stt s in
  (exists new, effects s' = effects s ++ new
               /\ (StartThreads ∈ new
                   <-> _listening s = false /\ _listening s' = true))
  /\ (_listening s' = true
      <-> _listening s = true
          \/ (sd_available = true /\ vosk_available = true
              /\ vosk_model_exists = true
              /\ (vosk_loaded s = true \/ vosk_load_error = None))).
Proof.
  cbv zeta. unfold _init_stt. cbv zeta.
  destruct sd_available, vosk_available, vosk_model_exists;
    cbn [negb orb]; cbv iota.
  2-8: (split;
        [eexists; split; [apply effects_print|];
         rewrite listening_print; split;
         [intros H; apply list_elem_of_singleton in H; discriminate
         |intros [H1 H2]; congruence]
        |rewrite listening_print; split; [by left|];
         intros [H|H]; [exact H|]; destruct H as (?&?&?&?); discriminate]).
  destruct (vosk_loaded s) eqn:Hl.
  - destruct (_listening s) eqn:Hs.
    + split.
      * eexists. split; [apply effects_print|]. rewrite listening_print, Hs.
        split; [intros H; apply list_elem_of_singleton in H; discriminate
               |intros [H1 H2]; discriminate].
      * rewrite listening_print, Hs. split; [by left|done].
    + split.
      * eexists. split.
        -- rewrite effects_print_status, effects_print, effects_emit,
             effects_set_listening, <- !app_assoc. reflexivity.
        -- split; [done|]. intros _. simpl. apply list_elem_of_here.
      * split; [|done]. intros _. right. repeat split. by left.
  - destruct vosk_load_error as [e|] eqn:He.
    + split.
      * eexists. split.
        -- rewrite effects_set_vosk_loaded, !effects_print, <- !app_assoc.
           reflexivity.
        -- change (_listening (set_vosk_loaded false _)) with (_listening s).
           split; [|intros [H1 H2]; congruence].
           intros H. simpl in H.
           repeat (apply elem_of_cons in H as [H|H]; [discriminate|]).
           by apply elem_of_nil in H.
      * change (_listening (set_vosk_loaded false _)) with (_listening s).
        split; [by left|]. intros [H|(_ & _ & _ & [H|H])]; [exact H|done..].
    + change (_listening (set_vosk_loaded true (_print _ true s)))
        with (_listening s).
      destruct (_listening s) eqn:Hs.
      * split.
        -- eexists. split.
           ++ rewrite effects_print, effects_set_vosk_loaded, effects_print,
                <- !app_assoc. reflexivity.
           ++ rewrite listening_print.
              change (_listening (set_vosk_loaded true _)) with (_listening s).
              rewrite Hs. split; [|intros [H1 H2]; discriminate].
              intros H. simpl in H.
              repeat (apply elem_of_cons in H as [H|H]; [discriminate|]).
              by apply elem_of_nil in H.
        -- rewrite listening_print. split; [by left|].
           intros _. exact Hs.
      * split.
        -- eexists. split.
           ++ rewrite effects_print_status, effects_print, effects_emit,
                effects_set_listening, effects_set_vosk_loaded, effects_print,
                <- !app_assoc. reflexivity.
           ++ split; [done|]. intros _. simpl.
              apply list_elem_of_further, list_elem_of_here.
        -- split; [|done]. intros _. right. repeat split. by right.
Qed.

End ListeningFacts.
